(** * A shallow embedding of the web-scraper pipeline

    The development follows the Python sources file by file:
    - [Py]: the few Python built-ins the code relies on (truthiness, [str.lower],
      [str.strip], exceptions as values);
    - [ProjectInfo], [ReviewerInfo], [CompetitorInfo], [ScrapedData], [FlatRow]:
      the dataclasses of models.py and [to_flat_dict_list];
    - [Re]: a backtracking matcher for the regular expressions of utils.py;
    - [DataCleaner] and [Retry]: utils.py;
    - [Dedup], [Reviews], [BasicInfo]: the corresponding methods of ClutchScraper.

    Text is modelled by [string], whose characters are read as the code points
    0..255 of a Python [str]. *)

From Stdlib Require Import String Ascii List NArith ZArith Bool Arith Lia Floats.
Import ListNotations.
Local Open Scope string_scope.
Local Open Scope list_scope.
Set Warnings "-inexact-float".

(* ================================================================= *)
(** ** Python built-ins *)

Module Py.

(** A raised exception, as a value. *)
Inductive exn : Type :=
| ValueError
| IndexError
| OtherError (msg : string).

(** The outcome of a call: it returns a value or raises. *)
Inductive result (A : Type) : Type :=
| Ret (a : A)
| Raise (e : exn).
Arguments Ret {A} a.
Arguments Raise {A} e.

Definition bind {A B : Type} (m : result A) (k : A -> result B) : result B :=
  match m with
  | Ret a => k a
  | Raise e => Raise e
  end.

(** [try: m except Exception: h] *)
Definition try_except {A : Type} (m : result A) (h : exn -> result A) : result A :=
  match m with
  | Ret a => Ret a
  | Raise e => h e
  end.

(** Truthiness of a [str]: the empty string is falsy. *)
Definition truthy_str (s : string) : bool :=
  match s with
  | EmptyString => false
  | String _ _ => true
  end.

(** Truthiness of an [Optional[str]]: [None] and [""] are falsy. *)
Definition truthy (o : option string) : bool :=
  match o with
  | Some s => truthy_str s
  | None => false
  end.

(** Truthiness of an [Optional[float]]: [None] and zero are falsy (a NaN is truthy). *)
Definition truthy_float (o : option float) : bool :=
  match o with
  | Some f => negb (PrimFloat.eqb f 0%float)
  | None => false
  end.

(** [x or ""] for an [Optional[str]]. *)
Definition or_empty (o : option string) : string :=
  match o with
  | Some (String c s) => String c s
  | _ => EmptyString
  end.

Definition code (c : ascii) : N := N_of_ascii c.

Definition in_range (lo hi : N) (c : ascii) : bool :=
  (lo <=? code c)%N && (code c <=? hi)%N.

(** [str.isspace] on one character, which is also the class [\s]. *)
Definition isspace (c : ascii) : bool :=
  in_range 9 13 c || in_range 28 32 c || (code c =? 133)%N || (code c =? 160)%N.

(** The class [\d]. *)
Definition isdigit (c : ascii) : bool := in_range 48 57 c.

Definition isupper (c : ascii) : bool :=
  in_range 65 90 c || in_range 192 214 c || in_range 216 222 c.

Definition lower_char (c : ascii) : ascii :=
  if isupper c then ascii_of_N (code c + 32) else c.

(** [str.lower] *)
Fixpoint lower (s : string) : string :=
  match s with
  | EmptyString => EmptyString
  | String c s' => String (lower_char c) (lower s')
  end.

Fixpoint lstrip (s : string) : string :=
  match s with
  | EmptyString => EmptyString
  | String c s' => if isspace c then lstrip s' else s
  end.

Fixpoint rstrip (s : string) : string :=
  match s with
  | EmptyString => EmptyString
  | String c s' =>
      match rstrip s' with
      | EmptyString => if isspace c then EmptyString else String c EmptyString
      | t => String c t
      end
  end.

(** [str.strip] with no argument. *)
Definition strip (s : string) : string := lstrip (rstrip s).

(** [sep.join(l)] *)
Definition join (sep : string) (l : list string) : string := String.concat sep l.

End Py.

(* ================================================================= *)
(** ** models.py *)

Module ProjectInfo.
Record t : Type := mk {
  service_provided : option string;
  project_size : option string;
  start_date : option string;
  end_date : option string;
  score : option float;
  score_quality : option float;
  score_schedule : option float;
  score_cost : option float;
  score_willing_to_refer : option float
}.

(** [ProjectInfo()] *)
Definition default : t := mk None None None None None None None None None.
End ProjectInfo.

Module ReviewerInfo.
Record t : Type := mk {
  name : option string;
  job_title : option string;
  company : option string;
  industry : option string;
  location : option string;
  company_size : option string;
  project : option ProjectInfo.t
}.

(** [ReviewerInfo()]: [__post_init__] replaces an absent project by an empty one. *)
Definition default : t :=
  mk None None None None None None (Some ProjectInfo.default).
End ReviewerInfo.

Module CompetitorInfo.
Record t : Type := mk {
  name : option string;
  locations : list string
}.

Definition default : t := mk None [].
End CompetitorInfo.

Module FlatRow.
(** One row of [to_flat_dict_list]: the dict has these keys, in this order. *)
Record t : Type := mk {
  category : string;
  subcategory : option string;
  scraped_at : option string;
  source_url : option string;
  source_url_review : option string;
  competitor_name : option string;
  competitor_locations : option string;
  reviewer_name : option string;
  reviewer_job_title : option string;
  reviewer_company : option string;
  reviewer_industry : option string;
  reviewer_location : option string;
  reviewer_company_size : option string;
  service_provided : option string;
  project_size : option string;
  project_start_date : option string;
  project_end_date : option string;
  project_score : option float;
  project_score_quality : option float;
  project_score_schedule : option float;
  project_score_cost : option float;
  project_score_willing_to_refer : option float
}.

(** The reviewer and project entries of a row are all [None]. *)
Definition reviewer_fields_absent (r : t) : Prop :=
  reviewer_name r = None /\ reviewer_job_title r = None /\
  reviewer_company r = None /\ reviewer_industry r = None /\
  reviewer_location r = None /\ reviewer_company_size r = None /\
  service_provided r = None /\ project_size r = None /\
  project_start_date r = None /\ project_end_date r = None /\
  project_score r = None /\ project_score_quality r = None /\
  project_score_schedule r = None /\ project_score_cost r = None /\
  project_score_willing_to_refer r = None.

(** The entries a row takes from the record itself and from its competitor. *)
Definition shared_fields (r : t) :=
  (category r, subcategory r, competitor_name r, competitor_locations r).
End FlatRow.

Module ScrapedData.
Record t : Type := mk {
  category : string;
  subcategory : option string;
  competitor : option CompetitorInfo.t;
  reviewers : list ReviewerInfo.t;
  scraped_at : option string;
  source_url : option string;
  source_url_review : option string
}.

(** The assignment [record.reviewers = rs]. *)
Definition set_reviewers (d : t) (rs : list ReviewerInfo.t) : t :=
  mk (category d) (subcategory d) (competitor d) rs
     (scraped_at d) (source_url d) (source_url_review d).

(** The constructor as the sources call it, with the category and the timestamp
    left to their defaults, followed by [__post_init__]; [now] is
    [datetime.now().isoformat()] at the time of the call. *)
Definition init (now : string) (subcategory : option string)
    (competitor : option CompetitorInfo.t) (reviewers : option (list ReviewerInfo.t))
    (source_url source_url_review : option string) : t :=
  mk "Development" subcategory
     (Some (match competitor with Some c => c | None => CompetitorInfo.default end))
     (match reviewers with Some rs => rs | None => [] end)
     (Some now)
     source_url
     (if Py.truthy source_url && negb (Py.truthy source_url_review)
      then Some (Py.or_empty source_url ++ "#reviews")%string
      else source_url_review).

(** [self.competitor.name if self.competitor else None] *)
Definition competitor_name (d : t) : option string :=
  match competitor d with
  | Some c => CompetitorInfo.name c
  | None => None
  end.

(** [', '.join(self.competitor.locations) if self.competitor and
    self.competitor.locations else None] *)
Definition competitor_locations (d : t) : option string :=
  match competitor d with
  | Some c =>
      match CompetitorInfo.locations c with
      | [] => None
      | ls => Some (Py.join ", " ls)
      end
  | None => None
  end.

(** [reviewer.project.f if reviewer.project else None] *)
Definition project_field {A : Type} (f : ProjectInfo.t -> option A)
    (r : ReviewerInfo.t) : option A :=
  match ReviewerInfo.project r with
  | Some p => f p
  | None => None
  end.

Definition empty_row (d : t) : FlatRow.t :=
  FlatRow.mk (category d) (subcategory d) (scraped_at d) (source_url d)
    (source_url_review d) (competitor_name d) (competitor_locations d)
    None None None None None None
    None None None None None None None None None.

Definition reviewer_row (d : t) (r : ReviewerInfo.t) : FlatRow.t :=
  FlatRow.mk (category d) (subcategory d) (scraped_at d) (source_url d)
    (source_url_review d) (competitor_name d) (competitor_locations d)
    (ReviewerInfo.name r) (ReviewerInfo.job_title r) (ReviewerInfo.company r)
    (ReviewerInfo.industry r) (ReviewerInfo.location r) (ReviewerInfo.company_size r)
    (project_field ProjectInfo.service_provided r)
    (project_field ProjectInfo.project_size r)
    (project_field ProjectInfo.start_date r)
    (project_field ProjectInfo.end_date r)
    (project_field ProjectInfo.score r)
    (project_field ProjectInfo.score_quality r)
    (project_field ProjectInfo.score_schedule r)
    (project_field ProjectInfo.score_cost r)
    (project_field ProjectInfo.score_willing_to_refer r).

(** The loop [for reviewer in self.reviewers: rows.append(row)]. *)
Fixpoint append_rows (d : t) (rs : list ReviewerInfo.t) (rows : list FlatRow.t)
  : list FlatRow.t :=
  match rs with
  | [] => rows
  | r :: rs' => append_rows d rs' (rows ++ [reviewer_row d r])
  end.

Definition to_flat_dict_list (d : t) : list FlatRow.t :=
  match reviewers d with
  | [] => [empty_row d]
  | rs => append_rows d rs []
  end.

(** The reviewer and project entries of a row, in the order of the dict. *)
Definition reviewer_part (row : FlatRow.t) :=
  (FlatRow.reviewer_name row, FlatRow.reviewer_job_title row,
   FlatRow.reviewer_company row, FlatRow.reviewer_industry row,
   FlatRow.reviewer_location row, FlatRow.reviewer_company_size row,
   (FlatRow.service_provided row, FlatRow.project_size row,
    FlatRow.project_start_date row, FlatRow.project_end_date row),
   (FlatRow.project_score row, FlatRow.project_score_quality row,
    FlatRow.project_score_schedule row, FlatRow.project_score_cost row,
    FlatRow.project_score_willing_to_refer row)).

(** The same entries, read off a reviewer and its project. *)
Definition reviewer_entries (r : ReviewerInfo.t) :=
  (ReviewerInfo.name r, ReviewerInfo.job_title r, ReviewerInfo.company r,
   ReviewerInfo.industry r, ReviewerInfo.location r, ReviewerInfo.company_size r,
   (project_field ProjectInfo.service_provided r,
    project_field ProjectInfo.project_size r,
    project_field ProjectInfo.start_date r,
    project_field ProjectInfo.end_date r),
   (project_field ProjectInfo.score r,
    project_field ProjectInfo.score_quality r,
    project_field ProjectInfo.score_schedule r,
    project_field ProjectInfo.score_cost r,
    project_field ProjectInfo.score_willing_to_refer r)).

Lemma append_rows_map (d : t) (rs : list ReviewerInfo.t) (rows : list FlatRow.t) :
  append_rows d rs rows = rows ++ map (reviewer_row d) rs.
Proof.
  revert rows. induction rs as [|r rs IH]; intros rows; simpl.
  - now rewrite app_nil_r.
  - rewrite IH, <- app_assoc. reflexivity.
Qed.

Lemma to_flat_dict_list_nonempty (d : t) :
  reviewers d <> [] -> to_flat_dict_list d = map (reviewer_row d) (reviewers d).
Proof.
  unfold to_flat_dict_list. destruct (reviewers d) as [|r rs] eqn:E.
  - congruence.
  - intros _. now rewrite append_rows_map.
Qed.

Lemma reviewer_row_part (d : t) (r : ReviewerInfo.t) :
  reviewer_part (reviewer_row d r) = reviewer_entries r.
Proof. reflexivity. Qed.

Lemma reviewer_row_shared (d : t) (r : ReviewerInfo.t) :
  FlatRow.shared_fields (reviewer_row d r)
  = (category d, subcategory d, competitor_name d, competitor_locations d).
Proof. reflexivity. Qed.

(** C5. A record without reviewers flattens to exactly one row, whose reviewer
    and project entries are all absent. A record with [k >= 1] reviewers flattens
    to exactly [k] rows, the i-th row carrying the entries of the i-th reviewer,
    and every row carries the category, subcategory and competitor entries of
    the record, so all rows agree on them. *)
Theorem to_flat_dict_list_rows (d : t) :
  (reviewers d = [] ->
     exists row, to_flat_dict_list d = [row] /\ FlatRow.reviewer_fields_absent row)
  /\
  (reviewers d <> [] ->
     List.length (to_flat_dict_list d) = List.length (reviewers d)
     /\ map reviewer_part (to_flat_dict_list d) = map reviewer_entries (reviewers d)
     /\ (forall row, In row (to_flat_dict_list d) ->
           FlatRow.shared_fields row
           = (category d, subcategory d, competitor_name d, competitor_locations d))
     /\ (forall row row', In row (to_flat_dict_list d) -> In row' (to_flat_dict_list d) ->
           FlatRow.shared_fields row = FlatRow.shared_fields row')).
Proof.
  split.
  - intros E. exists (empty_row d). split.
    + unfold to_flat_dict_list. now rewrite E.
    + unfold FlatRow.reviewer_fields_absent. simpl. tauto.
  - intros NE. rewrite (to_flat_dict_list_nonempty d NE).
    assert (SH : forall row, In row (map (reviewer_row d) (reviewers d)) ->
              FlatRow.shared_fields row
              = (category d, subcategory d, competitor_name d, competitor_locations d)).
    { intros row IN. apply in_map_iff in IN. destruct IN as [r [<- _]].
      apply reviewer_row_shared. }
    repeat split.
    + apply length_map.
    + rewrite map_map. apply map_ext. intros r. apply reviewer_row_part.
    + exact SH.
    + intros row row' IN IN'. now rewrite (SH _ IN), (SH _ IN').
Qed.

End ScrapedData.

Module ModelsExamples.
Import ScrapedData.

(** The sample record of the module's self-test, without its project details. *)
Definition reviewer1 : ReviewerInfo.t :=
  ReviewerInfo.mk (Some "John Smith") (Some "CTO") (Some "StartupXYZ")
    (Some "Technology") (Some "Austin, TX") (Some "50-100 employees")
    (Some (ProjectInfo.mk (Some "Custom Software Development")
             (Some "$50,000 - $100,000") (Some "Jan 2023") (Some "Jun 2023")
             (Some 4.8%float) None None None None)).

Definition reviewer2 : ReviewerInfo.t :=
  ReviewerInfo.mk (Some "Jane Doe") (Some "Product Manager") (Some "E-commerce Inc")
    (Some "Retail") (Some "Seattle, WA") (Some "100-500 employees")
    (Some (ProjectInfo.mk (Some "Web Development") (Some "$75,000")
             (Some "Mar 2023") (Some "Aug 2023") (Some 4.5%float)
             None None None None)).

Definition sample_data : ScrapedData.t :=
  ScrapedData.init "2024-01-01T00:00:00" (Some "Software Developers")
    (Some (CompetitorInfo.mk (Some "Tech Solutions Inc")
             ["New York, NY"; "San Francisco, CA"]))
    (Some [reviewer1; reviewer2])
    (Some "https://clutch.co/profile/tech-solutions-inc") None.

Definition bare_data : ScrapedData.t :=
  ScrapedData.init "2024-01-01T00:00:00" (Some "Software Developers")
    (Some (CompetitorInfo.mk (Some "Tech Solutions Inc") [])) None
    (Some "https://clutch.co/profile/tech-solutions-inc") None.

Example sample_data_review_url :
  source_url_review sample_data
  = Some "https://clutch.co/profile/tech-solutions-inc#reviews".
Proof. reflexivity. Qed.

Example sample_data_rows :
  map FlatRow.reviewer_name (to_flat_dict_list sample_data)
  = [Some "John Smith"; Some "Jane Doe"]
  /\ map FlatRow.competitor_locations (to_flat_dict_list sample_data)
     = [Some "New York, NY, San Francisco, CA"; Some "New York, NY, San Francisco, CA"].
Proof. split; reflexivity. Qed.

Lemma to_flat_dict_list_rows_witness :
  (exists row, to_flat_dict_list bare_data = [row] /\ FlatRow.reviewer_fields_absent row)
  /\ List.length (to_flat_dict_list sample_data) = 2.
Proof.
  split.
  - apply (proj1 (to_flat_dict_list_rows bare_data)). reflexivity.
  - apply (proj2 (to_flat_dict_list_rows sample_data)). discriminate.
Defined.

End ModelsExamples.

(* ================================================================= *)
(** ** scraper.py: [ClutchScraper._deduplicate_companies] *)

Module Dedup.
Import ScrapedData.

(** [company_name.lower().strip()] *)
Definition normalized (company_name : string) : string :=
  Py.strip (Py.lower company_name).

(** The key under which the first loop files a record: [None] for a record the
    loop skips ([if not company_name: continue]). *)
Definition group_key (record : t) : option string :=
  match competitor_name record with
  | Some company_name =>
      if Py.truthy_str company_name then Some (normalized company_name) else None
  | None => None
  end.

(** [company_groups]: a dict, which iterates in the order its keys were inserted. *)
Definition groups : Type := list (string * list t).

(** [if k not in company_groups: company_groups[k] = []] followed by
    [company_groups[k].append(record)]. *)
Fixpoint append_to_group (k : string) (record : t) (g : groups) : groups :=
  match g with
  | [] => [(k, [record])]
  | (k', records) :: g' =>
      if String.eqb k k' then (k', records ++ [record]) :: g'
      else (k', records) :: append_to_group k record g'
  end.

Definition add_record (g : groups) (record : t) : groups :=
  match group_key record with
  | Some k => append_to_group k record g
  | None => g
  end.

Definition company_groups (data : list t) : groups :=
  fold_left add_record data [].

(** [len(r.reviewers) if r.reviewers else 0] *)
Definition reviewer_count (r : t) : nat :=
  match reviewers r with
  | [] => 0
  | rs => List.length rs
  end.

(** [max(records, key=...)] keeps the first of the maximal elements: the
    candidate changes only for a strictly larger key. *)
Fixpoint max_from (best : t) (records : list t) : t :=
  match records with
  | [] => best
  | r :: records' =>
      if (reviewer_count best <? reviewer_count r)%nat then max_from r records'
      else max_from best records'
  end.

(** [(reviewer.name or "", reviewer.company or "", reviewer.job_title or "")] *)
Definition signature (reviewer : ReviewerInfo.t) : string * string * string :=
  (Py.or_empty (ReviewerInfo.name reviewer),
   Py.or_empty (ReviewerInfo.company reviewer),
   Py.or_empty (ReviewerInfo.job_title reviewer)).

Definition signature_eqb (a b : string * string * string) : bool :=
  let '(a1, a2, a3) := a in
  let '(b1, b2, b3) := b in
  String.eqb a1 b1 && String.eqb a2 b2 && String.eqb a3 b3.

(** [signature in reviewer_signatures] *)
Definition seen (sig : string * string * string)
    (reviewer_signatures : list (string * string * string)) : bool :=
  existsb (signature_eqb sig) reviewer_signatures.

(** The state of the merge loops: [(reviewer_signatures, all_reviewers)]. *)
Definition merge_state : Type :=
  (list (string * string * string) * list ReviewerInfo.t)%type.

(** The body of [for reviewer in record.reviewers]. *)
Definition scan_reviewer (st : merge_state) (reviewer : ReviewerInfo.t) : merge_state :=
  let sig := signature reviewer in
  if seen sig (fst st) then st
  else (sig :: fst st, snd st ++ [reviewer]).

(** The body of [for record in records]; an empty reviewer list is skipped. *)
Definition scan_record (st : merge_state) (record : t) : merge_state :=
  match reviewers record with
  | [] => st
  | rs => fold_left scan_reviewer rs st
  end.

Definition merge_reviewers (records : list t) : list ReviewerInfo.t :=
  snd (fold_left scan_record records ([], [])).

(** The body of [for company_name, records in company_groups.items()]: what one
    group appends to [deduplicated]. A group is never empty (see
    [company_groups_nonempty]). *)
Definition merge_group (records : list t) : list t :=
  match records with
  | [] => []
  | [record] => [record]
  | r :: records' =>
      [set_reviewers (max_from r records') (merge_reviewers records)]
  end.

Definition _deduplicate_companies (data : list t) : list t :=
  match data with
  | [] => data
  | _ =>
      fold_left (fun deduplicated g => deduplicated ++ merge_group (snd g))
        (company_groups data) []
  end.

(** *** Keys, groups and first occurrences *)

(** The normalized names of the named records, in input order. *)
Definition input_keys (data : list t) : list string :=
  flat_map (fun r => match group_key r with Some k => [k] | None => [] end) data.

(** The records filed under the key [k], in input order. *)
Definition has_key (k : string) (r : t) : bool :=
  match group_key r with
  | Some k' => String.eqb k' k
  | None => false
  end.

Definition records_of (k : string) (data : list t) : list t :=
  filter (has_key k) data.

(** The distinct elements of a list, each at the place of its first appearance. *)
Fixpoint first_appearances (l : list string) : list string :=
  match l with
  | [] => []
  | x :: l' => x :: filter (fun y => negb (String.eqb y x)) (first_appearances l')
  end.



(** The dict after the first loop: the distinct keys in order of first
    appearance, each with the records filed under it in input order. *)
Definition grouped (data : list t) : groups :=
  map (fun k => (k, records_of k data)) (first_appearances (input_keys data)).

(** *** Lists of keys *)

Lemma existsb_eqb_In (k : string) (l : list string) :
  existsb (String.eqb k) l = true <-> In k l.
Proof.
  rewrite existsb_exists. split.
  - intros [x [IN E]]. apply String.eqb_eq in E. now subst.
  - intros IN. exists k. split; [assumption | apply String.eqb_refl].
Qed.

Lemma first_appearances_snoc (l : list string) (k : string) :
  first_appearances (l ++ [k])
  = if existsb (String.eqb k) l then first_appearances l
    else first_appearances l ++ [k].
Proof.
  induction l as [|x l IH]; simpl.
  - reflexivity.
  - rewrite IH. destruct (String.eqb_spec k x) as [->|NE]; simpl.
    + destruct (existsb (String.eqb x) l); [reflexivity|].
      rewrite filter_app. simpl. rewrite String.eqb_refl. simpl.
      now rewrite app_nil_r.
    + destruct (existsb (String.eqb k) l); [reflexivity|].
      rewrite filter_app. simpl.
      apply String.eqb_neq in NE. now rewrite NE.
Qed.

Lemma first_appearances_In (l : list string) (k : string) :
  In k (first_appearances l) <-> In k l.
Proof.
  induction l as [|x l IH]; simpl; [tauto|].
  rewrite filter_In, IH, negb_true_iff, String.eqb_neq.
  destruct (string_dec x k) as [->|NE]; [tauto|].
  split; [tauto|]. intros [E|IN]; [tauto|]. right. split; congruence.
Qed.

Lemma first_appearances_NoDup (l : list string) : NoDup (first_appearances l).
Proof.
  induction l as [|x l IH]; simpl; constructor.
  - rewrite filter_In, String.eqb_refl. simpl. intros [_ ?]. discriminate.
  - now apply NoDup_filter.
Qed.

Lemma first_appearances_NoDup_id (l : list string) :
  NoDup l -> first_appearances l = l.
Proof.
  induction 1 as [|x l NI ND IH]; simpl; [reflexivity|].
  rewrite IH. f_equal. apply forallb_filter_id. apply forallb_forall.
  intros y IN. apply negb_true_iff, String.eqb_neq. congruence.
Qed.

(** *** The dict of groups *)

Lemma input_keys_app (d1 d2 : list t) :
  input_keys (d1 ++ d2) = input_keys d1 ++ input_keys d2.
Proof. apply flat_map_app. Qed.

Lemma input_keys_snoc (data : list t) (r : t) :
  input_keys (data ++ [r])
  = input_keys data ++ match group_key r with Some k => [k] | None => [] end.
Proof. rewrite input_keys_app. unfold input_keys at 2. simpl. now rewrite app_nil_r. Qed.

Lemma records_of_app (k : string) (d1 d2 : list t) :
  records_of k (d1 ++ d2) = records_of k d1 ++ records_of k d2.
Proof. apply filter_app. Qed.

Lemma has_key_iff (k : string) (r : t) :
  has_key k r = true <-> group_key r = Some k.
Proof.
  unfold has_key. destruct (group_key r) as [k'|].
  - rewrite String.eqb_eq. split; congruence.
  - split; discriminate.
Qed.

Lemma records_of_key (k : string) (data : list t) (r : t) :
  In r (records_of k data) -> group_key r = Some k.
Proof. intros IN. apply filter_In in IN. now apply has_key_iff. Qed.

Lemma input_keys_In (k : string) (data : list t) :
  In k (input_keys data) <-> exists r, In r data /\ group_key r = Some k.
Proof.
  unfold input_keys. rewrite in_flat_map. split.
  - intros [r [IN H]]. exists r. split; [assumption|].
    destruct (group_key r); simpl in H; [|contradiction].
    destruct H as [->|[]]. reflexivity.
  - intros [r [IN E]]. exists r. split; [assumption|]. rewrite E. now left.
Qed.

Lemma records_of_nil (k : string) (data : list t) :
  ~ In k (input_keys data) -> records_of k data = [].
Proof.
  intros NI. destruct (records_of k data) as [|r rs] eqn:E; [reflexivity|].
  exfalso. apply NI. apply input_keys_In. exists r.
  assert (IN : In r (records_of k data)) by (rewrite E; now left).
  split; [apply filter_In in IN; tauto | now apply records_of_key with data].
Qed.

Lemma records_of_nonempty (k : string) (data : list t) :
  In k (input_keys data) -> records_of k data <> [].
Proof.
  intros IN. apply input_keys_In in IN. destruct IN as [r [IN E]].
  assert (IN' : In r (records_of k data)).
  { apply filter_In. split; [assumption | now apply has_key_iff]. }
  intros E'. now rewrite E' in IN'.
Qed.

Lemma append_to_group_map (k : string) (r : t) (f : string -> list t)
    (ks : list string) :
  NoDup ks ->
  append_to_group k r (map (fun k' => (k', f k')) ks)
  = map (fun k' => (k', f k' ++ if String.eqb k k' then [r] else [])) ks
    ++ (if existsb (String.eqb k) ks then [] else [(k, [r])]).
Proof.
  induction 1 as [|k0 ks NI ND IH]; simpl; [reflexivity|].
  destruct (String.eqb_spec k k0) as [->|NE]; simpl.
  - rewrite app_nil_r. f_equal. apply map_ext_in. intros k' IN.
    destruct (String.eqb_spec k0 k') as [->|_]; [contradiction|].
    now rewrite app_nil_r.
  - now rewrite IH, app_nil_r.
Qed.

Lemma company_groups_grouped (data : list t) :
  company_groups data = grouped data.
Proof.
  unfold company_groups.
  induction data as [|r data IH] using rev_ind; [reflexivity|].
  rewrite fold_left_app. simpl. rewrite IH. unfold add_record, grouped.
  rewrite input_keys_snoc.
  destruct (group_key r) as [k|] eqn:K.
  - rewrite append_to_group_map by apply first_appearances_NoDup.
    rewrite first_appearances_snoc.
    assert (STEP : forall k', records_of k' (data ++ [r])
                   = records_of k' data ++ (if String.eqb k k' then [r] else [])).
    { intros k'. rewrite records_of_app. f_equal. unfold records_of. simpl.
      unfold has_key. now rewrite K. }
    destruct (existsb (String.eqb k) (first_appearances (input_keys data))) eqn:EX.
    + assert (EX' : existsb (String.eqb k) (input_keys data) = true).
      { apply existsb_eqb_In. apply first_appearances_In. now apply existsb_eqb_In. }
      rewrite EX', app_nil_r. apply map_ext. intros k'. now rewrite STEP.
    + assert (EX' : existsb (String.eqb k) (input_keys data) = false).
      { apply not_true_is_false. intros T. apply existsb_eqb_In in T.
        apply first_appearances_In in T. apply existsb_eqb_In in T. congruence. }
      rewrite EX', map_app. simpl. f_equal.
      * apply map_ext. intros k'. now rewrite STEP.
      * rewrite STEP, String.eqb_refl, records_of_nil; [reflexivity|].
        intros IN. apply existsb_eqb_In in IN. congruence.
  - rewrite app_nil_r. apply map_ext. intros k'. rewrite records_of_app.
    unfold records_of at 2. simpl. unfold has_key. rewrite K. now rewrite app_nil_r.
Qed.

Lemma company_groups_nonempty (data : list t) (k : string) (records : list t) :
  In (k, records) (company_groups data) -> records <> [].
Proof.
  rewrite company_groups_grouped. unfold grouped. rewrite in_map_iff.
  intros [k' [E IN]]. inversion E; subst. apply records_of_nonempty.
  now apply first_appearances_In.
Qed.

Lemma fold_left_append_flat_map {A B : Type} (h : A -> list B) (l : list A)
    (acc : list B) :
  fold_left (fun out x => out ++ h x) l acc = acc ++ flat_map h l.
Proof.
  revert acc. induction l as [|x l IH]; intros acc; simpl.
  - now rewrite app_nil_r.
  - now rewrite IH, app_assoc.
Qed.

(** The deduplicator in closed form. *)
Lemma _deduplicate_companies_grouped (data : list t) :
  _deduplicate_companies data
  = flat_map (fun k => merge_group (records_of k data))
      (first_appearances (input_keys data)).
Proof.
  destruct data as [|r data]; [reflexivity|].
  unfold _deduplicate_companies.
  rewrite fold_left_append_flat_map, company_groups_grouped. unfold grouped.
  simpl app. rewrite flat_map_concat_map, map_map, <- flat_map_concat_map.
  reflexivity.
Qed.

(** *** One group *)

Lemma group_key_set_reviewers (r : t) (rs : list ReviewerInfo.t) :
  group_key (set_reviewers r rs) = group_key r.
Proof. reflexivity. Qed.

Lemma max_from_In (best : t) (records : list t) :
  In (max_from best records) (best :: records).
Proof.
  revert best. induction records as [|r records IH]; intros best; simpl.
  - now left.
  - destruct (reviewer_count best <? reviewer_count r)%nat.
    + right. apply IH.
    + destruct (IH best) as [E|IN]; [now left | right; now right].
Qed.

(** The record a group contributes: the group itself when it has one member,
    else the primary record with the merged reviewers. *)
Lemma merge_group_cases (records : list t) :
  records <> [] ->
  exists out, merge_group records = [out] /\
    ((exists r, records = [r] /\ out = r)
     \/ (2 <= length records /\
         exists best, In best records /\
           out = set_reviewers best (merge_reviewers records))).
Proof.
  destruct records as [|r [|r' records]]; [congruence| |]; intros _.
  - exists r. split; [reflexivity|]. left. now exists r.
  - eexists. split; [reflexivity|]. right. split; [simpl; lia|].
    exists (max_from r (r' :: records)). split; [apply max_from_In | reflexivity].
Qed.

Lemma merge_group_key (k : string) (data : list t) :
  In k (input_keys data) ->
  exists out, merge_group (records_of k data) = [out] /\ group_key out = Some k.
Proof.
  intros IN. destruct (merge_group_cases _ (records_of_nonempty k data IN))
    as [out [E [[r [E1 E2]]|[_ [best [INB E2]]]]]]; exists out; subst out.
  - split; [assumption|]. apply records_of_key with data. rewrite E1. now left.
  - split; [assumption|]. rewrite group_key_set_reviewers.
    now apply records_of_key with data.
Qed.

(** *** The merged reviewer list *)











(** *** The output as a whole *)

Lemma group_key_name (r : t) (k : string) :
  group_key r = Some k ->
  exists n, competitor_name r = Some n /\ Py.truthy_str n = true /\ k = normalized n.
Proof.
  unfold group_key. destruct (competitor_name r) as [n|]; [|discriminate].
  destruct (Py.truthy_str n) eqn:T; [|discriminate].
  intros E. inversion E. now exists n.
Qed.

Lemma group_key_nameless (r : t) :
  Py.truthy (competitor_name r) = false <-> group_key r = None.
Proof.
  unfold group_key, Py.truthy. destruct (competitor_name r) as [n|]; [|tauto].
  destruct (Py.truthy_str n); split; congruence.
Qed.

Lemma keys_of_merged_groups (data : list t) (ks : list string) :
  incl ks (input_keys data) ->
  map group_key (flat_map (fun k => merge_group (records_of k data)) ks)
  = map Some ks.
Proof.
  induction ks as [|k ks IH]; intros INCL; simpl; [reflexivity|].
  destruct (merge_group_key k data) as [out [E K]]; [apply INCL; now left|].
  rewrite E. simpl. rewrite K, IH; [reflexivity|].
  intros k' IN. apply INCL. now right.
Qed.

Lemma deduplicated_keys (data : list t) :
  map group_key (_deduplicate_companies data)
  = map Some (first_appearances (input_keys data)).
Proof.
  rewrite _deduplicate_companies_grouped. apply keys_of_merged_groups.
  intros k. apply first_appearances_In.
Qed.

Lemma NoDup_map_Some {A : Type} (l : list A) : NoDup l -> NoDup (map Some l).
Proof.
  induction 1 as [|x l NI ND IH]; simpl; constructor; [|assumption].
  rewrite in_map_iff. intros [y [E IN]]. inversion E. now subst.
Qed.

Lemma input_keys_of_keys (l : list t) (ks : list string) :
  map group_key l = map Some ks -> input_keys l = ks.
Proof.
  revert ks. induction l as [|r l IH]; intros [|k ks] E; try discriminate.
  - reflexivity.
  - simpl in E. inversion E as [[K E']]. unfold input_keys. simpl. rewrite K.
    simpl. f_equal. now apply IH.
Qed.

Lemma records_of_absent_key (l : list t) (ks : list string) (k : string) :
  map group_key l = map Some ks -> ~ In k ks -> records_of k l = [].
Proof.
  intros E NI. apply records_of_nil. now rewrite (input_keys_of_keys l ks E).
Qed.

(** A list whose records all have a name, under pairwise distinct keys, is left
    as it is: every group has one member. *)
Lemma merge_singleton_groups (l0 l : list t) (ks : list string) :
  map group_key l = map Some ks -> NoDup ks ->
  (forall k, In k ks -> records_of k l0 = records_of k l) ->
  flat_map (fun k => merge_group (records_of k l0)) ks = l.
Proof.
  revert l0 ks. induction l as [|r l IH]; intros l0 [|k ks] E ND SAME;
    try discriminate; [reflexivity|].
  simpl in E. inversion E as [[K E']]. inversion ND as [|? ? NI ND']; subst.
  simpl. rewrite (SAME k) by now left.
  unfold records_of at 1. simpl. fold (records_of k l).
  assert (HK : has_key k r = true) by now apply has_key_iff.
  rewrite HK, (records_of_absent_key l ks k E' NI). simpl. f_equal.
  apply IH; try assumption.
  intros k' IN. rewrite (SAME k') by now right.
  unfold records_of at 1. simpl.
  assert (HK' : has_key k' r = false).
  { apply not_true_is_false. intros T. apply has_key_iff in T.
    rewrite K in T. inversion T. now subst. }
  now rewrite HK'.
Qed.

Lemma _deduplicate_companies_fixed (l : list t) (ks : list string) :
  map group_key l = map Some ks -> NoDup ks -> _deduplicate_companies l = l.
Proof.
  intros E ND. rewrite _deduplicate_companies_grouped.
  rewrite (input_keys_of_keys l ks E), (first_appearances_NoDup_id _ ND).
  now apply merge_singleton_groups.
Qed.

Lemma In_records_of_input (k : string) (data : list t) (r : t) :
  In r (records_of k data) -> In k (first_appearances (input_keys data)).
Proof.
  intros IN. apply first_appearances_In, input_keys_In. exists r.
  split; [apply filter_In in IN; tauto | now apply records_of_key with data].
Qed.

Lemma deduplicated_have_names (data : list t) (out : t) :
  In out (_deduplicate_companies data) ->
  exists n, competitor_name out = Some n /\ Py.truthy_str n = true
            /\ group_key out = Some (normalized n).
Proof.
  intros IN. apply (in_map group_key) in IN.
  rewrite deduplicated_keys, in_map_iff in IN. destruct IN as [k [K _]].
  symmetry in K. destruct (group_key_name out k K) as [n [N [T ->]]].
  now exists n.
Qed.

(** *** The properties of the deduplicator *)


(** The key of a record, with the normalization written out: the name in lower
    case and without the white space around it. *)
Lemma group_key_lower_stripped (r : t) :
  group_key r
  = match competitor_name r with
    | Some n => if Py.truthy_str n then Some (Py.strip (Py.lower n)) else None
    | None => None
    end.
Proof. reflexivity. Qed.

(** The names of the output, lower-cased and stripped, are the distinct
    lower-cased and stripped names of the input, in the order of their first
    appearance. *)
Lemma deduplicated_lower_stripped (data : list t) :
  map (fun out => option_map (fun n => Py.strip (Py.lower n)) (competitor_name out))
    (_deduplicate_companies data)
  = map Some
      (first_appearances
         (flat_map
            (fun r => match competitor_name r with
                      | Some n => if Py.truthy_str n then [Py.strip (Py.lower n)] else []
                      | None => []
                      end)
            data)).
Proof.
  assert (K : input_keys data
              = flat_map
                  (fun r => match competitor_name r with
                            | Some n =>
                                if Py.truthy_str n then [Py.strip (Py.lower n)] else []
                            | None => []
                            end)
                  data).
  { unfold input_keys. apply flat_map_ext. intros r.
    rewrite group_key_lower_stripped. destruct (competitor_name r) as [n|]; [|reflexivity].
    now destruct (Py.truthy_str n). }
  rewrite <- K, <- deduplicated_keys. apply map_ext_in. intros out IN.
  destruct (deduplicated_have_names data out IN) as [n [N [T _]]].
  rewrite group_key_lower_stripped, N, T. reflexivity.
Qed.


(** C3, amended. A record whose competitor name is absent (or empty) is never
    merged with any other record and is left out of the output: the output is
    the one the deduplicator gives without that record, and every record of the
    output has a name. *)
Theorem nameless_record_dropped (l1 l2 : list t) (r : t) :
  Py.truthy (competitor_name r) = false ->
  _deduplicate_companies (l1 ++ r :: l2) = _deduplicate_companies (l1 ++ l2)
  /\ ~ In r (_deduplicate_companies (l1 ++ r :: l2))
  /\ (forall out, In out (_deduplicate_companies (l1 ++ r :: l2)) ->
        Py.truthy (competitor_name out) = true).
Proof.
  intros T. apply group_key_nameless in T.
  assert (NAMED : forall out, In out (_deduplicate_companies (l1 ++ r :: l2)) ->
                    Py.truthy (competitor_name out) = true).
  { intros out IN.
    destruct (deduplicated_have_names _ out IN) as [n [N [TN _]]].
    now rewrite N. }
  split; [|split; [|exact NAMED]].
  - rewrite !_deduplicate_companies_grouped.
    assert (KEYS : input_keys (l1 ++ r :: l2) = input_keys (l1 ++ l2)).
    { rewrite !input_keys_app. f_equal. unfold input_keys. simpl. now rewrite T. }
    rewrite KEYS. apply flat_map_ext. intros k. f_equal.
    rewrite !records_of_app. f_equal. unfold records_of. simpl.
    unfold has_key. now rewrite T.
  - intros IN. apply NAMED in IN. apply group_key_nameless in T. congruence.
Qed.

(** C4. Deduplication is idempotent: the deduplicator leaves its own output
    unchanged, record for record and in the same order. *)
Theorem _deduplicate_companies_idempotent (data : list t) :
  _deduplicate_companies (_deduplicate_companies data) = _deduplicate_companies data.
Proof.
  apply _deduplicate_companies_fixed with (first_appearances (input_keys data)).
  - apply deduplicated_keys.
  - apply first_appearances_NoDup.
Qed.

End Dedup.

Module DedupExamples.
Import ScrapedData Dedup.

Definition reviewer (name company job_title : option string) : ReviewerInfo.t :=
  ReviewerInfo.mk name job_title company None None None (Some ProjectInfo.default).

Definition alice : ReviewerInfo.t := reviewer (Some "Alice") (Some "Initech") (Some "CTO").
Definition bob : ReviewerInfo.t := reviewer (Some "Bob") None (Some "CEO").
Definition carol : ReviewerInfo.t := reviewer (Some "Carol") (Some "Globex") None.

(** The same triple as [alice], found on another page with more details. *)
Definition alice' : ReviewerInfo.t :=
  ReviewerInfo.mk (Some "Alice") (Some "CTO") (Some "Initech") (Some "Technology")
    None None (Some ProjectInfo.default).

Definition record (name : option string) (rs : list ReviewerInfo.t) : ScrapedData.t :=
  ScrapedData.init "2024-01-01T00:00:00" (Some "Web Developers")
    (Some (CompetitorInfo.mk name [])) (Some rs)
    (Some "https://clutch.co/profile/x") None.

Definition acme1 : ScrapedData.t := record (Some "Acme Inc") [alice; bob].
Definition acme2 : ScrapedData.t := record (Some "  ACME inc ") [carol; alice'; bob].
Definition globex : ScrapedData.t := record (Some "Globex") [].
Definition nameless : ScrapedData.t := record None [carol].

Definition sample : list ScrapedData.t := [acme1; globex; nameless; acme2].

Example sample_keys :
  map group_key sample = [Some "acme inc"; Some "globex"; None; Some "acme inc"].
Proof. reflexivity. Qed.

(** The larger record is the primary one; its reviewers are replaced by the
    merged list, in scan order. *)
Example sample_deduplicated :
  _deduplicate_companies sample
  = [set_reviewers acme2 [alice; bob; carol]; globex].
Proof. vm_compute. reflexivity. Qed.



Lemma nameless_record_dropped_witness :
  _deduplicate_companies [acme1; nameless; acme2]
  = _deduplicate_companies [acme1; acme2]
  /\ ~ In nameless (_deduplicate_companies [acme1; nameless; acme2]).
Proof.
  assert (T : Py.truthy (competitor_name nameless) = false) by reflexivity.
  destruct (nameless_record_dropped [acme1] [acme2] nameless T) as [E [NI _]].
  split; [exact E | exact NI].
Defined.

(** A record without a name does not pass through: it is missing from the output. *)
Lemma nameless_record_not_kept :
  competitor_name nameless = None
  /\ _deduplicate_companies [nameless] = []
  /\ _deduplicate_companies [globex; nameless] = [globex].
Proof. repeat split. Qed.

Example sample_idempotent :
  _deduplicate_companies (_deduplicate_companies sample) = _deduplicate_companies sample.
Proof. vm_compute. reflexivity. Qed.


End DedupExamples.

(* ================================================================= *)
(** ** Regular expressions, as Python's [re] module matches them

    A backtracking matcher in continuation-passing style: alternatives are
    tried left to right, repetition is greedy, and [search] returns the leftmost
    match. Repetition is over a character class, which is all the patterns of
    the sources need. *)

Module Re.

Inductive regex : Type :=
| Eps
| Chr (p : ascii -> bool)            (* one character of a class *)
| Seq (r1 r2 : regex)                (* r1 r2 *)
| Alt (r1 r2 : regex)                (* r1|r2 *)
| Opt (r : regex)                    (* r? *)
| Star (p : ascii -> bool)           (* "c*", c a character class *)
| Group (n : nat) (r : regex).       (* the n-th capturing group *)

Declare Scope regex_scope.
Delimit Scope regex_scope with re.
Bind Scope regex_scope with regex.
Infix ">>" := Seq (at level 61, right associativity) : regex_scope.

(** [c+] *)
Definition Plus (p : ascii -> bool) : regex := Seq (Chr p) (Star p).

(** A literal string. *)
Fixpoint Lit (s : string) : regex :=
  match s with
  | EmptyString => Eps
  | String c s' => Seq (Chr (Ascii.eqb c)) (Lit s')
  end.

(** [r{n}] *)
Fixpoint Rep (n : nat) (r : regex) : regex :=
  match n with
  | O => Eps
  | S n' => Seq r (Rep n' r)
  end.

(** The number of capturing groups of a pattern. *)
Fixpoint ngroups (r : regex) : nat :=
  match r with
  | Eps | Chr _ | Star _ => 0
  | Seq r1 r2 | Alt r1 r2 => ngroups r1 + ngroups r2
  | Opt r1 => ngroups r1
  | Group _ r1 => S (ngroups r1)
  end.

(** The groups that took part in a match, the latest capture first. *)
Definition captures : Type := list (nat * string).

Fixpoint lookup (n : nat) (c : captures) : option string :=
  match c with
  | [] => None
  | (n', w) :: c' => if Nat.eqb n n' then Some w else lookup n c'
  end.

Fixpoint take (n : nat) (s : string) : string :=
  match n, s with
  | S n', String a s' => String a (take n' s')
  | _, _ => EmptyString
  end.

(** What was consumed between the text [s] and its suffix [rest]. *)
Definition consumed (s rest : string) : string :=
  take (String.length s - String.length rest) s.

(** Greedy repetition of a class: the longest run first, then shorter ones. *)
Fixpoint star {R : Type} (p : ascii -> bool) (k : string -> option R) (s : string)
  : option R :=
  match s with
  | String a s' =>
      if p a then
        match star p k s' with
        | Some x => Some x
        | None => k s
        end
      else k s
  | EmptyString => k s
  end.

(** [run r k s c]: match [r] at the start of [s], then continue with [k] on the
    rest; [None] when every way of matching fails. *)
Fixpoint run {R : Type} (r : regex) (k : string -> captures -> option R)
    (s : string) (c : captures) : option R :=
  match r with
  | Eps => k s c
  | Chr p =>
      match s with
      | String a s' => if p a then k s' c else None
      | EmptyString => None
      end
  | Seq r1 r2 => run r1 (run r2 k) s c
  | Alt r1 r2 =>
      match run r1 k s c with
      | Some x => Some x
      | None => run r2 k s c
      end
  | Opt r1 =>
      match run r1 k s c with
      | Some x => Some x
      | None => k s c
      end
  | Star p => star p (fun s' => k s' c) s
  | Group n r1 => run r1 (fun s' c' => k s' ((n, consumed s s') :: c')) s c
  end.

(** A match at the start of [s]: the rest of the text and the captures. *)
Definition match_at (r : regex) (s : string) : option (string * captures) :=
  run r (fun rest c => Some (rest, c)) s [].

(** A match object. *)
Record match_obj : Type := mk_match {
  pos : nat;              (* [m.start()] *)
  whole : string;         (* [m.group(0)] *)
  caps : captures;
  groups_len : nat        (* [len(m.groups())] *)
}.

Fixpoint search_from (r : regex) (i : nat) (s : string) : option match_obj :=
  match match_at r s with
  | Some (rest, c) => Some (mk_match i (consumed s rest) c (ngroups r))
  | None =>
      match s with
      | EmptyString => None
      | String _ s' => search_from r (S i) s'
      end
  end.

(** [re.search(r, s)] *)
Definition search (r : regex) (s : string) : option match_obj :=
  search_from r 0 s.

(** [m.group(i)]: [IndexError] for a group the pattern does not have, [None]
    for a group that took no part in the match. *)
Definition group (m : match_obj) (i : nat) : Py.result (option string) :=
  match i with
  | O => Py.Ret (Some (whole m))
  | _ => if (i <=? groups_len m)%nat then Py.Ret (lookup i (caps m))
         else Py.Raise Py.IndexError
  end.

(** [re.sub(r, repl, s)] for a pattern [r] that matches no empty string:
    [skip] counts the characters of a match still to be passed over. *)
Fixpoint sub_from (r : regex) (repl : string) (skip : nat) (s : string) : string :=
  match s with
  | EmptyString => EmptyString
  | String a s' =>
      match skip with
      | S n => sub_from r repl n s'
      | O =>
          match match_at r s with
          | Some (rest, _) =>
              match String.length s - String.length rest with
              | S n => (repl ++ sub_from r repl n s')%string
              | O => String a (sub_from r repl 0 s')
              end
          | None => String a (sub_from r repl 0 s')
          end
      end
  end.

Definition sub (r : regex) (repl : string) (s : string) : string :=
  sub_from r repl 0 s.

(** [re.split(r, s)] for a pattern [r] without groups that matches no empty
    string; [piece] is the piece being read. *)
Fixpoint split_from (r : regex) (skip : nat) (piece : string) (s : string)
  : list string :=
  match s with
  | EmptyString => [piece]
  | String a s' =>
      match skip with
      | S n => split_from r n piece s'
      | O =>
          match match_at r s with
          | Some (rest, _) =>
              match String.length s - String.length rest with
              | S n => piece :: split_from r n EmptyString s'
              | O => split_from r 0 (piece ++ String a EmptyString)%string s'
              end
          | None => split_from r 0 (piece ++ String a EmptyString)%string s'
          end
      end
  end.

Definition split (r : regex) (s : string) : list string :=
  split_from r 0 EmptyString s.

(** *** Predicates on texts and patterns *)

Fixpoint all_of (p : ascii -> bool) (s : string) : bool :=
  match s with
  | EmptyString => true
  | String a s' => p a && all_of p s'
  end.

(** No character of the class starts [s]. *)
Definition stops (p : ascii -> bool) (s : string) : bool :=
  match s with
  | EmptyString => true
  | String a _ => negb (p a)
  end.

(** The character [ch] occurs in [s]. *)
Fixpoint occurs (ch : ascii) (s : string) : bool :=
  match s with
  | EmptyString => false
  | String a s' => Ascii.eqb a ch || occurs ch s'
  end.

(** Every match of the pattern contains the character [ch]. *)
Inductive requires (ch : ascii) : regex -> Prop :=
| requires_chr p : (forall a, p a = true -> a = ch) -> requires ch (Chr p)
| requires_seq_l r1 r2 : requires ch r1 -> requires ch (Seq r1 r2)
| requires_seq_r r1 r2 : requires ch r2 -> requires ch (Seq r1 r2)
| requires_alt r1 r2 : requires ch r1 -> requires ch r2 -> requires ch (Alt r1 r2)
| requires_group n r : requires ch r -> requires ch (Group n r).

(** *** Facts about the matcher *)

Lemma length_app (s t : string) :
  String.length (s ++ t) = String.length s + String.length t.
Proof. induction s as [|a s IH]; simpl; [reflexivity | now rewrite IH]. Qed.

Lemma take_app (s t : string) : take (String.length s) (s ++ t) = s.
Proof. induction s as [|a s IH]; simpl; [now destruct t | now rewrite IH]. Qed.

Lemma consumed_app (s t : string) : consumed (s ++ t) t = s.
Proof.
  unfold consumed. rewrite length_app.
  replace (String.length s + String.length t - String.length t)
    with (String.length s) by lia.
  apply take_app.
Qed.

Lemma occurs_app (ch : ascii) (s t : string) :
  occurs ch (s ++ t) = occurs ch s || occurs ch t.
Proof.
  induction s as [|a s IH]; simpl; [reflexivity|]. now rewrite IH, orb_assoc.
Qed.


(** The greedy repetition takes the whole run when the rest then matches. *)
Lemma star_greedy {R : Type} (p : ascii -> bool) (k : string -> option R)
    (run_ rest : string) (x : R) :
  all_of p run_ = true -> stops p rest = true -> k rest = Some x ->
  star p k (run_ ++ rest) = Some x.
Proof.
  intros A S K. induction run_ as [|a s IH]; simpl in *.
  - destruct rest as [|b rest]; simpl in *; [assumption|].
    apply negb_true_iff in S. now rewrite S.
  - apply andb_true_iff in A. destruct A as [PA A]. now rewrite PA, (IH A).
Qed.


(** The continuation of a successful repetition ran on a suffix of the text. *)
Lemma star_suffix {R : Type} (p : ascii -> bool) (k : string -> option R)
    (s : string) (x : R) :
  star p k s = Some x -> exists s1 s2, s = (s1 ++ s2)%string /\ k s2 = Some x.
Proof.
  induction s as [|a s IH]; simpl.
  - intros K. now exists EmptyString, EmptyString.
  - destruct (p a).
    + destruct (star p k s) as [y|] eqn:E.
      * intros Y. inversion Y; subst. destruct (IH eq_refl) as [s1 [s2 [-> K]]].
        now exists (String a s1), s2.
      * intros K. now exists EmptyString, (String a s).
    + intros K. now exists EmptyString, (String a s).
Qed.

Lemma run_suffix {R : Type} (r : regex) :
  forall (k : string -> captures -> option R) (s : string) (c : captures) (x : R),
    run r k s c = Some x ->
    exists s1 s2 c', s = (s1 ++ s2)%string /\ k s2 c' = Some x.
Proof.
  induction r as [|p|r1 IH1 r2 IH2|r1 IH1 r2 IH2|r1 IH1|p|n r1 IH1];
    intros k s c x; simpl.
  - intros K. now exists EmptyString, s, c.
  - destruct s as [|a s]; [discriminate|]. destruct (p a); [|discriminate].
    intros K. now exists (String a EmptyString), s, c.
  - intros H. apply IH1 in H. destruct H as [s1 [s2 [c1 [-> H]]]].
    apply IH2 in H. destruct H as [s3 [s4 [c2 [-> H]]]].
    exists (s1 ++ s3)%string, s4, c2. split; [|assumption].
    clear. induction s1 as [|a s1 IH]; simpl; [reflexivity | now rewrite IH].
  - destruct (run r1 k s c) as [y|] eqn:E.
    + intros Y. inversion Y; subst. now apply IH1 in E.
    + apply IH2.
  - destruct (run r1 k s c) as [y|] eqn:E.
    + intros Y. inversion Y; subst. now apply IH1 in E.
    + intros K. now exists EmptyString, s, c.
  - intros H. apply star_suffix in H. destruct H as [s1 [s2 [-> K]]].
    now exists s1, s2, c.
  - intros H. apply IH1 in H. destruct H as [s1 [s2 [c1 [-> K]]]].
    now exists s1, s2, ((n, consumed (s1 ++ s2) s2) :: c1).
Qed.

Lemma requires_occurs {R : Type} (ch : ascii) (r : regex) :
  requires ch r ->
  forall (k : string -> captures -> option R) (s : string) (c : captures) (x : R),
    run r k s c = Some x -> occurs ch s = true.
Proof.
  induction 1 as [p P|r1 r2 _ IH|r1 r2 _ IH|r1 r2 _ IH1 _ IH2|n r1 _ IH];
    intros k s c x; simpl.
  - destruct s as [|a s]; [discriminate|]. destruct (p a) eqn:PA; [|discriminate].
    intros _. simpl. apply P in PA. subst. now rewrite Ascii.eqb_refl.
  - apply IH.
  - intros H. apply run_suffix in H. destruct H as [s1 [s2 [c1 [-> H]]]].
    apply IH in H. rewrite occurs_app, H. apply orb_true_r.
  - destruct (run r1 k s c) as [y|] eqn:E.
    + intros _. now apply IH1 in E.
    + apply IH2.
  - apply IH.
Qed.

(** A text without a character the pattern requires has no match. *)
Lemma search_requires (ch : ascii) (r : regex) (s : string) :
  requires ch r -> occurs ch s = false -> search r s = None.
Proof.
  intros REQ. unfold search. generalize 0.
  induction s as [|a s IH]; intros i OCC; simpl.
  - destruct (match_at r EmptyString) as [[rest c]|] eqn:E; [|reflexivity].
    apply (requires_occurs ch r REQ) in E. discriminate.
  - destruct (match_at r (String a s)) as [[rest c]|] eqn:E.
    + apply (requires_occurs ch r REQ) in E. congruence.
    + apply IH. simpl in OCC. now apply orb_false_iff in OCC.
Qed.

Lemma requires_lit (ch : ascii) (s1 s2 : string) :
  requires ch (Lit (s1 ++ String ch s2)).
Proof.
  induction s1 as [|a s1 IH]; simpl.
  - apply requires_seq_l, requires_chr. intros a E. apply Ascii.eqb_eq in E. now subst.
  - now apply requires_seq_r.
Qed.

(** *** Rewriting a run step by step *)

Lemma run_seq {R : Type} (r1 r2 : regex) (k : string -> captures -> option R)
    (s : string) (c : captures) :
  run (Seq r1 r2) k s c = run r1 (run r2 k) s c.
Proof. reflexivity. Qed.


Lemma run_lit_app {R : Type} (w : string) (k : string -> captures -> option R)
    (s : string) (c : captures) :
  run (Lit w) k (w ++ s) c = k s c.
Proof.
  induction w as [|a w IH]; simpl; [reflexivity|]. now rewrite Ascii.eqb_refl.
Qed.

(** A group around [c+] captures the whole run of the class when the rest of
    the pattern then matches. *)
Lemma run_group_plus {R : Type} (p : ascii -> bool) (n : nat)
    (k : string -> captures -> option R) (w rest : string) (c : captures) (x : R) :
  w <> EmptyString -> all_of p w = true -> stops p rest = true ->
  k rest ((n, w) :: c) = Some x ->
  run (Group n (Plus p)) k (w ++ rest) c = Some x.
Proof.
  intros NE A S K. destruct w as [|a w]; [congruence|].
  simpl in A. apply andb_true_iff in A. destruct A as [PA A].
  cbn [run Plus]. simpl append. cbv iota beta. rewrite PA.
  apply star_greedy; try assumption.
  change (String a (w ++ rest)) with (String a w ++ rest)%string.
  now rewrite consumed_app.
Qed.

(** *** What a successful run says about the text *)

Lemma star_run_of_class {R : Type} (p : ascii -> bool) (k : string -> option R)
    (s : string) (x : R) :
  star p k s = Some x ->
  exists s1 s2, s = (s1 ++ s2)%string /\ all_of p s1 = true /\ k s2 = Some x.
Proof.
  induction s as [|a s IH]; simpl.
  - intros K. now exists EmptyString, EmptyString.
  - destruct (p a) eqn:PA.
    + destruct (star p k s) as [y|] eqn:E.
      * intros Y. inversion Y; subst.
        destruct (IH eq_refl) as [s1 [s2 [-> [A K]]]].
        exists (String a s1), s2. simpl. now rewrite PA, A.
      * intros K. now exists EmptyString, (String a s).
    + intros K. now exists EmptyString, (String a s).
Qed.

(** A group around [c+] captured a non-empty run of the class. *)
Lemma run_group_plus_inv {R : Type} (p : ascii -> bool) (n : nat)
    (k : string -> captures -> option R) (s : string) (c : captures) (x : R) :
  run (Group n (Plus p)) k s c = Some x ->
  exists w rest, s = (w ++ rest)%string /\ w <> EmptyString /\ all_of p w = true
                 /\ k rest ((n, w) :: c) = Some x.
Proof.
  cbn [run Plus]. destruct s as [|a s]; [discriminate|].
  destruct (p a) eqn:PA; [|discriminate].
  intros H. apply star_run_of_class in H. destruct H as [s1 [s2 [-> [A K]]]].
  exists (String a s1), s2. repeat split.
  - discriminate.
  - simpl. now rewrite PA, A.
  - change (String a (s1 ++ s2)) with (String a s1 ++ s2)%string in K.
    now rewrite consumed_app in K.
Qed.


(** *** Facts about [search] *)

Lemma search_from_unfold (r : regex) (i : nat) (s : string) :
  search_from r i s
  = match match_at r s with
    | Some (rest, c) => Some (mk_match i (consumed s rest) c (ngroups r))
    | None =>
        match s with
        | EmptyString => None
        | String _ s' => search_from r (S i) s'
        end
    end.
Proof. now destruct s. Qed.


(** A match object comes from a match of the pattern at some suffix of the text. *)
Lemma search_from_match_at (r : regex) (s : string) (i : nat) (m : match_obj) :
  search_from r i s = Some m ->
  exists s1 s2 rest, s = (s1 ++ s2)%string /\ match_at r s2 = Some (rest, caps m)
                     /\ whole m = consumed s2 rest /\ groups_len m = ngroups r.
Proof.
  revert i. induction s as [|a s IH]; intros i; rewrite search_from_unfold.
  - destruct (match_at r EmptyString) as [[rest c]|] eqn:E; [|discriminate].
    intros M. inversion M; subst. now exists EmptyString, EmptyString, rest.
  - destruct (match_at r (String a s)) as [[rest c]|] eqn:E.
    + intros M. inversion M; subst. now exists EmptyString, (String a s), rest.
    + intros M. apply IH in M. destruct M as [s1 [s2 [rest [-> M]]]].
      now exists (String a s1), s2, rest.
Qed.

Lemma search_groups_len (r : regex) (s : string) (m : match_obj) :
  search r s = Some m -> groups_len m = ngroups r.
Proof.
  intros M. apply search_from_match_at in M.
  now destruct M as [_ [_ [_ [_ [_ [_ L]]]]]].
Qed.

(** A group around the whole pattern takes part in every match. *)
Lemma search_group_captured (n : nat) (r : regex) (s : string) (m : match_obj) :
  search (Group n r) s = Some m -> exists w, lookup n (caps m) = Some w.
Proof.
  intros M. apply search_from_match_at in M.
  destruct M as [_ [s2 [rest [_ [M _]]]]].
  unfold match_at in M. simpl in M. apply run_suffix in M.
  destruct M as [s3 [s4 [c' [_ M]]]]. inversion M as [[E1 E2]].
  exists (consumed s2 rest). simpl. now rewrite Nat.eqb_refl.
Qed.

Lemma group_in_range (m : match_obj) (i : nat) :
  i <= groups_len m -> group m i = Py.Ret (match i with
                                          | O => Some (whole m)
                                          | _ => lookup i (caps m)
                                          end).
Proof.
  intros LE. unfold group. destruct i as [|i]; [reflexivity|].
  apply Nat.leb_le in LE. now rewrite LE.
Qed.

End Re.

(* ================================================================= *)
(** ** utils.py: [DataCleaner] *)

Module DataCleaner.
Import Py Re.
Local Open Scope regex_scope.

Definition is_alpha (c : ascii) : bool := in_range 65 90 c || in_range 97 122 c.
Definition is_digit_or_comma (c : ascii) : bool := isdigit c || Ascii.eqb c ",".

(** The pattern "\s+". *)
Definition whitespace_run : regex := Plus isspace.

(** The pattern of [extract_number_from_text], one group around "\d+\.?\d*". *)
Definition number_pattern : regex :=
  Group 1 (Plus isdigit >> Opt (Lit ".") >> Star isdigit).

(** The four patterns of [parse_employee_count], in the order of the list. *)
Definition employees_range : regex :=   (* "(\d+)\s*-\s*(\d+)\s*employees?" *)
  Group 1 (Plus isdigit) >> Star isspace >> Lit "-" >> Star isspace >>
  Group 2 (Plus isdigit) >> Star isspace >> Lit "employee" >> Opt (Lit "s").
Definition employees_plus : regex :=    (* "(\d+)\+?\s*employees?" *)
  Group 1 (Plus isdigit) >> Opt (Lit "+") >> Star isspace >>
  Lit "employee" >> Opt (Lit "s").
Definition people_range : regex :=      (* "(\d+)\s*-\s*(\d+)\s*people" *)
  Group 1 (Plus isdigit) >> Star isspace >> Lit "-" >> Star isspace >>
  Group 2 (Plus isdigit) >> Star isspace >> Lit "people".
Definition people_plus : regex :=       (* "(\d+)\+?\s*people" *)
  Group 1 (Plus isdigit) >> Opt (Lit "+") >> Star isspace >> Lit "people".

Definition employee_patterns : list regex :=
  [employees_range; employees_plus; people_range; people_plus].

(** The pattern "[A-Za-z]+ \d{4}". *)
Definition month_year : regex := Plus is_alpha >> Lit " " >> Rep 4 (Chr isdigit).

(** The pattern "([A-Za-z]+ \d{4})\s*[-–—]\s*([A-Za-z]+ \d{4})"; of the three
    dashes of the class only the hyphen is a character of the modelled range. *)
Definition date_pattern : regex :=
  Group 1 month_year >> Star isspace >> Lit "-" >> Star isspace >> Group 2 month_year.

(** The pattern "([A-Za-z]+ \d{4})". *)
Definition single_date_pattern : regex := Group 1 month_year.

(** The pattern "\$[\d,]+(?:\s*-\s*\$[\d,]+)?". *)
Definition money_pattern : regex :=
  Lit "$" >> Plus is_digit_or_comma >>
  Opt (Star isspace >> Lit "-" >> Star isspace >> Lit "$" >> Plus is_digit_or_comma).

(** How an f-string prints a group. *)
Definition fmt (o : option string) : string :=
  match o with
  | Some s => s
  | None => "None"
  end.

Definition clean_text (text : option string) : result (option string) :=
  match text with
  | Some (String a s) =>
      let cleaned := sub whitespace_run " " (strip (String a s)) in
      if truthy_str cleaned then Ret (Some cleaned) else Ret None
  | _ => Ret None
  end.

Section WithFloat.

(** [float(s)] of the Python runtime on a [str]: the number the literal denotes,
    or [None] when it raises [ValueError]. *)
Variable float_of_str : string -> option float.

(** [float(x)] for an [Optional[str]]: [float(None)] is a [TypeError]. *)
Definition py_float (x : option string) : result float :=
  match x with
  | Some s =>
      match float_of_str s with
      | Some f => Ret f
      | None => Raise ValueError
      end
  | None => Raise (OtherError "TypeError")
  end.

Definition extract_number_from_text (text : option string) : result (option float) :=
  match text with
  | Some (String a s) =>
      match search number_pattern (String a s) with
      | Some m =>
          try_except
            (bind (group m 1) (fun g => bind (py_float g) (fun f => Ret (Some f))))
            (fun e => match e with
                      | ValueError => Ret None
                      | _ => Raise e
                      end)
      | None => Ret None
      end
  | _ => Ret None
  end.

End WithFloat.

(** The loop [for pattern in patterns] of [parse_employee_count]; [None] when
    no pattern matches. *)
Fixpoint first_employee_match (patterns : list regex) (text : string)
  : option (result string) :=
  match patterns with
  | [] => None
  | pattern :: patterns' =>
      match search pattern text with
      | Some m =>
          Some (if Nat.eqb (groups_len m) 2
                then bind (group m 1) (fun g1 =>
                     bind (group m 2) (fun g2 =>
                     Ret (fmt g1 ++ "-" ++ fmt g2 ++ " employees")%string))
                else bind (group m 1) (fun g1 =>
                     Ret (fmt g1 ++ "+ employees")%string))
      | None => first_employee_match patterns' text
      end
  end.

Definition parse_employee_count (text : option string) : result (option string) :=
  match text with
  | Some (String a s) =>
      let text := strip (lower (String a s)) in
      match first_employee_match employee_patterns text with
      | Some r => bind r (fun v => Ret (Some v))
      | None => clean_text (Some text)
      end
  | _ => Ret None
  end.

Definition parse_date_range (text : option string)
  : result (option string * option string) :=
  match text with
  | Some (String a s) =>
      match search date_pattern (String a s) with
      | Some m =>
          bind (group m 1) (fun g1 => bind (group m 2) (fun g2 => Ret (g1, g2)))
      | None =>
          match search single_date_pattern (String a s) with
          | Some m => bind (group m 1) (fun g1 => Ret (g1, None))
          | None => Ret (None, None)
          end
      end
  | _ => Ret (None, None)
  end.

Definition parse_project_size (text : option string) : result (option string) :=
  match text with
  | Some (String a s) =>
      let text := strip (String a s) in
      match search money_pattern text with
      | Some m => group m 0
      | None => clean_text (Some text)
      end
  | _ => Ret None
  end.

(** *** Shapes of texts and of results *)




(** *** Texts in the shapes the employee patterns describe *)















(** *** [parse_employee_count] on the four shapes *)












(** *** Every match gives a canonical form *)








(** *** No operation of the cleaner raises *)

Lemma clean_text_returns (text : option string) : exists v, clean_text text = Ret v.
Proof.
  destruct text as [[|a s]|]; simpl; try (now eexists).
  destruct (truthy_str _); now eexists.
Qed.

Lemma extract_number_from_text_returns (float_of_str : string -> option float)
    (text : option string) :
  exists v, extract_number_from_text float_of_str text = Ret v.
Proof.
  destruct text as [[|a s]|]; try (now eexists). unfold extract_number_from_text.
  destruct (search number_pattern (String a s)) as [m|] eqn:E; [|now eexists].
  rewrite group_in_range
    by (rewrite (search_groups_len _ _ _ E); apply le_n).
  destruct (search_group_captured _ _ _ _ E) as [w W]. rewrite W. simpl.
  destruct (float_of_str w); now eexists.
Qed.

Lemma first_employee_match_returns (patterns : list regex) (text : string) :
  (forall pattern, In pattern patterns -> 1 <= ngroups pattern) ->
  match first_employee_match patterns text with
  | Some r => exists v, r = Ret v
  | None => True
  end.
Proof.
  induction patterns as [|p ps IH]; intros GE; cbn [first_employee_match]; [exact I|].
  destruct (search p text) as [m|] eqn:E.
  - assert (L := search_groups_len _ _ _ E).
    assert (G := GE p (or_introl eq_refl)).
    destruct (Nat.eqb_spec (groups_len m) 2) as [T|_].
    + rewrite !group_in_range by lia. now eexists.
    + rewrite !group_in_range by lia. now eexists.
  - apply IH. intros q IN. apply GE. now right.
Qed.

Lemma employee_patterns_groups (pattern : regex) :
  In pattern employee_patterns -> 1 <= ngroups pattern.
Proof.
  intros [<-|[<-|[<-|[<-|[]]]]]; vm_compute; repeat constructor.
Qed.

Lemma parse_employee_count_returns (text : option string) :
  exists v, parse_employee_count text = Ret v.
Proof.
  destruct text as [[|a s]|]; try (now eexists). unfold parse_employee_count.
  assert (R := first_employee_match_returns employee_patterns
                 (strip (lower (String a s))) employee_patterns_groups).
  destruct (first_employee_match _ _) as [r|].
  - destruct R as [v ->]. now eexists.
  - apply clean_text_returns.
Qed.

Lemma parse_date_range_returns (text : option string) :
  exists v, parse_date_range text = Ret v.
Proof.
  destruct text as [[|a s]|]; try (now eexists). unfold parse_date_range.
  destruct (search date_pattern _) as [m|] eqn:E.
  - assert (L := search_groups_len _ _ _ E). change (ngroups date_pattern) with 2 in L.
    rewrite !group_in_range by lia. now eexists.
  - destruct (search single_date_pattern _) as [m|] eqn:E'; [|now eexists].
    assert (L := search_groups_len _ _ _ E').
    change (ngroups single_date_pattern) with 1 in L.
    rewrite !group_in_range by lia. now eexists.
Qed.

Lemma parse_project_size_returns (text : option string) :
  exists v, parse_project_size text = Ret v.
Proof.
  destruct text as [[|a s]|]; try (now eexists). unfold parse_project_size.
  destruct (search money_pattern _) as [m|]; [now eexists|].
  apply clean_text_returns.
Qed.

(** C9. The operations of the cleaner never raise: whatever the text, absent,
    empty or malformed, each one returns a value; on an absent or empty text
    each returns the absent sentinel. *)
Theorem cleaner_never_raises (float_of_str : string -> option float)
    (text : option string) :
  (exists v, clean_text text = Ret v)
  /\ (exists v, extract_number_from_text float_of_str text = Ret v)
  /\ (exists v, parse_employee_count text = Ret v)
  /\ (exists v, parse_date_range text = Ret v)
  /\ (exists v, parse_project_size text = Ret v)
  /\ (truthy text = false ->
        clean_text text = Ret None
        /\ extract_number_from_text float_of_str text = Ret None
        /\ parse_employee_count text = Ret None
        /\ parse_date_range text = Ret (None, None)
        /\ parse_project_size text = Ret None).
Proof.
  split; [apply clean_text_returns|].
  split; [apply extract_number_from_text_returns|].
  split; [apply parse_employee_count_returns|].
  split; [apply parse_date_range_returns|].
  split; [apply parse_project_size_returns|].
  destruct text as [[|a s]|]; simpl; intros T; try discriminate; repeat split.
Qed.

End DataCleaner.

Module CleanerExamples.
Import Py DataCleaner.

(** A scripted [float]: it knows two literals. *)
Definition float_of_str (s : string) : option float :=
  if String.eqb s "4.8" then Some 4.8%float
  else if String.eqb s "5" then Some 5%float
  else None.

Example clean_text_ex :
  clean_text (Some "  Extra   whitespace  text  ") = Ret (Some "Extra whitespace text").
Proof. vm_compute. reflexivity. Qed.
Example employees_ex1 :
  parse_employee_count (Some "50-100 employees") = Ret (Some "50-100 employees").
Proof. vm_compute. reflexivity. Qed.
Example employees_ex2 :
  parse_employee_count (Some "200+ employees") = Ret (Some "200+ employees").
Proof. vm_compute. reflexivity. Qed.
Example employees_ex3 :
  parse_employee_count (Some "unclear text") = Ret (Some "unclear text").
Proof. vm_compute. reflexivity. Qed.
Example employees_ex4 :
  parse_employee_count (Some "About 10 - 49 People ") = Ret (Some "10-49 employees").
Proof. vm_compute. reflexivity. Qed.
Example employees_ex5 :
  parse_employee_count (Some "Unclear Text") = Ret (Some "unclear text").
Proof. vm_compute. reflexivity. Qed.
Example date_ex1 :
  parse_date_range (Some "Jan 2023 - Jun 2023") = Ret (Some "Jan 2023", Some "Jun 2023").
Proof. vm_compute. reflexivity. Qed.
Example date_ex2 :
  parse_date_range (Some "no dates here") = Ret (None, None).
Proof. vm_compute. reflexivity. Qed.
Example date_ex3 :
  parse_date_range (Some "since Mar 2021") = Ret (Some "Mar 2021", None).
Proof. vm_compute. reflexivity. Qed.
Example size_ex1 :
  parse_project_size (Some "$50,000 - $100,000") = Ret (Some "$50,000 - $100,000").
Proof. vm_compute. reflexivity. Qed.
Example size_ex2 :
  parse_project_size (Some " budget $75,000 or so") = Ret (Some "$75,000").
Proof. vm_compute. reflexivity. Qed.



Example employees_ex6 :
  parse_employee_count (Some "Team of 50 employees") = Ret (Some "50+ employees").
Proof. vm_compute. reflexivity. Qed.

Example number_ex1 :
  extract_number_from_text float_of_str (Some "4.8 out of 5 stars") = Ret (Some 4.8%float).
Proof. vm_compute. reflexivity. Qed.
Example number_ex2 :
  extract_number_from_text float_of_str (Some "no number") = Ret None.
Proof. vm_compute. reflexivity. Qed.

Lemma cleaner_never_raises_witness :
  clean_text (Some "") = Ret None
  /\ parse_date_range None = Ret (None, None)
  /\ exists v, parse_project_size (Some "$$ ,, - $") = Ret v.
Proof.
  split; [|split].
  - apply (proj2 (proj2 (proj2 (proj2 (proj2
             (cleaner_never_raises float_of_str (Some ""))))))). reflexivity.
  - apply (proj2 (proj2 (proj2 (proj2 (proj2
             (cleaner_never_raises float_of_str None)))))). reflexivity.
  - apply (cleaner_never_raises float_of_str (Some "$$ ,, - $")).
Defined.

End CleanerExamples.

(* ================================================================= *)
(** ** utils.py: the [retry] decorator *)

Module Retry.
Import Py.
Local Open Scope Z_scope.

(** [float(i)] for a Python [int]: the nearest float. *)
Definition float_of_int (i : Z) : float :=
  SF2Prim (binary_normalize prec emax i 0 false).

(** What an invocation of the wrapper does, in order. *)
Inductive event : Type :=
| Call (attempt : Z)          (* the call of [func] in iteration [attempt] *)
| Sleep (seconds : float).    (* a [time.sleep(seconds)] that returned *)

(** [range(n)] *)
Definition range (n : Z) : list Z := map Z.of_nat (seq 0 (Z.to_nat n)).

(** The duration in nanoseconds, as the runtime computes it, and the first
    count that no longer fits the 64-bit clock (2 to the power 63). *)
Definition nanoseconds (seconds : float) : float :=
  PrimFloat.mul seconds 1000000000%float.
Definition clock_limit : float := 9223372036854775808%float.

(** [time.sleep(seconds)] of the runtime as far as it can raise: [ValueError]
    for a NaN and for a negative duration, [OverflowError] for a duration that
    does not fit the clock, an infinite one included. [None]: the call
    returns after the sleep. *)
Definition time_sleep (seconds : float) : option exn :=
  if PrimFloat.is_nan seconds then Some ValueError
  else if PrimFloat.ltb (nanoseconds seconds) clock_limit
          && PrimFloat.leb (PrimFloat.opp clock_limit) (nanoseconds seconds)
  then if PrimFloat.ltb seconds 0%float then Some ValueError else None
  else Some (OtherError "OverflowError").

(** A function that behaves as scripted: its i-th call has the i-th outcome. *)
Definition scripted {A : Type} (outcomes : list (result A)) (attempt : Z) : result A :=
  nth (Z.to_nat attempt) outcomes (Raise (OtherError "script exhausted")).

Section Wrapper.

(** The type of the values [func] returns. *)
Variable A : Type.

Variable max_attempts : Z.
Variable delay : float.

(** The wrapped function during one invocation of the wrapper: what its call
    in iteration [attempt] does. *)
Variable func : Z -> result A.

(** [delay * (attempt + 1)] *)
Definition backoff (attempt : Z) : float :=
  PrimFloat.mul delay (float_of_int (attempt + 1)).

(** The statement [time.sleep(delay * (attempt + 1))]: [None] when it returns,
    else the exception it raises, which is [OverflowError] when [attempt + 1] is
    too large an [int] to be multiplied with a [float], and the exception of
    [time.sleep] otherwise. *)
Definition pause (attempt : Z) : option exn :=
  if PrimFloat.is_infinity (float_of_int (attempt + 1))
  then Some (OtherError "OverflowError")
  else time_sleep (backoff attempt).

(** The loop [for attempt in range(max_attempts)], with the events so far;
    falling out of the loop is [return None]. An exception of the sleep is
    raised in the handler, so it leaves the wrapper. *)
Fixpoint loop (attempts : list Z) (trace : list event)
  : result (option A) * list event :=
  match attempts with
  | [] => (Ret None, trace)
  | attempt :: attempts' =>
      match func attempt with
      | Ret a => (Ret (Some a), trace ++ [Call attempt])
      | Raise e =>
          if attempt =? max_attempts - 1
          then (Raise e, trace ++ [Call attempt])
          else
            match pause attempt with
            | None => loop attempts' (trace ++ [Call attempt; Sleep (backoff attempt)])
            | Some x => (Raise x, trace ++ [Call attempt])
            end
      end
  end.

Definition wrapper : result (option A) * list event :=
  loop (range max_attempts) [].


(** The sleeps of a trace, in order. *)
Fixpoint sleeps (trace : list event) : list float :=
  match trace with
  | [] => []
  | Sleep d :: trace' => d :: sleeps trace'
  | Call _ :: trace' => sleeps trace'
  end.




Lemma range_In (n i : Z) : In i (range n) <-> 0 <= i < n.
Proof.
  unfold range. rewrite in_map_iff. split.
  - intros [j [<- IN]]. apply in_seq in IN. lia.
  - intros R. exists (Z.to_nat i). split; [lia|]. apply in_seq. lia.
Qed.

Lemma range_split (n k : Z) :
  0 <= k < n -> exists rest, range n = range k ++ k :: rest.
Proof.
  intros R. unfold range.
  replace (Z.to_nat n) with (Z.to_nat k + S (Z.to_nat (n - k - 1)))%nat by lia.
  rewrite seq_app, map_app. simpl. rewrite Z2Nat.id by lia. now eexists.
Qed.



Lemma range_length (k : Z) : length (range k) = Z.to_nat k.
Proof. unfold range. now rewrite length_map, length_seq. Qed.


End Wrapper.

Arguments loop {A} max_attempts delay func attempts trace.
Arguments wrapper {A} max_attempts delay func.


End Retry.

Module RetryExamples.
Import Py Retry.
Local Open Scope Z_scope.

Definition timeout : exn := OtherError "timeout".

(** A fetch that fails twice, then succeeds. *)
Definition flaky : Z -> result string := scripted [Raise timeout; Raise timeout; Ret "page"].

(** A fetch that keeps failing. *)
Definition down : Z -> result string :=
  scripted [Raise timeout; Raise ValueError; Raise IndexError].

Example flaky_succeeds :
  wrapper 3 2%float flaky
  = (Ret (Some "page"), [Call 0; Sleep 2%float; Call 1; Sleep 4%float; Call 2]).
Proof. vm_compute. reflexivity. Qed.

Example down_propagates :
  wrapper 3 2%float down
  = (Raise IndexError, [Call 0; Sleep 2%float; Call 1; Sleep 4%float; Call 2]).
Proof. vm_compute. reflexivity. Qed.

Example single_attempt : wrapper 1 2%float down = (Raise timeout, [Call 0]).
Proof. vm_compute. reflexivity. Qed.

(** With no attempt allowed the function is not called at all. *)
Example no_attempt : wrapper 0 2%float flaky = (Ret None, []).
Proof. vm_compute. reflexivity. Qed.

(** A negative delay: the first sleep raises and nothing is retried. *)
Example negative_delay :
  wrapper 3 (-1)%float flaky = (Raise ValueError, [Call 0])
  /\ wrapper 3 infinity down = (Raise (OtherError "OverflowError"), [Call 0])
  /\ wrapper 1 (-1)%float flaky = (Raise timeout, [Call 0]).
Proof. repeat split; vm_compute; reflexivity. Qed.



End RetryExamples.

(* ================================================================= *)
(** ** scraper.py: review extraction *)

Module Reviews.
Import Py.

(** [self.max_reviews_per_company], set by the constructor. *)
Definition max_reviews_per_company : nat := 10.

Definition is_tab (c : ascii) : bool := (code c =? 9)%N.

(** [ClutchScraper._clean_text]: never [None], the empty string instead. *)
Definition _clean_text (text : string) : string :=
  match text with
  | EmptyString => EmptyString
  | _ =>
      let cleaned := Re.sub (Re.Plus isspace) " " text in
      let cleaned := Re.sub (Re.Plus is_tab) " " cleaned in
      strip cleaned
  end.

Definition set_project (reviewer : ReviewerInfo.t) (project : ProjectInfo.t)
  : ReviewerInfo.t :=
  ReviewerInfo.mk (ReviewerInfo.name reviewer) (ReviewerInfo.job_title reviewer)
    (ReviewerInfo.company reviewer) (ReviewerInfo.industry reviewer)
    (ReviewerInfo.location reviewer) (ReviewerInfo.company_size reviewer)
    (Some project).

(** The test that decides whether a review is returned:
    [reviewer.name or reviewer.company or project.service_provided or project.score]. *)
Definition retained (reviewer : ReviewerInfo.t) (project : ProjectInfo.t) : bool :=
  truthy (ReviewerInfo.name reviewer)
  || truthy (ReviewerInfo.company reviewer)
  || truthy (ProjectInfo.service_provided project)
  || truthy_float (ProjectInfo.score project).

(** A text field holds a non-empty string. *)
Definition populated (o : option string) : Prop :=
  exists s, o = Some s /\ s <> EmptyString.

(** At least one of name, company, service_provided and score is populated. *)
Definition has_content (reviewer : ReviewerInfo.t) : Prop :=
  populated (ReviewerInfo.name reviewer)
  \/ populated (ReviewerInfo.company reviewer)
  \/ (exists project, ReviewerInfo.project reviewer = Some project /\
        (populated (ProjectInfo.service_provided project)
         \/ exists score, ProjectInfo.score project = Some score)).

(** None of the four fields holds anything. *)
Definition all_empty (reviewer : ReviewerInfo.t) (project : ProjectInfo.t) : Prop :=
  truthy (ReviewerInfo.name reviewer) = false
  /\ truthy (ReviewerInfo.company reviewer) = false
  /\ truthy (ProjectInfo.service_provided project) = false
  /\ ProjectInfo.score project = None.

Section Page.

(** An element of the parsed page ([bs4.Tag]) and its truth value. *)
Variable Tag : Type.
Variable truthy_tag : Tag -> bool.

(** [element.get_text()] *)
Variable get_text : Tag -> string.

(** The blocks of [_extract_single_clutch_review] that read the page. Each takes
    the project under construction and gives it back with the fields it found;
    the first two can raise. The third one, and [_parse_reviewer_info], run under
    a handler of their own and give back the state they reached. *)
Variable read_data : Tag -> ProjectInfo.t -> result ProjectInfo.t.
Variable read_content : Tag -> ProjectInfo.t -> result ProjectInfo.t.
Variable read_rating : Tag -> ProjectInfo.t -> ProjectInfo.t.
Variable _parse_reviewer_info : ReviewerInfo.t -> string -> Tag -> ReviewerInfo.t.

(** The body of the function up to [reviewer.project = project]: the reviewer
    and the project as extracted. *)
Definition extracted (data_elem content_elem reviewer_elem : Tag)
    (rating_elem : option Tag) : result (ReviewerInfo.t * ProjectInfo.t) :=
  let reviewer := ReviewerInfo.default in
  let project := ProjectInfo.default in
  bind (if truthy_tag data_elem then read_data data_elem project else Ret project)
    (fun project =>
  bind (if truthy_tag content_elem then read_content content_elem project
        else Ret project)
    (fun project =>
  let project :=
    match rating_elem with
    | Some rating => if truthy_tag rating then read_rating rating project else project
    | None => project
    end in
  let reviewer :=
    if truthy_tag reviewer_elem
    then _parse_reviewer_info reviewer (_clean_text (get_text reviewer_elem))
           reviewer_elem
    else reviewer in
  Ret (reviewer, project))).

Definition _extract_single_clutch_review (data_elem content_elem reviewer_elem : Tag)
    (rating_elem : option Tag) : option ReviewerInfo.t :=
  match extracted data_elem content_elem reviewer_elem rating_elem with
  | Ret (reviewer, project) =>
      if retained reviewer project then Some (set_project reviewer project)
      else None
  | Raise _ => None
  end.

(** One iteration of the loop of [_extract_reviews]: the review it appends, if
    any. An index out of range raises [IndexError], which the loop logs. *)
Definition review_at (review_data_elements review_content_elements
    review_reviewer_elements review_rating_elements : list Tag) (i : nat)
  : option ReviewerInfo.t :=
  match nth_error review_data_elements i, nth_error review_content_elements i,
        nth_error review_reviewer_elements i with
  | Some data_elem, Some content_elem, Some reviewer_elem =>
      _extract_single_clutch_review data_elem content_elem reviewer_elem
        (nth_error review_rating_elements i)
  | _, _, _ => None
  end.

(** [_extract_reviews], from the four lists of elements selected on the page. *)
Definition _extract_reviews (review_data_elements review_content_elements
    review_reviewer_elements review_rating_elements : list Tag)
  : list ReviewerInfo.t :=
  let num_reviews :=
    Nat.min (length review_data_elements)
      (Nat.min (length review_content_elements) (length review_reviewer_elements)) in
  let num_reviews := Nat.min num_reviews max_reviews_per_company in
  flat_map
    (fun i =>
       match review_at review_data_elements review_content_elements
               review_reviewer_elements review_rating_elements i with
       | Some reviewer => [reviewer]
       | None => []
       end)
    (seq 0 num_reviews).

Lemma truthy_populated (o : option string) : truthy o = true -> populated o.
Proof.
  destruct o as [[|a s]|]; simpl; try discriminate.
  intros _. exists (String a s). split; [reflexivity | discriminate].
Qed.

Lemma truthy_float_some (o : option float) :
  truthy_float o = true -> exists f, o = Some f.
Proof. destruct o as [f|]; simpl; [now exists f | discriminate]. Qed.

Lemma retained_has_content (reviewer : ReviewerInfo.t) (project : ProjectInfo.t) :
  retained reviewer project = true -> has_content (set_project reviewer project).
Proof.
  unfold retained, has_content. rewrite !orb_true_iff. simpl.
  intros [[[N|C]|S]|F].
  - left. now apply truthy_populated.
  - right. left. now apply truthy_populated.
  - right. right. exists project. split; [reflexivity|]. left.
    now apply truthy_populated.
  - right. right. exists project. split; [reflexivity|]. right.
    now apply truthy_float_some.
Qed.

Lemma all_empty_not_retained (reviewer : ReviewerInfo.t) (project : ProjectInfo.t) :
  all_empty reviewer project -> retained reviewer project = false.
Proof.
  intros [N [C [S F]]]. unfold retained. now rewrite N, C, S, F.
Qed.

Lemma _extract_single_clutch_review_has_content
    (data_elem content_elem reviewer_elem : Tag) (rating_elem : option Tag)
    (reviewer : ReviewerInfo.t) :
  _extract_single_clutch_review data_elem content_elem reviewer_elem rating_elem
  = Some reviewer ->
  has_content reviewer.
Proof.
  unfold _extract_single_clutch_review.
  destruct (extracted _ _ _ _) as [[r p]|e]; [|discriminate].
  destruct (retained r p) eqn:K; [|discriminate].
  intros E. inversion E. now apply retained_has_content.
Qed.

(** C6. A review is returned only with at least one of reviewer name, reviewer
    company, project service_provided and project score populated; when the four
    extracted fields are all empty the single-review extractor returns no
    result; and every reviewer in the list of extracted reviews has at least one
    of the four fields populated. *)
Theorem retained_reviews_have_content
    (review_data_elements review_content_elements review_reviewer_elements
     review_rating_elements : list Tag) :
  (forall data_elem content_elem reviewer_elem rating_elem reviewer,
     _extract_single_clutch_review data_elem content_elem reviewer_elem rating_elem
     = Some reviewer ->
     has_content reviewer)
  /\ (forall data_elem content_elem reviewer_elem rating_elem reviewer project,
     extracted data_elem content_elem reviewer_elem rating_elem
     = Ret (reviewer, project) ->
     all_empty reviewer project ->
     _extract_single_clutch_review data_elem content_elem reviewer_elem rating_elem
     = None)
  /\ (forall reviewer,
     In reviewer (_extract_reviews review_data_elements review_content_elements
                    review_reviewer_elements review_rating_elements) ->
     has_content reviewer).
Proof.
  split; [|split].
  - apply _extract_single_clutch_review_has_content.
  - intros d c r rt reviewer project E EMPTY.
    unfold _extract_single_clutch_review. rewrite E.
    now rewrite (all_empty_not_retained reviewer project EMPTY).
  - intros reviewer IN. unfold _extract_reviews in IN.
    apply in_flat_map in IN. destruct IN as [i [_ IN]].
    unfold review_at in IN.
    destruct (nth_error review_data_elements i) as [d|]; [|contradiction].
    destruct (nth_error review_content_elements i) as [c|]; [|contradiction].
    destruct (nth_error review_reviewer_elements i) as [r|]; [|contradiction].
    destruct (_extract_single_clutch_review d c r (nth_error review_rating_elements i))
      as [rv|] eqn:E; [|contradiction].
    destruct IN as [<-|[]].
    now apply _extract_single_clutch_review_has_content in E.
Qed.

End Page.

End Reviews.

Module ReviewsExamples.
Import Py Reviews.

(** A page whose elements are their own text. *)
Definition read_service (text : string) (project : ProjectInfo.t)
  : result ProjectInfo.t :=
  match text with
  | EmptyString => Ret project
  | "broken" => Raise (OtherError "AttributeError")
  | _ =>
      Ret (ProjectInfo.mk (Some text) None None None None None None None None)
  end.

Definition read_nothing (text : string) (project : ProjectInfo.t) : result ProjectInfo.t :=
  Ret project.

Definition read_name (reviewer : ReviewerInfo.t) (text : string) (elem : string)
  : ReviewerInfo.t :=
  ReviewerInfo.mk (Some text) None None None None None None.

Definition extract (data content reviewer rating : list string) : list ReviewerInfo.t :=
  _extract_reviews string (fun _ => true) (fun text => text)
    read_service read_nothing (fun _ project => project) read_name
    data content reviewer rating.

Example two_of_four_kept :
  map ReviewerInfo.name
    (extract ["Web Development"; ""; "broken"; ""] [""; ""; ""; ""]
       ["  Ann   Lee "; ""; "Bob"; "Cy"] [])
  = [Some "Ann Lee"; Some "Cy"].
Proof. vm_compute. reflexivity. Qed.

Lemma retained_reviews_have_content_witness :
  has_content
    (ReviewerInfo.mk (Some "") None None None None None
       (Some (ProjectInfo.mk (Some "Web Development") None None None None
                None None None None))).
Proof.
  apply (proj2 (proj2 (retained_reviews_have_content string (fun _ => true)
                         (fun text => text) read_service read_nothing
                         (fun _ project => project) read_name
                         ["Web Development"] [""] [""] []))).
  vm_compute. left. reflexivity.
Defined.

End ReviewsExamples.

(* ================================================================= *)
(** ** scraper.py: basic info of a listing element, and the loop over a page *)

Module BasicInfo.
Import Py Re.
Local Open Scope regex_scope.

(** The dict [company_info]: a field is [None] while the dict lacks the key. *)
Record company_info : Type := mk_info {
  name : option (option string);
  url : option string;
  locations : option (list (option string))
}.

Definition empty_info : company_info := mk_info None None None.

(** [company_info.get('name')] *)
Definition get_name (info : company_info) : option string :=
  match name info with
  | Some v => v
  | None => None
  end.

(** [company_info.get('url')] *)
Definition get_url (info : company_info) : option string := url info.

(** [company_info.get('locations', [])] *)
Definition get_locations (info : company_info) : list (option string) :=
  match locations info with
  | Some l => l
  | None => []
  end.

(** Truthiness of the dict: it has a key. *)
Definition truthy_info (info : company_info) : bool :=
  match name info, url info, locations info with
  | None, None, None => false
  | _, _, _ => true
  end.

Definition is_upper (c : ascii) : bool := in_range 65 90 c.
Definition is_lower (c : ascii) : bool := in_range 97 122 c.

(** The patterns of [_extract_location_text]: "[A-Z][a-z]+,\s*[A-Z]{2}",
    "[A-Z][a-z]+,\s*[A-Z][a-z]+", and "[A-Z][a-z]+,\s*[A-Z]" for the text nodes. *)
Definition city_state : regex :=
  Chr is_upper >> Plus is_lower >> Lit "," >> Star isspace >> Rep 2 (Chr is_upper).
Definition city_country : regex :=
  Chr is_upper >> Plus is_lower >> Lit "," >> Star isspace >>
  Chr is_upper >> Plus is_lower.
Definition city_comma : regex :=
  Chr is_upper >> Plus is_lower >> Lit "," >> Star isspace >> Chr is_upper.

Definition location_patterns : list regex := [city_state; city_country].

(** The separators of [_parse_locations]: "[;|]|\sand\s". *)
Definition location_separator : regex :=
  Alt (Chr (fun c => Ascii.eqb c ";" || Ascii.eqb c "|"))
      (Chr isspace >> Lit "and" >> Chr isspace).

(** The double quote character. *)
Definition quote : string := String "034"%char EmptyString.

Definition name_selectors : list string :=
  ["h2 a"; "h3 a"; "h4 a"; ".company-name a"; ".provider-name a";
   ("a[href*=" ++ quote ++ "/profile/" ++ quote ++ "]")%string].

Definition site_root : string := "https://clutch.co".

(** [[f(x) for x in l]] with an [f] that can raise. *)
Fixpoint map_result {A B : Type} (f : A -> result B) (l : list A) : result (list B) :=
  match l with
  | [] => Ret []
  | x :: l' => bind (f x) (fun y => bind (map_result f l') (fun ys => Ret (y :: ys)))
  end.

Definition _parse_locations (location_text : string) : result (list (option string)) :=
  match location_text with
  | EmptyString => Ret []
  | _ =>
      map_result (fun loc => DataCleaner.clean_text (Some loc))
        (filter (fun loc => truthy_str (strip loc))
           (split location_separator location_text))
  end.

Section Page.

(** The page library: an element ([bs4.Tag]), its truth value,
    [element.select_one(selector)], [element.get_text()], [element.get(key)] and
    [element.find(string=pattern)], the first text node the pattern is found in. *)
Variable Tag : Type.
Variable truthy_tag : Tag -> bool.
Variable select_one : Tag -> string -> option Tag.
Variable get_text : Tag -> string.
Variable get : Tag -> string -> option string.
Variable find_string : Tag -> regex -> option string.

(** [urllib.parse.urljoin(base, url)]; it raises on a malformed address. *)
Variable urljoin : string -> string -> result string.

(** What is known of [urljoin]: an empty reference gives the base, and joining
    to the site root never gives an empty address. *)
Hypothesis urljoin_empty : forall base, urljoin base EmptyString = Ret base.
Hypothesis urljoin_root :
  forall url joined, urljoin site_root url = Ret joined -> joined <> EmptyString.

(** The decorated [scrape_company_details(company_url, subcategory_name)]. *)
Variable scrape_company_details : string -> string -> result (list ScrapedData.t).

(** [datetime.now().isoformat()] when a record is built. *)
Variable now : string.

Variable max_companies_per_page : Z.

Definition truthy_element (e : option Tag) : bool :=
  match e with
  | Some t => truthy_tag t
  | None => false
  end.

(** The loop over [name_selectors], which stops at the first element found. *)
Fixpoint select_name_element (element : Tag) (selectors : list string)
    (name_element : option Tag) : option Tag :=
  match selectors with
  | [] => name_element
  | selector :: selectors' =>
      let name_element := select_one element selector in
      if truthy_element name_element then name_element
      else select_name_element element selectors' name_element
  end.

(** The loop over [location_patterns]. *)
Fixpoint first_location (patterns : list regex) (text : string) : option match_obj :=
  match patterns with
  | [] => None
  | pattern :: patterns' =>
      match search pattern text with
      | Some m => Some m
      | None => first_location patterns' text
      end
  end.

Definition _extract_location_text (element : Tag) : option string :=
  match first_location location_patterns (get_text element) with
  | Some m => Some (whole m)
  | None =>
      match find_string element city_comma with
      | Some (String a t) => Some (strip (String a t))
      | _ => None
      end
  end.

(** [name_element.get('href', '')] *)
Definition href (name_element : Tag) : string :=
  match get name_element "href" with
  | Some h => h
  | None => EmptyString
  end.

(** The body of the [try] of [_extract_company_basic_info], up to the [return]. *)
Definition collect_info (element : Tag) : result company_info :=
  let name_element := select_name_element element name_selectors None in
  bind
    (match name_element with
     | Some e =>
         if truthy_tag e then
           bind (DataCleaner.clean_text (Some (get_text e))) (fun n =>
           bind (urljoin site_root (href e)) (fun u =>
           Ret (mk_info (Some n) (Some u) None)))
         else Ret empty_info
     | None => Ret empty_info
     end)
    (fun info =>
       match _extract_location_text element with
       | Some (String a t) =>
           bind (_parse_locations (String a t)) (fun ls =>
           Ret (mk_info (name info) (url info) (Some ls)))
       | _ => Ret info
       end).

Definition _extract_company_basic_info (element : Tag) : option company_info :=
  match collect_info element with
  | Ret info => if truthy (get_name info) then Some info else None
  | Raise _ => None
  end.

(** [l[:n]] *)
Definition slice_to {A : Type} (n : Z) (l : list A) : list A :=
  if (n <? 0)%Z then firstn (length l - Z.to_nat (- n)) l
  else firstn (Z.to_nat n) l.

(** The record built from the listing page alone. *)
Definition basic_record (info : company_info) (subcategory_name page_url : string)
  : ScrapedData.t :=
  ScrapedData.init now (Some subcategory_name)
    (Some (CompetitorInfo.mk (get_name info)
             (flat_map (fun loc => match loc with Some l => [l] | None => [] end)
                (get_locations info))))
    None (Some page_url) None.

(** Which branch of the loop of [extract_companies_from_page] an element takes. *)
Inductive branch : Type :=
| Skipped                       (* no info, or an exception: [continue] *)
| Detailed (company_url : string)
| Minimal.

Definition branch_of (element : Tag) : branch :=
  match _extract_company_basic_info element with
  | Some info =>
      if truthy_info info then
        match get_url info with
        | Some (String a u) => Detailed (String a u)
        | _ => Minimal
        end
      else Skipped
  | None => Skipped
  end.

(** What one iteration of the loop adds to [companies_data]. *)
Definition process_element (subcategory_name page_url : string) (element : Tag)
  : list ScrapedData.t :=
  match _extract_company_basic_info element with
  | Some info =>
      if truthy_info info then
        match get_url info with
        | Some (String a u) =>
            match scrape_company_details (String a u) subcategory_name with
            | Ret detailed_data => detailed_data
            | Raise _ => []
            end
        | _ => [basic_record info subcategory_name page_url]
        end
      else []
  | None => []
  end.

(** [extract_companies_from_page], from the elements [_find_company_elements]
    found on the page. *)
Definition extract_companies_from_page (company_elements : list Tag)
    (subcategory_name page_url : string) : list ScrapedData.t :=
  flat_map (process_element subcategory_name page_url)
    (slice_to max_companies_per_page company_elements).

(** What the loop does with an element that has basic info: it asks for the
    details of the company at the address of the info. *)
Definition detailed_records (subcategory_name : string) (info : company_info)
  : list ScrapedData.t :=
  match scrape_company_details (or_empty (get_url info)) subcategory_name with
  | Ret detailed_data => detailed_data
  | Raise _ => []
  end.

Lemma collect_info_fields (element : Tag) (info : company_info) :
  collect_info element = Ret info ->
  (exists e n u,
     select_name_element element name_selectors None = Some e
     /\ truthy_tag e = true
     /\ DataCleaner.clean_text (Some (get_text e)) = Ret n
     /\ urljoin site_root (href e) = Ret u
     /\ name info = Some n /\ url info = Some u)
  \/ (name info = None /\ url info = None).
Proof.
  unfold collect_info.
  set (with_locations := fun info0 : company_info => _).
  assert (KEEP : forall info0, with_locations info0 = Ret info ->
                   name info = name info0 /\ url info = url info0).
  { intros info0. unfold with_locations.
    destruct (_extract_location_text element) as [[|a t]|].
    - intros H. inversion H. now split.
    - destruct (_parse_locations (String a t)); [|discriminate].
      intros H. inversion H. now split.
    - intros H. inversion H. now split. }
  clearbody with_locations.
  destruct (select_name_element element name_selectors None) as [e|].
  - destruct (truthy_tag e) eqn:T.
    + destruct (DataCleaner.clean_text (Some (get_text e))) as [n|x] eqn:C;
        [|discriminate].
      destruct (urljoin site_root (href e)) as [u|x] eqn:U; [|discriminate].
      cbn [bind]. intros H. apply KEEP in H. destruct H as [N UR]. left.
      exists e, n, u. repeat split; auto.
    + cbn [bind]. intros H. apply KEEP in H. right. exact H.
  - cbn [bind]. intros H. apply KEEP in H. right. exact H.
Qed.

(** C10. Every basic info that is returned carries a non-empty company name and
    a URL: the name element was found, and the URL is what [urljoin] gives for
    the site root and the [href] attribute of that element, or for the site root
    and the empty string when the element has no [href], which is the bare root.
    The URL is not empty, so in the loop over the page such an element always
    takes the branch that scrapes the company details, never the one that builds
    a minimal record. *)
Theorem basic_info_has_name_and_url (element : Tag) (info : company_info) :
  _extract_company_basic_info element = Some info ->
  (exists n, get_name info = Some n /\ n <> EmptyString)
  /\ (exists e u,
        select_name_element element name_selectors None = Some e
        /\ urljoin site_root (href e) = Ret u
        /\ get_url info = Some u /\ u <> EmptyString
        /\ (get e "href" = None -> u = site_root)
        /\ (forall h, get e "href" = Some h -> urljoin site_root h = Ret u))
  /\ (exists u, branch_of element = Detailed u /\ get_url info = Some u)
  /\ (forall subcategory_name page_url,
        process_element subcategory_name page_url element
        = detailed_records subcategory_name info).
Proof.
  intros E. assert (E' := E). unfold _extract_company_basic_info in E.
  destruct (collect_info element) as [info'|x] eqn:C; [|discriminate].
  destruct (truthy (get_name info')) eqn:T; [|discriminate].
  inversion E; subst info'. clear E.
  destruct (collect_info_fields element info C)
    as [[e [n [u [SEL [TT [CL [U [N UR]]]]]]]]|[N _]].
  2:{ unfold get_name in T. rewrite N in T. discriminate. }
  assert (NE : u <> EmptyString) by (now apply urljoin_root with (href e)).
  assert (TI : truthy_info info = true) by (unfold truthy_info; now rewrite N).
  split; [|split; [|split]].
  - unfold get_name in *. rewrite N in *. destruct n as [[|a s]|]; try discriminate.
    exists (String a s). split; [reflexivity | discriminate].
  - exists e, u. repeat split; auto.
    + intros H. unfold href in U. rewrite H, urljoin_empty in U. now inversion U.
    + intros h H. unfold href in U. now rewrite H in U.
  - exists u. unfold branch_of. rewrite E', TI. unfold get_url. rewrite UR.
    destruct u; [congruence | now split].
  - intros sub page. unfold process_element, detailed_records.
    rewrite E', TI. unfold get_url. rewrite UR.
    destruct u; [congruence | reflexivity].
Qed.

End Page.

End BasicInfo.

Module BasicInfoExamples.
Import Py BasicInfo.

(** A listing card as far as the extractor looks at it: the selector under which
    its link is found, the link, and the text of the card. *)
Record card : Type := mk_card {
  link_selector : string;
  link_text : string;
  link_href : option string;
  card_text : string
}.

Definition select_one (element : card) (selector : string) : option card :=
  if String.eqb selector (link_selector element)
  then Some (mk_card "" (link_text element) (link_href element) (link_text element))
  else None.

Definition get (element : card) (key : string) : option string :=
  if String.eqb key "href" then link_href element else None.

(** Enough of [urljoin] for addresses on the site. *)
Definition urljoin (base url : string) : result string :=
  match url with
  | EmptyString => Ret base
  | String "/" _ => Ret (base ++ url)%string
  | _ => Ret url
  end.

Definition scrape_company_details (company_url subcategory_name : string)
  : result (list ScrapedData.t) :=
  Ret [ScrapedData.init "2024-01-01T00:00:00" (Some subcategory_name)
         (Some (CompetitorInfo.mk (Some "from the profile page") [])) None
         (Some company_url) None].

Definition basic_info : card -> option company_info :=
  _extract_company_basic_info card (fun _ => true) select_one card_text get
    (fun _ _ => None) urljoin.

Definition acme : card :=
  mk_card "h3 a" "  Acme   Inc " (Some "/profile/acme")
    "Acme Inc Austin, TX and Paris, France 50 employees".

Definition no_href : card := mk_card "h2 a" "Globex" None "Globex".
Definition no_link : card := mk_card "" "" None "Just a banner".

Example acme_info :
  basic_info acme
  = Some (mk_info (Some (Some "Acme Inc")) (Some "https://clutch.co/profile/acme")
            (Some [Some "Austin, TX"])).
Proof. vm_compute. reflexivity. Qed.

Example no_href_info :
  basic_info no_href = Some (mk_info (Some (Some "Globex")) (Some "https://clutch.co") None).
Proof. vm_compute. reflexivity. Qed.

Example no_link_info : basic_info no_link = None.
Proof. vm_compute. reflexivity. Qed.

Example parse_locations_ex :
  _parse_locations "Austin, TX; Paris | Rome and Oslo"
  = Ret [Some "Austin, TX"; Some "Paris"; Some "Rome"; Some "Oslo"].
Proof. vm_compute. reflexivity. Qed.

Lemma urljoin_empty (base : string) : urljoin base EmptyString = Ret base.
Proof. reflexivity. Defined.

Lemma urljoin_root (url joined : string) :
  urljoin site_root url = Ret joined -> joined <> EmptyString.
Proof.
  destruct url as [|a url]; simpl.
  - intros H. inversion H. discriminate.
  - destruct (Ascii.eqb_spec a "/") as [->|NE].
    + intros H. inversion H. discriminate.
    + destruct a as [[] [] [] [] [] [] [] []]; intros H; inversion H; discriminate.
Defined.

Lemma basic_info_has_name_and_url_witness :
  (exists u,
     branch_of card (fun _ => true) select_one card_text get (fun _ _ => None) urljoin
       no_href = Detailed u
     /\ get_url (mk_info (Some (Some "Globex")) (Some "https://clutch.co") None) = Some u)
  /\ (exists e,
        get e "href" = Some "/profile/acme"
        /\ urljoin site_root "/profile/acme" = Ret "https://clutch.co/profile/acme"
        /\ basic_info acme
           = Some (mk_info (Some (Some "Acme Inc"))
                     (Some "https://clutch.co/profile/acme")
                     (Some [Some "Austin, TX"]))).
Proof.
  split.
  - exact (proj1 (proj2 (proj2
      (basic_info_has_name_and_url card (fun _ => true) select_one card_text get
         (fun _ _ => None) urljoin urljoin_empty urljoin_root
         scrape_company_details "2024-01-01T00:00:00" no_href
         (mk_info (Some (Some "Globex")) (Some "https://clutch.co") None)
         eq_refl)))).
  - destruct (proj1 (proj2
      (basic_info_has_name_and_url card (fun _ => true) select_one card_text get
         (fun _ _ => None) urljoin urljoin_empty urljoin_root
         scrape_company_details "2024-01-01T00:00:00" acme
         (mk_info (Some (Some "Acme Inc")) (Some "https://clutch.co/profile/acme")
            (Some [Some "Austin, TX"]))
         eq_refl))) as [e [u [SEL [_ [URL [_ [_ HREF]]]]]]].
    injection URL as <-. injection SEL as <-.
    exists (mk_card "" "  Acme   Inc " (Some "/profile/acme") "  Acme   Inc ").
    split; [reflexivity|]. split; [|reflexivity].
    apply HREF. reflexivity.
Defined.

End BasicInfoExamples.

(* ================================================================= *)
(** ** More about the [retry] decorator: the budget *)

Module RetryBudget.
Import Py Retry.
Local Open Scope Z_scope.



Section Budget.

Variable A : Type.
Variable max_attempts : Z.
Variable delay : float.
Variable func : Z -> result A.





End Budget.

End RetryBudget.

Module RetryBudgetExamples.
Import Py Retry RetryBudget RetryExamples.
Local Open Scope Z_scope.


(** With a delay that cannot be slept the third case occurs. *)
Example sleep_raises :
  fst (wrapper 3 nan down) = Raise ValueError /\ pause nan 0 = Some ValueError.
Proof. split; vm_compute; reflexivity. Qed.

End RetryBudgetExamples.

(* ================================================================= *)
(** ** More about review extraction: how many reviews *)

Module ReviewLimits.
Import Py Reviews.

Section Page.

Variable Tag : Type.
Variable truthy_tag : Tag -> bool.
Variable get_text : Tag -> string.
Variable read_data : Tag -> ProjectInfo.t -> result ProjectInfo.t.
Variable read_content : Tag -> ProjectInfo.t -> result ProjectInfo.t.
Variable read_rating : Tag -> ProjectInfo.t -> ProjectInfo.t.
Variable _parse_reviewer_info : ReviewerInfo.t -> string -> Tag -> ReviewerInfo.t.

Lemma flat_map_at_most_one {A B : Type} (f : A -> option B) (l : list A) :
  length (flat_map (fun x => match f x with Some y => [y] | None => [] end) l)
  <= length l.
Proof.
  induction l as [|x l IH]; simpl; [lia|].
  destruct (f x); simpl; lia.
Qed.

(** X2. [_extract_reviews] returns at most [max_reviews_per_company] (10)
    reviews, and no more than the shortest of the lists of metadata, content and
    reviewer elements has entries; the list of rating elements sets no bound, and
    without metadata, content or reviewer elements there is no review at all. *)
Theorem _extract_reviews_at_most
    (review_data_elements review_content_elements review_reviewer_elements
     review_rating_elements : list Tag) :
  let reviews :=
    _extract_reviews Tag truthy_tag get_text read_data read_content read_rating
      _parse_reviewer_info review_data_elements review_content_elements
      review_reviewer_elements review_rating_elements in
  length reviews <= 10
  /\ length reviews <= length review_data_elements
  /\ length reviews <= length review_content_elements
  /\ length reviews <= length review_reviewer_elements.
Proof.
  intros reviews. subst reviews. unfold _extract_reviews. cbv zeta.
  match goal with
  | |- context [seq 0 ?n] =>
      pose proof (flat_map_at_most_one
                    (review_at Tag truthy_tag get_text read_data read_content
                       read_rating _parse_reviewer_info review_data_elements
                       review_content_elements review_reviewer_elements
                       review_rating_elements) (seq 0 n)) as B
  end.
  rewrite length_seq in B.
  unfold max_reviews_per_company in *. lia.
Qed.

End Page.

End ReviewLimits.

(* ================================================================= *)
(** ** models.py: the rows [DataExporter.export_to_csv] writes *)

Module CsvExport.
Import ScrapedData.

(** What [export_to_csv] does, the file apart: it reports that there is nothing
    to export, or writes a header and rows. *)
Inductive outcome : Type :=
| NoData
| Written (rows : list FlatRow.t).

(** The loop [for item in data: all_rows.extend(item.to_flat_dict_list())]. *)
Fixpoint extend_rows (data : list t) (all_rows : list FlatRow.t) : list FlatRow.t :=
  match data with
  | [] => all_rows
  | item :: data' => extend_rows data' (all_rows ++ to_flat_dict_list item)
  end.

Definition export_to_csv (data : list t) : outcome :=
  match data with
  | [] => NoData
  | _ =>
      match extend_rows data [] with
      | [] => NoData
      | all_rows => Written all_rows
      end
  end.

(** The number of rows of one record: one per reviewer, one for none. *)
Definition row_count (d : t) : nat := Nat.max 1 (length (reviewers d)).

Lemma extend_rows_flat_map (data : list t) (all_rows : list FlatRow.t) :
  extend_rows data all_rows = all_rows ++ flat_map to_flat_dict_list data.
Proof.
  revert all_rows. induction data as [|d data IH]; intros all_rows; simpl.
  - now rewrite app_nil_r.
  - now rewrite IH, app_assoc.
Qed.

Lemma to_flat_dict_list_length (d : t) : length (to_flat_dict_list d) = row_count d.
Proof.
  unfold to_flat_dict_list, row_count. destruct (reviewers d) as [|r rs] eqn:E.
  - reflexivity.
  - rewrite append_rows_map. simpl. now rewrite length_map.
Qed.

Lemma flat_rows_length (data : list t) :
  length (flat_map to_flat_dict_list data) = list_sum (map row_count data).
Proof.
  induction data as [|d data IH]; simpl; [reflexivity|].
  now rewrite length_app, to_flat_dict_list_length, IH.
Qed.

Lemma list_sum_row_count (data : list t) : length data <= list_sum (map row_count data).
Proof.
  induction data as [|d data IH]; simpl; [lia|]. unfold row_count at 1. lia.
Qed.

(** X3. Flattening a record never gives an empty list, so [export_to_csv]
    reports "no data" exactly for an empty list of records (its second check
    never fires); otherwise it writes, in order, the rows of every record: one row
    per reviewer, one row for a record without reviewers, hence at least as many
    rows as records. *)
Theorem export_to_csv_rows (data : list t) :
  (forall d, to_flat_dict_list d <> [])
  /\ (export_to_csv data = NoData <-> data = [])
  /\ (data <> [] ->
      export_to_csv data = Written (flat_map to_flat_dict_list data)
      /\ length (flat_map to_flat_dict_list data) = list_sum (map row_count data)
      /\ length data <= length (flat_map to_flat_dict_list data)).
Proof.
  assert (NE : forall d, to_flat_dict_list d <> []).
  { intros d. unfold to_flat_dict_list. destruct (reviewers d) as [|r rs].
    - discriminate.
    - rewrite append_rows_map. discriminate. }
  assert (W : data <> [] -> export_to_csv data = Written (flat_map to_flat_dict_list data)).
  { destruct data as [|d data]; [congruence|]. intros _. unfold export_to_csv.
    rewrite extend_rows_flat_map. simpl.
    destruct (to_flat_dict_list d) as [|row rows] eqn:E; [now apply NE in E|].
    reflexivity. }
  split; [exact NE|]. split.
  - split.
    + intros E. destruct data as [|d data]; [reflexivity|].
      rewrite W in E by discriminate. discriminate.
    + intros ->. reflexivity.
  - intros N. split; [now apply W|]. split; [apply flat_rows_length|].
    rewrite flat_rows_length. apply list_sum_row_count.
Qed.

End CsvExport.

Module CsvExportExamples.
Import ScrapedData CsvExport ModelsExamples.

Lemma export_to_csv_rows_witness :
  export_to_csv [sample_data; bare_data]
  = Written (flat_map to_flat_dict_list [sample_data; bare_data])
  /\ length (flat_map to_flat_dict_list [sample_data; bare_data])
     = list_sum (map row_count [sample_data; bare_data])
  /\ 2 <= length (flat_map to_flat_dict_list [sample_data; bare_data]).
Proof.
  apply (proj2 (proj2 (export_to_csv_rows [sample_data; bare_data]))). discriminate.
Defined.

Example sample_rows_count :
  length (flat_map to_flat_dict_list [sample_data; bare_data]) = 3.
Proof. reflexivity. Qed.

End CsvExportExamples.

(* ================================================================= *)
(** ** More about the deduplicator: the primary record, and where the output
    comes from *)

Module DedupMore.
Import ScrapedData Dedup.

(** A record has a usable name. *)
Definition named (r : t) : bool := Py.truthy (competitor_name r).

Lemma reviewer_count_length (r : t) : reviewer_count r = length (reviewers r).
Proof. unfold reviewer_count. now destruct (reviewers r). Qed.

(** [max] returns the first record with the largest number of reviewers. *)
Lemma max_from_first_max (best : t) (records : list t) :
  exists l1 l2,
    best :: records = l1 ++ max_from best records :: l2
    /\ (forall x, In x l1 -> reviewer_count x < reviewer_count (max_from best records))
    /\ (forall x, In x l2 -> reviewer_count x <= reviewer_count (max_from best records)).
Proof.
  revert best. induction records as [|r records IH]; intros best; simpl.
  - exists [], []. repeat split; intros x [].
  - destruct (Nat.ltb_spec (reviewer_count best) (reviewer_count r)) as [LT|GE].
    + destruct (IH r) as [l1 [l2 [E [B A]]]].
      set (m := max_from r records) in *.
      exists (best :: l1), l2. split; [simpl; now rewrite E|]. split; [|exact A].
      intros x [<-|IN]; [|now apply B].
      destruct l1 as [|y l1]; simpl in E; injection E as H1 H2.
      * now rewrite <- H1.
      * assert (reviewer_count r < reviewer_count m) by (apply B; now left).
        lia.
    + destruct (IH best) as [l1 [l2 [E [B A]]]].
      set (m := max_from best records) in *.
      destruct l1 as [|y l1]; simpl in E; injection E as H1 H2.
      * exists [], (r :: l2). split; [simpl; congruence|]. split; [intros x []|].
        intros x [<-|IN]; [rewrite <- H1; lia | now apply A].
      * exists (y :: r :: l1), l2. split; [simpl; congruence|]. split; [|exact A].
        assert (reviewer_count best < reviewer_count m) by (apply B; now left).
        intros x [<-|[<-|IN]].
        -- apply B. now left.
        -- lia.
        -- apply B. now right.
Qed.

(** X4. In a group of two or more records the record that is kept is the one
    with the most reviewers, the first of them in input order when several have as
    many; it is kept with all its own fields, only its reviewer list is replaced
    by the merged list of the group. *)
Theorem primary_record_first_largest (data : list t) (k : string) :
  2 <= length (records_of k data) ->
  exists before primary after,
    records_of k data = before ++ primary :: after
    /\ (forall r, In r before -> length (reviewers r) < length (reviewers primary))
    /\ (forall r, In r after -> length (reviewers r) <= length (reviewers primary))
    /\ In (set_reviewers primary (merge_reviewers (records_of k data)))
          (_deduplicate_companies data).
Proof.
  intros LEN.
  destruct (records_of k data) as [|r [|r' records]] eqn:E;
    [simpl in LEN; lia | simpl in LEN; lia |].
  destruct (max_from_first_max r (r' :: records)) as [l1 [l2 [S [B A]]]].
  exists l1, (max_from r (r' :: records)), l2.
  split; [exact S|]. split; [|split].
  - intros x IN. rewrite <- !reviewer_count_length. now apply B.
  - intros x IN. rewrite <- !reviewer_count_length. now apply A.
  - rewrite _deduplicate_companies_grouped. apply in_flat_map. exists k. split.
    + apply In_records_of_input with r. rewrite E. now left.
    + rewrite E. now left.
Qed.






Lemma filter_named_keys (data : list t) :
  map group_key (filter named data) = map Some (input_keys data).
Proof.
  unfold input_keys. induction data as [|r data IH]; simpl; [reflexivity|].
  unfold named at 1. destruct (group_key r) as [k|] eqn:K.
  - assert (T : Py.truthy (competitor_name r) = true).
    { destruct (Py.truthy (competitor_name r)) eqn:T; [reflexivity|].
      apply group_key_nameless in T. congruence. }
    rewrite T. simpl. now rewrite K, IH.
  - apply group_key_nameless in K. now rewrite K.
Qed.

Lemma records_of_filter_named (k : string) (data : list t) :
  records_of k (filter named data) = records_of k data.
Proof.
  unfold records_of. induction data as [|r data IH]; simpl; [reflexivity|].
  unfold named at 1. destruct (Py.truthy (competitor_name r)) eqn:T; simpl.
  - now rewrite IH.
  - apply group_key_nameless in T. unfold has_key at 2. now rewrite T.
Qed.

(** X6. When no two named records of the input share a normalized name, the
    deduplicator changes no record: its output is the input without the nameless
    records, in the same order. *)
Theorem distinct_names_unchanged (data : list t) :
  NoDup (input_keys data) ->
  _deduplicate_companies data = filter named data.
Proof.
  intros ND.
  assert (E : _deduplicate_companies data = _deduplicate_companies (filter named data)).
  { rewrite !_deduplicate_companies_grouped.
    rewrite (input_keys_of_keys _ _ (filter_named_keys data)).
    apply flat_map_ext. intros k. now rewrite records_of_filter_named. }
  rewrite E. apply _deduplicate_companies_fixed with (input_keys data).
  - apply filter_named_keys.
  - exact ND.
Qed.

End DedupMore.

Module DedupMoreExamples.
Import ScrapedData Dedup DedupMore DedupExamples.

Lemma primary_record_first_largest_witness :
  exists before primary after,
    records_of "acme inc" sample = before ++ primary :: after
    /\ In (set_reviewers primary (merge_reviewers (records_of "acme inc" sample)))
          (_deduplicate_companies sample).
Proof.
  assert (LEN : 2 <= length (records_of "acme inc" sample)).
  { vm_compute. apply le_n. }
  destruct (primary_record_first_largest sample "acme inc" LEN)
    as [before [primary [after [S [_ [_ IN]]]]]].
  exists before, primary, after. split; [exact S | exact IN].
Defined.

Lemma distinct_names_unchanged_witness :
  _deduplicate_companies [acme1; nameless; globex] = filter named [acme1; nameless; globex].
Proof.
  apply (distinct_names_unchanged [acme1; nameless; globex]).
  vm_compute. repeat constructor.
  - intros [H|[]]. discriminate H.
  - intros [].
Defined.

Example distinct_names_ex :
  _deduplicate_companies [acme1; nameless; globex] = [acme1; globex].
Proof. vm_compute. reflexivity. Qed.

End DedupMoreExamples.

(* ================================================================= *)
(** ** utils.py: [SessionManager.get] *)

Module Session.
Import Py.
Local Open Scope Z_scope.

(** What a call of [get] does, in order. *)
Inductive event : Type :=
| Wait                        (* [self.rate_limiter.wait()] *)
| Request (attempt : Z)       (* [self.session.get(url, ...)] in iteration [attempt] *)
| Sleep (seconds : Z).        (* [time.sleep(seconds)] *)

Fixpoint requests (trace : list event) : nat :=
  match trace with
  | [] => 0
  | Request _ :: trace' => S (requests trace')
  | _ :: trace' => requests trace'
  end.

Fixpoint sleeps (trace : list event) : list Z :=
  match trace with
  | [] => []
  | Sleep seconds :: trace' => seconds :: sleeps trace'
  | _ :: trace' => sleeps trace'
  end.

Section Get.

(** A response of the HTTP library and its [status_code]. *)
Variable Response : Type.
Variable status_code : Response -> Z.

Variable max_retries : Z.

(** The HTTP session during one call of [get]: what the request of iteration
    [attempt] gives, a response or an exception. *)
Variable request : Z -> result Response.

(** The pause before a retry, for an outcome that is retried while attempts
    remain: 30 seconds after a 429, 10 after a server error, 5 after an exception;
    [None] for an outcome that ends the call. *)
Definition pause (outcome : result Response) : option Z :=
  match outcome with
  | Ret response =>
      if status_code response =? 200 then None
      else if status_code response =? 403 then None
      else if status_code response =? 429 then Some 30
      else if status_code response >=? 500 then Some 10
      else None
  | Raise _ => Some 5
  end.

(** The loop [for attempt in range(max_retries + 1)], with the events so far;
    falling out of the loop is [return None]. *)
Fixpoint attempts (l : list Z) (trace : list event) : option Response * list event :=
  match l with
  | [] => (None, trace)
  | attempt :: l' =>
      match request attempt with
      | Ret response =>
          if status_code response =? 200
          then (Some response, trace ++ [Request attempt])
          else if status_code response =? 403
          then (None, trace ++ [Request attempt])
          else if status_code response =? 429
          then
            if attempt <? max_retries
            then attempts l' (trace ++ [Request attempt; Sleep 30])
            else (None, trace ++ [Request attempt])
          else
            if (attempt <? max_retries) && (status_code response >=? 500)
            then attempts l' (trace ++ [Request attempt; Sleep 10])
            else (None, trace ++ [Request attempt])
      | Raise _ =>
          if attempt <? max_retries
          then attempts l' (trace ++ [Request attempt; Sleep 5])
          else (None, trace ++ [Request attempt])
      end
  end.

Definition get : option Response * list event :=
  attempts (Retry.range (max_retries + 1)) [Wait].

(** The events of the first [k] attempts when each of them is retried. *)
Definition retried (k : Z) : list event :=
  flat_map
    (fun attempt =>
       [Request attempt;
        Sleep (match pause (request attempt) with Some s => s | None => 0 end)])
    (Retry.range k).

(** One iteration: it ends the call, or it sleeps and goes on. *)
Lemma attempts_cons (attempt : Z) (l : list Z) (trace : list event) :
  attempts (attempt :: l) trace
  = match pause (request attempt) with
    | Some seconds =>
        if attempt <? max_retries
        then attempts l (trace ++ [Request attempt; Sleep seconds])
        else (None, trace ++ [Request attempt])
    | None =>
        (match request attempt with
         | Ret response =>
             if status_code response =? 200 then Some response else None
         | Raise _ => None
         end, trace ++ [Request attempt])
    end.
Proof.
  simpl. unfold pause. destruct (request attempt) as [response|e]; [|reflexivity].
  destruct (status_code response =? 200); [reflexivity|].
  destruct (status_code response =? 403); [reflexivity|].
  destruct (status_code response =? 429); [reflexivity|].
  destruct (status_code response >=? 500); destruct (attempt <? max_retries);
    reflexivity.
Qed.

Lemma attempts_retried (l1 l2 : list Z) (trace : list event) :
  (forall i, In i l1 -> i < max_retries /\ pause (request i) <> None) ->
  attempts (l1 ++ l2) trace
  = attempts l2
      (trace ++ flat_map
                  (fun i => [Request i;
                             Sleep (match pause (request i) with
                                    | Some s => s
                                    | None => 0
                                    end)]) l1).
Proof.
  revert trace. induction l1 as [|i l1 IH]; intros trace RETRY.
  - simpl. now rewrite app_nil_r.
  - change ((i :: l1) ++ l2) with (i :: (l1 ++ l2)). rewrite attempts_cons.
    destruct (RETRY i (or_introl eq_refl)) as [LT P].
    destruct (pause (request i)) as [s|] eqn:E; [|congruence].
    apply Z.ltb_lt in LT. rewrite LT. rewrite IH.
    + simpl. rewrite E. now rewrite <- app_assoc.
    + intros j IN. apply RETRY. now right.
Qed.

(** A response is returned only from an attempt that answered 200. *)
Lemma attempts_some (l : list Z) (trace : list event) (response : Response) :
  fst (attempts l trace) = Some response ->
  exists l1 k l2,
    l = l1 ++ k :: l2 /\ request k = Ret response /\ status_code response = 200
    /\ (forall i, In i l1 -> i < max_retries /\ pause (request i) <> None).
Proof.
  revert trace. induction l as [|i l IH]; intros trace; [discriminate|].
  rewrite attempts_cons. destruct (pause (request i)) as [s|] eqn:P.
  - destruct (Z.ltb_spec i max_retries) as [LT|GE]; [|discriminate].
    intros H. apply IH in H. destruct H as [l1 [k [l2 [-> [R [S PRE]]]]]].
    exists (i :: l1), k, l2. split; [reflexivity|]. split; [exact R|].
    split; [exact S|].
    intros j [<-|IN]; [|now apply PRE]. split; [exact LT | congruence].
  - simpl. destruct (request i) as [r|e] eqn:R; [|discriminate].
    destruct (Z.eqb_spec (status_code r) 200) as [S|_]; [|discriminate].
    intros H. inversion H; subst. exists [], i, l.
    split; [reflexivity|]. split; [exact R|]. split; [exact S|]. intros j [].
Qed.

(** The events a call adds: at most one request per iteration, and, when the
    list of iterations ends with [max_retries], one sleep between two requests. *)
Lemma attempts_trace (l : list Z) (trace : list event) :
  exists more,
    snd (attempts l trace) = trace ++ more
    /\ (requests more <= length l)%nat
    /\ ((exists l', l = l' ++ [max_retries]) ->
        requests more = S (length (sleeps more)))
    /\ (forall s, In s (sleeps more) -> s = 30 \/ s = 10 \/ s = 5).
Proof.
  revert trace. induction l as [|i l IH]; intros trace.
  - exists []. simpl. rewrite app_nil_r. split; [reflexivity|]. split; [lia|].
    split; [|intros s []]. intros [l' E]. destruct l'; discriminate.
  - assert (FINAL : forall r : option Response,
              exists more,
                snd (r, trace ++ [Request i]) = trace ++ more
                /\ (requests more <= length (i :: l))%nat
                /\ ((exists l', i :: l = l' ++ [max_retries]) ->
                    requests more = S (length (sleeps more)))
                /\ (forall s, In s (sleeps more) -> s = 30 \/ s = 10 \/ s = 5)).
    { intros r. exists [Request i]. simpl. split; [reflexivity|].
      split; [lia|]. split; [reflexivity | intros s []]. }
    rewrite attempts_cons. destruct (pause (request i)) as [s|] eqn:P;
      [|apply FINAL].
    destruct (Z.ltb_spec i max_retries) as [LT|GE]; [|apply FINAL].
    destruct (IH (trace ++ [Request i; Sleep s])) as [more [E [R [S K]]]].
    exists ([Request i; Sleep s] ++ more). rewrite E, <- app_assoc.
    split; [reflexivity|]. split; [simpl; lia|]. split.
    + intros [l' L]. simpl. f_equal. apply S.
      destruct l' as [|j l']; simpl in L; injection L as L1 L2; [lia|].
      now exists l'.
    + simpl. intros x [<-|IN]; [|now apply K].
      unfold pause in P. destruct (request i) as [r|e].
      * destruct (status_code r =? 200); [discriminate|].
        destruct (status_code r =? 403); [discriminate|].
        destruct (status_code r =? 429); [inversion P; tauto|].
        destruct (status_code r >=? 500); [inversion P; tauto | discriminate].
      * inversion P. tauto.
Qed.

Lemma range_succ (k : Z) : 0 <= k -> Retry.range (k + 1) = Retry.range k ++ [k].
Proof.
  intros POS. unfold Retry.range.
  replace (Z.to_nat (k + 1)) with (Z.to_nat k + 1)%nat by lia.
  rewrite seq_app, map_app. simpl. f_equal. f_equal. lia.
Qed.

Lemma seq_prefix (a n k : nat) (l1 l2 : list nat) :
  seq a n = l1 ++ k :: l2 -> l1 = seq a (k - a).
Proof.
  revert a n. induction l1 as [|x l1 IH]; intros a n E.
  - destruct n; simpl in E; [discriminate|]. injection E as <- _.
    now rewrite Nat.sub_diag.
  - destruct n; simpl in E; [discriminate|]. injection E as <- E.
    pose proof (IH _ _ E) as ->.
    assert (IN : In k (seq (S a) n)) by (rewrite E; apply in_elt).
    apply in_seq in IN.
    replace (k - a)%nat with (S (k - S a)) by lia. reflexivity.
Qed.

Lemma range_prefix (n k : Z) (l1 l2 : list Z) :
  Retry.range n = l1 ++ k :: l2 -> l1 = Retry.range k.
Proof.
  unfold Retry.range. intros E. apply map_eq_app in E.
  destruct E as [s1 [s2 [E [<- M]]]].
  destruct s2 as [|j s2]; [discriminate|]. injection M as <- _.
  apply seq_prefix in E. rewrite Nat2Z.id. now rewrite E, Nat.sub_0_r.
Qed.

(** X7. [SessionManager.get] returns a response only when an attempt answered
    with status 200, and then it is the response of that attempt, every attempt
    before it having been one that is retried (status 429, a server error, or an
    exception). It sends at most [max_retries + 1] requests, sleeps only between
    two requests, and each sleep lasts 30, 10 or 5 seconds. *)
Theorem get_response :
  (forall response,
     fst get = Some response ->
     exists k, 0 <= k <= max_retries
               /\ request k = Ret response /\ status_code response = 200
               /\ (forall i, 0 <= i < k -> pause (request i) <> None))
  /\ (requests (snd get) <= Z.to_nat (max_retries + 1))%nat
  /\ (0 <= max_retries -> requests (snd get) = S (length (sleeps (snd get))))
  /\ (forall s, In s (sleeps (snd get)) -> s = 30 \/ s = 10 \/ s = 5).
Proof.
  unfold get.
  destruct (attempts_trace (Retry.range (max_retries + 1)) [Wait])
    as [more [E [R [S K]]]].
  rewrite Retry.range_length in R.
  split; [|split; [|split]].
  - intros response H. apply attempts_some in H.
    destruct H as [l1 [k [l2 [L [RK [SK PRE]]]]]].
    assert (IN : In k (Retry.range (max_retries + 1))).
    { rewrite L. apply in_elt. }
    apply Retry.range_In in IN. exists k. split; [lia|]. split; [exact RK|].
    split; [exact SK|]. intros i I. apply PRE.
    apply range_prefix in L. subst l1. apply Retry.range_In. lia.
  - rewrite E. simpl. exact R.
  - intros POS. rewrite E. simpl. apply S. exists (Retry.range max_retries).
    now apply range_succ.
  - intros s IN. rewrite E in IN. simpl in IN. now apply K.
Qed.

(** What the call returns when iteration [k] ends it. *)
Definition outcome (k : Z) : option Response :=
  match request k with
  | Ret response => if status_code response =? 200 then Some response else None
  | Raise _ => None
  end.

(** X8. The whole run of [SessionManager.get]: with a negative [max_retries]
    nothing is requested and [None] is returned. Otherwise, when the attempts
    before [k] are all retried and attempt [k] ends the call (its outcome is
    not one that is retried, or it is the last attempt), the call is: the rate
    limiter's wait, a request and a sleep for each attempt before [k], the
    request of attempt [k], and no sleep after it; the result is the response of
    attempt [k] when its status is 200 and [None] otherwise. *)
Theorem get_run :
  (max_retries < 0 -> get = (None, [Wait]))
  /\ (forall k,
        0 <= k <= max_retries ->
        (forall i, 0 <= i < k -> pause (request i) <> None) ->
        pause (request k) = None \/ k = max_retries ->
        get = (outcome k, [Wait] ++ retried k ++ [Request k])).
Proof.
  unfold get. split.
  - intros NEG. unfold Retry.range.
    replace (Z.to_nat (max_retries + 1)) with 0%nat by lia. reflexivity.
  - intros k K RETRY LAST.
    destruct (Retry.range_split (max_retries + 1) k) as [rest ->]; [lia|].
    rewrite attempts_retried.
    + rewrite attempts_cons. fold (retried k). unfold outcome.
      rewrite <- app_assoc.
      destruct (pause (request k)) as [s|] eqn:P; [|reflexivity].
      destruct LAST as [L | ->]; [discriminate|]. rewrite Z.ltb_irrefl.
      unfold pause in P. destruct (request max_retries) as [r|e]; [|reflexivity].
      destruct (status_code r =? 200); [discriminate | reflexivity].
    + intros i IN. apply Retry.range_In in IN. split; [lia|]. apply RETRY. lia.
Qed.

End Get.

Arguments get {Response}.
Arguments pause {Response}.
Arguments outcome {Response}.
Arguments retried {Response}.

End Session.

Module SessionExamples.
Import Py Session.
Local Open Scope Z_scope.

(** A response is modelled by its status code. *)
Definition status (code : Z) : Z := code.

(** A rate limit, a dropped connection, then the page. *)
Definition recovering : Z -> result Z :=
  Retry.scripted [Ret 429; Raise (OtherError "connection reset"); Ret 200].

(** A server error, then access denied. *)
Definition denied : Z -> result Z := Retry.scripted [Ret 503; Ret 403; Ret 200].

Example get_recovering :
  get status 2 recovering
  = (Some 200, [Wait; Request 0; Sleep 30; Request 1; Sleep 5; Request 2]).
Proof. vm_compute. reflexivity. Qed.

Lemma get_run_witness :
  get status 2 denied = (None, [Wait; Request 0; Sleep 10; Request 1]).
Proof.
  apply (proj2 (get_run Z status 2 denied) 1).
  - lia.
  - intros i I. assert (i = 0) as -> by lia. discriminate.
  - left. reflexivity.
Defined.

Lemma get_response_witness :
  exists k, 0 <= k <= 2 /\ recovering k = Ret 200.
Proof.
  destruct (proj1 (get_response Z status 2 recovering) 200 eq_refl)
    as [k [K [R _]]].
  exists k. split; [exact K | exact R].
Defined.

End SessionExamples.

(* ================================================================= *)
(** ** utils.py: [parse_pagination_info] *)

Module Pagination.
Import Py.
Local Open Scope Z_scope.

(** The dict [pagination_info], which always has its four keys. *)
Record info : Type := mk_info {
  current_page : Z;
  total_pages : Z;
  has_next : bool;
  next_url : option string
}.

Definition initial : info := mk_info 1 1 false None.

Definition set_current_page (i : info) (n : Z) : info :=
  mk_info n (total_pages i) (has_next i) (next_url i).
Definition set_has_next (i : info) (b : bool) : info :=
  mk_info (current_page i) (total_pages i) b (next_url i).
Definition set_next_url (i : info) (u : option string) : info :=
  mk_info (current_page i) (total_pages i) (has_next i) u.

Definition site_root : string := "https://clutch.co".

Section Page.

(** The page library: the parsed page, an element and its truth value, the three
    searches of the function (the [nav] whose class contains "pagination", in it
    the [span] whose class contains "current" and the [a] whose string contains
    "next"), [get_text(strip=True)] and [element.get(key)]. A search may raise. *)
Variable Soup : Type.
Variable Tag : Type.
Variable truthy_tag : Tag -> bool.
Variable find_pagination : Soup -> result (option Tag).
Variable find_current : Tag -> result (option Tag).
Variable find_next : Tag -> result (option Tag).
Variable get_text : Tag -> string.
Variable get : Tag -> string -> option string.

(** [int(s)] of the Python runtime; it raises [ValueError] on a text that is no
    integer literal. *)
Variable py_int : string -> result Z.

(** [urllib.parse.urljoin(base, url)]; it raises on a malformed address. *)
Variable urljoin : string -> string -> result string.

Definition truthy_element (e : option Tag) : bool :=
  match e with
  | Some t => truthy_tag t
  | None => false
  end.

(** [next_link.get('href')], [None] without a link. *)
Definition href (next_link : option Tag) : option string :=
  match next_link with
  | Some a => get a "href"
  | None => None
  end.

(** The statements about the next link, from the dict as it is then; an exception
    leaves the dict as it is at that point. *)
Definition next_step (pagination : Tag) (i : info) : info :=
  match find_next pagination with
  | Ret next_link =>
      if truthy_element next_link && truthy (href next_link) then
        let i := set_has_next i true in
        match urljoin site_root (or_empty (href next_link)) with
        | Ret joined => set_next_url i (Some joined)
        | Raise _ => i
        end
      else i
  | Raise _ => i
  end.

(** The statements about the current page. *)
Definition current_step (pagination : Tag) (i : info) : result info :=
  bind (find_current pagination) (fun current =>
  match current with
  | Some c =>
      if truthy_tag c
      then bind (py_int (get_text c)) (fun n => Ret (set_current_page i n))
      else Ret i
  | None => Ret i
  end).

Definition parse_pagination_info (soup : Soup) : info :=
  match find_pagination soup with
  | Ret (Some pagination) =>
      if truthy_tag pagination then
        match current_step pagination initial with
        | Ret i => next_step pagination i
        | Raise _ => initial
        end
      else initial
  | _ => initial
  end.

(** [pagination_info['next_url'] if pagination_info['has_next'] else None], the
    address [scrape_category] goes on with. *)
Definition following (i : info) : option string :=
  if has_next i then next_url i else None.

(** X9. [parse_pagination_info] never reports more than one page in all:
    ['total_pages'] is always 1. An address under ['next_url'] comes with
    ['has_next'] set and is the [href] of the next link joined to the site root;
    ['has_next'] can be set without an address, when joining raised. When the
    text of the current-page marker is no integer the function gives up: it
    returns the initial dict, whatever next link the page has. *)
Theorem parse_pagination_info_fields (soup : Soup) :
  let i := parse_pagination_info soup in
  total_pages i = 1
  /\ (forall u, next_url i = Some u ->
        has_next i = true
        /\ exists pagination a h,
             find_pagination soup = Ret (Some pagination)
             /\ find_next pagination = Ret (Some a)
             /\ get a "href" = Some h /\ h <> EmptyString
             /\ urljoin site_root h = Ret u)
  /\ (has_next i = true -> next_url i = None ->
      exists pagination a h e,
        find_pagination soup = Ret (Some pagination)
        /\ find_next pagination = Ret (Some a)
        /\ get a "href" = Some h /\ urljoin site_root h = Raise e)
  /\ (forall pagination c e,
        find_pagination soup = Ret (Some pagination) ->
        find_current pagination = Ret (Some c) -> truthy_tag c = true ->
        py_int (get_text c) = Raise e ->
        i = initial).
Proof.
  cbv zeta. unfold parse_pagination_info.
  destruct (find_pagination soup) as [[pagination|]|x] eqn:FP;
    try (split; [reflexivity|]; split; [discriminate|]; split;
         [discriminate | intros; congruence]).
  destruct (truthy_tag pagination) eqn:TP;
    try (split; [reflexivity|]; split; [discriminate|]; split;
         [discriminate | reflexivity]).
  assert (CUR : forall i, current_step pagination initial = Ret i ->
                  total_pages i = 1 /\ has_next i = false /\ next_url i = None).
  { unfold current_step. intros i.
    destruct (find_current pagination) as [[c|]|x]; cbn [bind];
      try discriminate; try (intros H; inversion H; now repeat split).
    destruct (truthy_tag c); [|intros H; inversion H; now repeat split].
    destruct (py_int (get_text c)); cbn [bind]; [|discriminate].
    intros H. inversion H. now repeat split. }
  destruct (current_step pagination initial) as [i|x] eqn:CS.
  2:{ split; [reflexivity|]. split; [discriminate|]. split;
        [discriminate | reflexivity]. }
  destruct (CUR i eq_refl) as [TOT [HN NU]]. clear CUR.
  assert (INT : forall c e, find_current pagination = Ret (Some c) ->
                  truthy_tag c = true -> py_int (get_text c) = Raise e -> False).
  { intros c e FC TC PI. unfold current_step in CS.
    rewrite FC in CS. cbn [bind] in CS. rewrite TC, PI in CS. discriminate. }
  unfold next_step.
  destruct (find_next pagination) as [next_link|x] eqn:FN.
  2:{ split; [exact TOT|]. split; [intros u U; congruence|]. split;
        [intros H; congruence|].
      intros p c e P. inversion P; subst p. intros FC TC PI.
      destruct (INT c e FC TC PI). }
  destruct (truthy_element next_link && truthy (href next_link)) eqn:COND.
  2:{ split; [exact TOT|]. split; [intros u U; congruence|]. split;
        [intros H; congruence|].
      intros p c e P. inversion P; subst p. intros FC TC PI.
      destruct (INT c e FC TC PI). }
  apply andb_true_iff in COND. destruct COND as [TN TH].
  destruct next_link as [a|]; [|discriminate]. simpl in TH, TN |- *.
  destruct (get a "href") as [[|ch h]|] eqn:G; try discriminate. simpl.
  destruct (urljoin site_root (String ch h)) as [joined|x] eqn:U; simpl.
  - split; [exact TOT|]. split.
    + intros u E. inversion E; subst u. split; [reflexivity|].
      exists pagination, a, (String ch h). repeat split; auto. discriminate.
    + split; [discriminate|].
      intros p c e P. inversion P; subst p. intros FC TC PI.
      destruct (INT c e FC TC PI).
  - split; [exact TOT|]. split; [intros u E; congruence|]. split.
    + intros _ _. exists pagination, a, (String ch h), x. now repeat split.
    + intros p c e P. inversion P; subst p. intros FC TC PI.
      destruct (INT c e FC TC PI).
Qed.

End Page.

End Pagination.

Module PaginationExamples.
Import Py Pagination.
Local Open Scope Z_scope.

(** A page as far as the function looks at it: the elements of its pagination
    bar, if it has one. *)
Inductive tag : Type :=
| Nav (current : option string) (next : option string)
| Current (text : string)
| Next (href : option string).

Definition find_pagination (soup : option tag) : result (option tag) := Ret soup.

Definition find_current (t : tag) : result (option tag) :=
  match t with
  | Nav (Some text) _ => Ret (Some (Current text))
  | _ => Ret None
  end.

Definition find_next (t : tag) : result (option tag) :=
  match t with
  | Nav _ (Some h) => Ret (Some (Next (Some h)))
  | _ => Ret None
  end.

Definition get_text (t : tag) : string :=
  match t with
  | Current text => text
  | _ => EmptyString
  end.

Definition get (t : tag) (key : string) : option string :=
  match t with
  | Next h => if String.eqb key "href" then h else None
  | _ => None
  end.

(** [int] on the few texts of the examples. *)
Definition py_int (s : string) : result Z :=
  if String.eqb s "2" then Ret 2 else Raise ValueError.

Definition urljoin (base url : string) : result string := Ret (base ++ url)%string.

Definition parse (soup : option tag) : info :=
  parse_pagination_info (option tag) tag (fun _ => true) find_pagination find_current
    find_next get_text get py_int urljoin soup.

Example second_page :
  parse (Some (Nav (Some "2") (Some "/developers?page=2")))
  = mk_info 2 1 true (Some "https://clutch.co/developers?page=2").
Proof. reflexivity. Qed.

Example no_pagination : parse None = initial.
Proof. reflexivity. Qed.

Lemma parse_pagination_info_fields_witness :
  parse (Some (Nav (Some "Page 2") (Some "/developers?page=2"))) = initial.
Proof.
  apply (proj2 (proj2 (proj2
           (parse_pagination_info_fields (option tag) tag (fun _ => true)
              find_pagination find_current find_next get_text get py_int urljoin
              (Some (Nav (Some "Page 2") (Some "/developers?page=2"))))))
         (Nav (Some "Page 2") (Some "/developers?page=2")) (Current "Page 2")
         ValueError); reflexivity.
Defined.

End PaginationExamples.

(* ================================================================= *)
(** ** scraper.py: [scrape_category] *)

Module Category.
Import Py.
Local Open Scope Z_scope.

Section Pages.

Variable Soup : Type.
Variable max_pages_per_category : Z.

(** The page behind an address at the request of iteration [page_count]:
    [session_manager.get] followed by the parser. [Ret None] stands for no
    response, [Raise] for an exception of either. *)
Variable load : Z -> string -> result (option Soup).

(** [extract_companies_from_page(soup, subcategory_name, page_url)] *)
Variable extract_companies_from_page :
  Soup -> string -> string -> result (list ScrapedData.t).

(** [parse_pagination_info(soup)], which never raises. *)
Variable parse_pagination_info : Soup -> Pagination.info.

(** What one page gives: its companies and the address to go on with, or
    [None] when the loop is left by [break]. *)
Definition page (page_count : Z) (subcategory_name current_url : string)
  : option (list ScrapedData.t * option string) :=
  match load page_count current_url with
  | Ret (Some soup) =>
      match extract_companies_from_page soup subcategory_name current_url with
      | Ret companies =>
          Some (companies, Pagination.following (parse_pagination_info soup))
      | Raise _ => None
      end
  | _ => None
  end.

(** The [while] loop, with the pages requested so far; [fuel] bounds the number
    of iterations. *)
Fixpoint pages (fuel : nat) (subcategory_name : string) (current_url : option string)
    (page_count : Z) (category_data : list ScrapedData.t) (trace : list (Z * string))
  : list ScrapedData.t * list (Z * string) :=
  match fuel with
  | O => (category_data, trace)
  | S fuel' =>
      match current_url with
      | Some (String a u) =>
          if page_count <? max_pages_per_category then
            let page_count := page_count + 1 in
            let trace := trace ++ [(page_count, String a u)] in
            match page page_count subcategory_name (String a u) with
            | Some (companies, next) =>
                pages fuel' subcategory_name next page_count
                  (category_data ++ companies) trace
            | None => (category_data, trace)
            end
          else (category_data, trace)
      | _ => (category_data, trace)
      end
  end.

(** [scrape_category]: the loop runs at most [max_pages_per_category] times. *)
Definition scrape_category (category_url subcategory_name : string)
  : list ScrapedData.t * list (Z * string) :=
  pages (Z.to_nat max_pages_per_category) subcategory_name (Some category_url) 0 [] [].

(** The companies a requested page contributed. *)
Definition companies_of (subcategory_name : string) (request : Z * string)
  : list ScrapedData.t :=
  match page (fst request) subcategory_name (snd request) with
  | Some (companies, _) => companies
  | None => []
  end.

(** The requests follow each other: each address after the first is the one
    the pagination of the page before it names. *)
Fixpoint linked (subcategory_name : string) (requests : list (Z * string)) : Prop :=
  match requests with
  | r1 :: ((r2 :: _) as requests') =>
      (exists companies,
         page (fst r1) subcategory_name (snd r1) = Some (companies, Some (snd r2)))
      /\ fst r2 = fst r1 + 1
      /\ linked subcategory_name requests'
  | _ => True
  end.

Lemma pages_accumulates (fuel : nat) (sub : string) (cur : option string)
    (pc : Z) (data : list ScrapedData.t) (trace : list (Z * string)) :
  pages fuel sub cur pc data trace
  = (data ++ fst (pages fuel sub cur pc [] []),
     trace ++ snd (pages fuel sub cur pc [] [])).
Proof.
  revert cur pc data trace. induction fuel as [|fuel IH]; intros cur pc data trace.
  - simpl. now rewrite !app_nil_r.
  - simpl. destruct cur as [[|a u]|]; try (simpl; now rewrite !app_nil_r).
    destruct (pc <? max_pages_per_category); [|simpl; now rewrite !app_nil_r].
    destruct (page (pc + 1) sub (String a u)) as [[companies next]|].
    + rewrite IH. rewrite (IH next (pc + 1) companies [(pc + 1, String a u)]).
      cbn [fst snd]. now rewrite !app_assoc.
    + simpl. now rewrite app_nil_r.
Qed.

(** What the loop yields from empty accumulators. *)
Lemma pages_spec (fuel : nat) (sub : string) (cur : option string) (pc : Z) :
  let data := fst (pages fuel sub cur pc [] []) in
  let trace := snd (pages fuel sub cur pc [] []) in
  data = flat_map (companies_of sub) trace
  /\ (Z.of_nat (length trace) <= Z.max 0 (max_pages_per_category - pc))
  /\ (length trace <= fuel)%nat
  /\ linked sub trace
  /\ (forall r, hd_error trace = Some r -> fst r = pc + 1 /\ cur = Some (snd r)).
Proof.
  revert cur pc. induction fuel as [|fuel IH]; intros cur pc; cbv zeta.
  - simpl. repeat split; try lia; discriminate.
  - simpl. destruct cur as [[|a u]|];
      try (simpl; repeat split; try lia; discriminate).
    destruct (Z.ltb_spec pc max_pages_per_category) as [LT|GE];
      [|simpl; repeat split; try lia; discriminate].
    destruct (page (pc + 1) sub (String a u)) as [[companies next]|] eqn:P.
    + rewrite pages_accumulates.
      destruct (IH next (pc + 1)) as [D [L [F [K H]]]].
      cbn [fst snd]. split; [|split; [|split; [|split]]].
      * cbn [app flat_map]. unfold companies_of at 1. cbn [fst snd]. rewrite P.
        now rewrite D.
      * cbn [app length]. lia.
      * cbn [app length]. lia.
      * cbn [app].
        destruct (snd (pages fuel sub next (pc + 1) [] [])) as [|r2 rest] eqn:T;
          [exact I|].
        cbn [linked fst snd]. destruct (H r2 eq_refl) as [H1 H2].
        split; [|split; [exact H1 | exact K]].
        exists companies. rewrite P. now rewrite H2.
      * cbn [app hd_error]. intros r R. inversion R. now split.
    + cbn [fst snd app]. split; [|split; [|split; [|split]]].
      * cbn [flat_map]. unfold companies_of. cbn [fst snd]. now rewrite P.
      * cbn [length]. lia.
      * cbn [length]. lia.
      * exact I.
      * cbn [hd_error]. intros r R. inversion R. now split.
Qed.

(** More iterations than [max_pages_per_category - page_count] change nothing. *)
Lemma pages_fuel (fuel : nat) (sub : string) (cur : option string) (pc : Z)
    (data : list ScrapedData.t) (trace : list (Z * string)) :
  (Z.to_nat (max_pages_per_category - pc) <= fuel)%nat ->
  pages fuel sub cur pc data trace
  = pages (Z.to_nat (max_pages_per_category - pc)) sub cur pc data trace.
Proof.
  revert cur pc data trace. induction fuel as [|fuel IH]; intros cur pc data trace LE.
  - now replace (Z.to_nat (max_pages_per_category - pc)) with 0%nat by lia.
  - destruct (Z.ltb_spec pc max_pages_per_category) as [LT|GE].
    + replace (Z.to_nat (max_pages_per_category - pc))
        with (S (Z.to_nat (max_pages_per_category - (pc + 1)))) by lia.
      simpl. destruct cur as [[|a u]|]; try reflexivity.
      destruct (pc <? max_pages_per_category); [|reflexivity].
      destruct (page (pc + 1) sub (String a u)) as [[companies next]|];
        [|reflexivity].
      apply IH. lia.
    + replace (Z.to_nat (max_pages_per_category - pc)) with 0%nat by lia.
      simpl. destruct cur as [[|a u]|]; try reflexivity.
      destruct (Z.ltb_spec pc max_pages_per_category); [lia | reflexivity].
Qed.

(** Only the last request can be one that left the loop. *)
Lemma linked_last (sub : string) (requests : list (Z * string)) (r : Z * string) :
  linked sub requests -> In r requests -> page (fst r) sub (snd r) = None ->
  r = last requests r.
Proof.
  induction requests as [|r1 [|r2 rest] IH]; intros L IN P.
  - destruct IN.
  - destruct IN as [<-|[]]. reflexivity.
  - destruct L as [[companies E] [_ L]]. destruct IN as [<-|IN]; [congruence|].
    change (last (r1 :: r2 :: rest) r) with (last (r2 :: rest) r). now apply IH.
Qed.

(** X10. [scrape_category] requests at most [max_pages_per_category] pages (none
    for an empty address or a limit below 1), numbered from 1; the first is the
    category address, and each later one is the address the pagination of the
    page before it names. What it returns is the companies of the requested pages
    in that order, where a page without response or with an exception gives
    nothing and ends the loop. More iterations than the limit would change
    nothing. *)
Theorem scrape_category_pages (category_url subcategory_name : string) :
  let data := fst (scrape_category category_url subcategory_name) in
  let requests := snd (scrape_category category_url subcategory_name) in
  data = flat_map (companies_of subcategory_name) requests
  /\ Z.of_nat (length requests) <= Z.max 0 max_pages_per_category
  /\ (category_url = EmptyString -> requests = [])
  /\ (forall r, hd_error requests = Some r -> r = (1, category_url))
  /\ linked subcategory_name requests
  /\ (forall r, In r requests ->
        page (fst r) subcategory_name (snd r) = None -> r = last requests r)
  /\ (forall fuel, (Z.to_nat max_pages_per_category <= fuel)%nat ->
        pages fuel subcategory_name (Some category_url) 0 [] []
        = scrape_category category_url subcategory_name).
Proof.
  cbv zeta. unfold scrape_category.
  destruct (pages_spec (Z.to_nat max_pages_per_category) subcategory_name
              (Some category_url) 0) as [D [L [_ [K H]]]].
  split; [exact D|]. split; [lia|]. split; [|split; [|split; [|split]]].
  - intros ->. now destruct (Z.to_nat max_pages_per_category).
  - intros [n u] R. destruct (H _ R) as [H1 H2]. simpl in H1, H2.
    inversion H2. subst. reflexivity.
  - exact K.
  - intros r. now apply linked_last.
  - intros fuel LE. rewrite pages_fuel; rewrite Z.sub_0_r; [reflexivity | exact LE].
Qed.

End Pages.

End Category.

Module CategoryExamples.
Import Py Category.
Local Open Scope Z_scope.

(** A category of three pages; a page is known by its number. *)
Definition load (page_count : Z) (url : string) : result (option nat) :=
  if String.eqb url "https://clutch.co/developers" then Ret (Some 1%nat)
  else if String.eqb url "https://clutch.co/developers?page=1" then Ret (Some 2%nat)
  else if String.eqb url "https://clutch.co/developers?page=2" then Ret (Some 3%nat)
  else Ret None.

Definition company (name : string) (page_url : string) : ScrapedData.t :=
  ScrapedData.init "2024-01-01T00:00:00" (Some "Web Developers")
    (Some (CompetitorInfo.mk (Some name) [])) None (Some page_url) None.

Definition extract (soup : nat) (subcategory_name page_url : string)
  : result (list ScrapedData.t) :=
  match soup with
  | 1%nat => Ret [company "Acme" page_url; company "Globex" page_url]
  | 2%nat => Ret [company "Initech" page_url]
  | _ => Raise (OtherError "unexpected page")
  end.

Definition pagination (soup : nat) : Pagination.info :=
  match soup with
  | 1%nat => Pagination.mk_info 1 1 true (Some "https://clutch.co/developers?page=1")
  | 2%nat => Pagination.mk_info 2 1 true (Some "https://clutch.co/developers?page=2")
  | _ => Pagination.initial
  end.

Definition scrape (max_pages : Z) : list ScrapedData.t * list (Z * string) :=
  scrape_category nat max_pages load extract pagination
    "https://clutch.co/developers" "Web Developers".

Example two_pages :
  scrape 2
  = ([company "Acme" "https://clutch.co/developers";
      company "Globex" "https://clutch.co/developers";
      company "Initech" "https://clutch.co/developers?page=1"],
     [(1, "https://clutch.co/developers");
      (2, "https://clutch.co/developers?page=1")]).
Proof. reflexivity. Qed.

Example third_page_fails :
  map fst (snd (scrape 5)) = [1; 2; 3] /\ length (fst (scrape 5)) = 3%nat.
Proof. split; reflexivity. Qed.

Lemma scrape_category_pages_witness :
  (3, "https://clutch.co/developers?page=2")
  = last (snd (scrape 5)) (3, "https://clutch.co/developers?page=2")
  /\ pages nat 5 load extract pagination 7 "Web Developers"
       (Some "https://clutch.co/developers") 0 [] []
     = scrape 5.
Proof.
  pose proof (scrape_category_pages nat 5 load extract pagination
                "https://clutch.co/developers" "Web Developers") as H.
  cbv zeta in H. destruct H as [_ [_ [_ [_ [_ [LAST FUEL]]]]]]. split.
  - apply LAST; [right; right; left; reflexivity | reflexivity].
  - apply FUEL. simpl. lia.
Defined.

End CategoryExamples.
(* ================================================================= *)
(** ** utils.py: [extract_company_id_from_url] and [build_company_url] *)

Module CompanyUrl.
Import Py Re.
Local Open Scope regex_scope.

(** The class "[^/?]". *)
Definition id_char (c : ascii) : bool := negb (Ascii.eqb c "/" || Ascii.eqb c "?").

(** The pattern "/profile/([^/?]+)". *)
Definition profile_pattern : regex := Lit "/profile/" >> Group 1 (Plus id_char).

Definition extract_company_id_from_url (url : string) : result (option string) :=
  match url with
  | EmptyString => Ret None
  | _ =>
      match search profile_pattern url with
      | Some m => group m 1
      | None => Ret None
      end
  end.

Definition build_company_url (company_id : string) : string :=
  ("https://clutch.co/profile/" ++ company_id)%string.

Lemma search_from_skip (r : regex) (i : nat) (a : ascii) (s : string) :
  match_at r (String a s) = None ->
  search_from r i (String a s) = search_from r (S i) s.
Proof. intros M. rewrite search_from_unfold. now rewrite M. Qed.

Lemma run_lit_inv {R : Type} (w : string) (k : string -> captures -> option R)
    (s : string) (c : captures) (x : R) :
  run (Lit w) k s c = Some x -> exists s', s = (w ++ s')%string /\ k s' c = Some x.
Proof.
  revert s. induction w as [|a w IH]; intros s H.
  - exists s. now split.
  - cbn [Lit] in H. rewrite run_seq in H. cbn [run] in H.
    destruct s as [|b s]; [discriminate|].
    destruct (Ascii.eqb_spec a b) as [->|]; [|discriminate].
    apply IH in H. destruct H as [s' [-> K]]. exists s'. now split.
Qed.

(** A match of the pattern: the literal, then the longest run of id characters. *)
Lemma profile_match_at (s rest : string) (c : captures) :
  match_at profile_pattern s = Some (rest, c) ->
  exists w, s = ("/profile/" ++ w ++ rest)%string /\ w <> EmptyString
            /\ all_of id_char w = true /\ c = [(1, w)].
Proof.
  unfold match_at, profile_pattern. rewrite run_seq. intros H.
  apply run_lit_inv in H. destruct H as [s' [-> H]].
  apply run_group_plus_inv in H. destruct H as [w [rest' [-> [NE [A K]]]]].
  inversion K; subst. exists w. now repeat split.
Qed.

(** What [group] reads of a match does not depend on where the search began. *)
Lemma search_from_group (r : regex) (s : string) (i j : nat) :
  match search_from r i s with
  | Some m => group m 1
  | None => Ret None
  end
  = match search_from r j s with
    | Some m => group m 1
    | None => Ret None
    end.
Proof.
  revert i j. induction s as [|a s IH]; intros i j;
    rewrite (search_from_unfold r i), (search_from_unfold r j).
  - destruct (match_at r EmptyString) as [[rest c]|]; reflexivity.
  - destruct (match_at r (String a s)) as [[rest c]|]; [reflexivity | apply IH].
Qed.

(** The pattern does not match where no id character follows the literal. *)
Lemma profile_no_match (id : string) :
  stops id_char id = true ->
  match_at profile_pattern ("/profile/" ++ id) = None
  /\ match_at profile_pattern ("/" ++ id) = None.
Proof.
  intros ST. split.
  - unfold match_at, profile_pattern. rewrite run_seq, run_lit_app.
    destruct id as [|a id]; [reflexivity|]. cbn [stops] in ST.
    apply negb_true_iff in ST. unfold Plus. cbn [run]. now rewrite ST.
  - destruct id as [|a id]; [reflexivity|]. cbn [stops] in ST.
    apply negb_true_iff in ST.
    destruct (Ascii.eqb_spec "p" a) as [<-|NE]; [discriminate ST|].
    unfold match_at, profile_pattern. cbn [append Lit run].
    change (Ascii.eqb "/" "/") with true. cbv iota.
    destruct (Ascii.eqb_spec "p" a); [congruence | reflexivity].
Qed.

Lemma round_trip_empty_segment (id : string) :
  stops id_char id = true ->
  extract_company_id_from_url (build_company_url id) = extract_company_id_from_url id.
Proof.
  intros ST. destruct (profile_no_match id ST) as [M1 M2].
  unfold build_company_url, extract_company_id_from_url at 1.
  cbn [append]. unfold search.
  do 17 (rewrite search_from_skip by reflexivity).
  cbn [append] in M1. rewrite search_from_skip by exact M1.
  do 7 (rewrite search_from_skip by reflexivity).
  cbn [append] in M2. rewrite search_from_skip by exact M2.
  unfold extract_company_id_from_url. destruct id as [|a id].
  - reflexivity.
  - unfold search. apply search_from_group.
Qed.
(** X12. [extract_company_id_from_url] never raises. An id it returns is not
    empty, has no "/" and no "?", and stands in the address right after
    "/profile/". On an address made by [build_company_url] from an id that
    begins with an id character, it gives back the id up to its first "/" or
    "?", the whole id when it has neither; for an id that is empty or begins
    with "/" or "?" it gives what it gives for the id itself, read as an
    address. *)
Theorem extract_company_id_round_trip :
  (forall url, exists o, extract_company_id_from_url url = Ret o)
  /\ (forall url id, extract_company_id_from_url url = Ret (Some id) ->
        id <> EmptyString /\ all_of id_char id = true
        /\ exists before after, url = (before ++ "/profile/" ++ id ++ after)%string)
  /\ (forall id rest,
        id <> EmptyString -> all_of id_char id = true -> stops id_char rest = true ->
        extract_company_id_from_url (build_company_url (id ++ rest)) = Ret (Some id))
  /\ (forall id,
        stops id_char id = true ->
        extract_company_id_from_url (build_company_url id)
        = extract_company_id_from_url id).
Proof.
  assert (FOUND : forall url m, search profile_pattern url = Some m ->
            exists before after w,
              url = (before ++ "/profile/" ++ w ++ after)%string
              /\ w <> EmptyString /\ all_of id_char w = true
              /\ group m 1 = Ret (Some w)).
  { intros url m S. pose proof (search_groups_len _ _ _ S) as G.
    apply search_from_match_at in S.
    destruct S as [s1 [s2 [rest [U [M _]]]]].
    apply profile_match_at in M. destruct M as [w [-> [NE [A C]]]].
    exists s1, rest, w. split; [exact U|]. split; [exact NE|]. split; [exact A|].
    unfold group. rewrite G, C. reflexivity. }
  split; [|split; [|split]].
  - intros url. unfold extract_company_id_from_url.
    destruct url as [|a u]; [now eexists|].
    destruct (search profile_pattern (String a u)) as [m|] eqn:S; [|now eexists].
    destruct (FOUND _ m S) as [_ [_ [w [_ [_ [_ G]]]]]]. rewrite G. now eexists.
  - intros url id E. unfold extract_company_id_from_url in E.
    destruct url as [|a u]; [discriminate|].
    destruct (search profile_pattern (String a u)) as [m|] eqn:S; [|discriminate].
    destruct (FOUND _ m S) as [before [after [w [U [NE [A G]]]]]].
    rewrite G in E. inversion E; subst w. split; [exact NE|]. split; [exact A|].
    now exists before, after.
  - intros id rest NE A ST. unfold build_company_url, extract_company_id_from_url.
    cbn [append]. unfold search.
    do 17 (rewrite search_from_skip by reflexivity).
    rewrite search_from_unfold.
    assert (M : match_at profile_pattern ("/profile/" ++ id ++ rest)
                = Some (rest, [(1, id)])).
    { unfold match_at, profile_pattern. rewrite run_seq, run_lit_app.
      now apply run_group_plus. }
    cbn [append] in M. rewrite M. reflexivity.
  - exact round_trip_empty_segment.
Qed.

End CompanyUrl.

Module CompanyUrlExamples.
Import Py Re CompanyUrl.

Example extract_ex1 :
  extract_company_id_from_url "https://clutch.co/profile/acme-labs?page=2#reviews"
  = Ret (Some "acme-labs").
Proof. reflexivity. Qed.

Example extract_ex2 : extract_company_id_from_url "https://clutch.co/profile/" = Ret None.
Proof. reflexivity. Qed.

Lemma extract_company_id_round_trip_witness :
  extract_company_id_from_url (build_company_url "acme-labs") = Ret (Some "acme-labs")
  /\ extract_company_id_from_url (build_company_url "acme/reviews") = Ret (Some "acme")
  /\ extract_company_id_from_url (build_company_url "/profile/zed")
     = extract_company_id_from_url "/profile/zed"
  /\ extract_company_id_from_url (build_company_url "?x")
     = extract_company_id_from_url "?x".
Proof.
  split; [|split; [|split]].
  - apply (proj1 (proj2 (proj2 extract_company_id_round_trip))
             "acme-labs" EmptyString); [discriminate | reflexivity | reflexivity].
  - apply (proj1 (proj2 (proj2 extract_company_id_round_trip))
             "acme" "/reviews"); [discriminate | reflexivity | reflexivity].
  - apply (proj2 (proj2 (proj2 extract_company_id_round_trip)) "/profile/zed").
    reflexivity.
  - apply (proj2 (proj2 (proj2 extract_company_id_round_trip)) "?x"). reflexivity.
Defined.

Example empty_first_segment :
  extract_company_id_from_url (build_company_url "/profile/zed") = Ret (Some "zed")
  /\ extract_company_id_from_url (build_company_url "?x") = Ret None
  /\ extract_company_id_from_url (build_company_url "") = Ret None.
Proof. repeat split. Qed.

End CompanyUrlExamples.

(* ================================================================= *)
(** ** scraper.py: [_extract_detailed_company_info] and [scrape_company_details] *)

Module Details.
Import Py.

(** [sub in s] for two strings. *)
Fixpoint contains (sub s : string) : bool :=
  String.prefix sub s
  || match s with
     | EmptyString => false
     | String _ s' => contains sub s'
     end.

(** [str.isdigit] on one character: the decimal digits and the superscripts
    one, two and three. *)
Definition isdigit_char (c : ascii) : bool :=
  in_range 48 57 c || (code c =? 178)%N || (code c =? 179)%N || (code c =? 185)%N.

Fixpoint all_digits (s : string) : bool :=
  match s with
  | EmptyString => true
  | String a s' => isdigit_char a && all_digits s'
  end.

(** [str.isdigit]: false on the empty string. *)
Definition isdigit (s : string) : bool := truthy_str s && all_digits s.

(** [s.split(sep)] for a separator that is not empty: [skip] counts the
    characters of a separator still to be passed over, [piece] is the piece
    being read. *)
Fixpoint split_from (sep : string) (skip : nat) (piece : string) (s : string)
  : list string :=
  match s with
  | EmptyString => [piece]
  | String a s' =>
      match skip with
      | S n => split_from sep n piece s'
      | O =>
          if String.prefix sep s
          then piece :: split_from sep (String.length sep - 1) EmptyString s'
          else split_from sep 0 (piece ++ String a EmptyString) s'
      end
  end.

Definition split (sep s : string) : list string := split_from sep 0 EmptyString s.

(** The dict [company_info] of [_extract_detailed_company_info]: a field is
    [None] while the dict lacks the key. *)
Record company_info : Type := mk_info {
  name : option (option string);
  locations : option (list string)
}.

Definition empty_info : company_info := mk_info None None.

(** [company_info.get('name')] *)
Definition get_name (info : company_info) : option string :=
  match name info with
  | Some v => v
  | None => None
  end.

(** [company_info.get('locations', [])] *)
Definition get_locations (info : company_info) : list string :=
  match locations info with
  | Some l => l
  | None => []
  end.

(** The texts that keep a span from being read as a city. *)
Definition region_marks : list string := [","; "United States"; "CA"; "NY"; "TX"].

(** One span of a location element: [city] and [state] as they are after it. *)
Definition read_span (found : option string * option string) (span_text : string)
  : option string * option string :=
  let (city, state) := found in
  if truthy_str span_text && (1 <? String.length span_text)%nat then
    if negb (truthy city)
       && negb (existsb (fun c => contains c span_text) region_marks)
    then
      if negb (isdigit span_text)
         && negb (contains "suite" (lower span_text))
         && negb (contains "blvd" (lower span_text))
      then (Some span_text, state)
      else (city, state)
    else if contains ", " span_text && negb (truthy state) then
      let parts := split ", " span_text in
      if (2 <=? length parts)%nat
         && (String.length (nth 1 parts EmptyString) =? 2)%nat
      then ((if truthy city then city else Some (nth 0 parts EmptyString)),
            Some (nth 1 parts EmptyString))
      else (city, state)
    else (city, state)
  else (city, state).

(** [x in locations] *)
Definition listed (x : string) (locations : list string) : bool :=
  existsb (String.eqb x) locations.

(** What a location element adds to [locations], from its city and state. *)
Definition add_location (locations : list string)
    (found : option string * option string) : list string :=
  let (city, state) := found in
  if truthy city && truthy state then
    let location_str := (or_empty city ++ ", " ++ or_empty state)%string in
    if listed location_str locations then locations else locations ++ [location_str]
  else if truthy city then
    if listed (or_empty city) locations then locations
    else locations ++ [or_empty city]
  else locations.

Section Page.

(** The page library: [soup.find(name)], [soup.select(selector)],
    [element.find_all(name)] and [element.get_text()]; a search may raise. *)
Variable Soup : Type.
Variable Tag : Type.
Variable truthy_tag : Tag -> bool.
Variable find : Soup -> string -> result (option Tag).
Variable select : Soup -> string -> result (list Tag).
Variable find_all : Tag -> string -> result (list Tag).
Variable get_text : Tag -> string.

Definition truthy_element (e : option Tag) : bool :=
  match e with
  | Some t => truthy_tag t
  | None => false
  end.

(** The loop over the spans of one location element. *)
Definition read_spans (spans : list Tag) : option string * option string :=
  fold_left (fun found span => read_span found (Reviews._clean_text (get_text span)))
    spans (None, None).

(** The loop over [location_elements[:3]]. *)
Fixpoint read_locations (location_elements : list Tag) (locations : list string)
  : result (list string) :=
  match location_elements with
  | [] => Ret locations
  | loc_elem :: rest =>
      bind (find_all loc_elem "span") (fun spans =>
      read_locations rest (add_location locations (read_spans spans)))
  end.

(** [soup.find('h1') or soup.find('h2')] *)
Definition find_name_element (soup : Soup) : result (option Tag) :=
  bind (find soup "h1") (fun h1 =>
  if truthy_element h1 then Ret h1 else find soup "h2").

(** The statements of the [try] about the name: the dict after them. *)
Definition name_step (soup : Soup) : result company_info :=
  bind (find_name_element soup) (fun name_element =>
  match name_element with
  | Some e =>
      if truthy_tag e
      then bind (DataCleaner.clean_text (Some (get_text e))) (fun n =>
           Ret (mk_info (Some n) None))
      else Ret empty_info
  | None => Ret empty_info
  end).

(** The statements about the locations: the list to store, if any. *)
Definition locations_step (soup : Soup) : result (option (list string)) :=
  bind (select soup ".detailed-address.location_element") (fun location_elements =>
  match location_elements with
  | [] => Ret None
  | _ =>
      bind (read_locations (firstn 3 location_elements) []) (fun locations =>
      match locations with
      | [] => Ret None
      | _ => Ret (Some locations)
      end)
  end).

(** An exception leaves the dict as it is at that point. *)
Definition _extract_detailed_company_info (soup : Soup) : company_info :=
  match name_step soup with
  | Ret info =>
      match locations_step soup with
      | Ret (Some locations) => mk_info (name info) (Some locations)
      | _ => info
      end
  | Raise _ => empty_info
  end.

(** A location as the loop writes it: a city, or a city and a state of two
    characters. *)
Definition location_shape (x : string) : Prop :=
  exists city, city <> EmptyString
    /\ (x = city
        \/ exists state, String.length state = 2
                         /\ x = (city ++ ", " ++ state)%string).

Lemma listed_In (x : string) (l : list string) : listed x l = true <-> In x l.
Proof.
  unfold listed. rewrite existsb_exists. split.
  - intros [y [IN E]]. apply String.eqb_eq in E. now subst.
  - intros IN. exists x. split; [exact IN | apply String.eqb_refl].
Qed.

Lemma truthy_or_empty (o : option string) :
  truthy o = true -> o = Some (or_empty o) /\ or_empty o <> EmptyString.
Proof. destruct o as [[|a s]|]; try discriminate. now split. Qed.

Lemma or_empty_some (s : string) : or_empty (Some s) = s.
Proof. now destruct s. Qed.

(** A state that was read has two characters. *)
Lemma read_span_state (found : option string * option string) (span_text : string) :
  (truthy (snd found) = true -> String.length (or_empty (snd found)) = 2) ->
  truthy (snd (read_span found span_text)) = true ->
  String.length (or_empty (snd (read_span found span_text))) = 2.
Proof.
  destruct found as [city state]. unfold read_span. intros H.
  destruct (truthy_str span_text && (1 <? String.length span_text)%nat); [|exact H].
  destruct (negb (truthy city)
            && negb (existsb (fun c => contains c span_text) region_marks)).
  - destruct (negb (isdigit span_text) && negb (contains "suite" (lower span_text))
              && negb (contains "blvd" (lower span_text))); exact H.
  - destruct (contains ", " span_text && negb (truthy state)); [|exact H].
    destruct ((2 <=? length (split ", " span_text))%nat
              && (String.length (nth 1 (split ", " span_text) EmptyString) =? 2)%nat)
      eqn:C; [|exact H].
    apply andb_true_iff in C. destruct C as [_ C]. apply Nat.eqb_eq in C.
    cbn [snd]. intros _. now rewrite or_empty_some.
Qed.

Lemma read_spans_state (spans : list Tag) :
  truthy (snd (read_spans spans)) = true ->
  String.length (or_empty (snd (read_spans spans))) = 2.
Proof.
  unfold read_spans.
  assert (G : forall found,
            (truthy (snd found) = true -> String.length (or_empty (snd found)) = 2) ->
            truthy (snd (fold_left
                           (fun found span =>
                              read_span found (Reviews._clean_text (get_text span)))
                           spans found)) = true ->
            String.length
              (or_empty (snd (fold_left
                                (fun found span =>
                                   read_span found (Reviews._clean_text (get_text span)))
                                spans found))) = 2).
  { induction spans as [|span spans IH]; intros found H; [exact H|].
    cbn [fold_left]. apply IH. now apply read_span_state. }
  apply G. discriminate.
Qed.

(** The list of locations as the loop keeps it. *)
Definition well_formed (l : list string) : Prop :=
  NoDup l /\ forall x, In x l -> location_shape x.

Lemma add_location_well_formed (l : list string) (found : option string * option string) :
  (truthy (snd found) = true -> String.length (or_empty (snd found)) = 2) ->
  well_formed l ->
  well_formed (add_location l found)
  /\ length (add_location l found) <= S (length l).
Proof.
  destruct found as [city state]. cbn [snd]. intros ST [ND SH]. unfold add_location.
  assert (ADD : forall x, location_shape x ->
            well_formed (if listed x l then l else l ++ [x])
            /\ length (if listed x l then l else l ++ [x]) <= S (length l)).
  { intros x X. destruct (listed x l) eqn:L.
    - split; [now split | lia].
    - split; [split|].
      + apply NoDup_app; [exact ND | repeat constructor; intros [] |].
        intros y IN [<-|[]]. apply listed_In in IN. congruence.
      + intros y IN. apply in_app_or in IN. destruct IN as [IN|[<-|[]]]; auto.
      + rewrite length_app. simpl. lia. }
  destruct (truthy city) eqn:TC; cbn [andb].
  - apply truthy_or_empty in TC. destruct TC as [_ NE].
    destruct (truthy state) eqn:TS.
    + apply ADD. exists (or_empty city). split; [exact NE|]. right.
      exists (or_empty state). split; [now apply ST | reflexivity].
    + apply ADD. exists (or_empty city). split; [exact NE | now left].
  - split; [now split | lia].
Qed.

Lemma read_locations_well_formed (location_elements : list Tag)
    (l result : list string) :
  well_formed l -> read_locations location_elements l = Ret result ->
  well_formed result /\ length result <= length l + length location_elements.
Proof.
  revert l. induction location_elements as [|e rest IH]; intros l WF R.
  - inversion R; subst. split; [exact WF | simpl; lia].
  - cbn [read_locations] in R.
    destruct (find_all e "span") as [spans|x]; [|discriminate]. cbn [bind] in R.
    destruct (add_location_well_formed l (read_spans spans)
                (read_spans_state spans) WF) as [WF' LEN].
    destruct (IH _ WF' R) as [WF'' LEN'']. split; [exact WF''|]. simpl. lia.
Qed.

Lemma locations_step_stored (soup : Soup) (l : list string) :
  locations_step soup = Ret (Some l) ->
  l <> [] /\ length l <= 3 /\ NoDup l
  /\ (forall x, In x l -> location_shape x)
  /\ exists location_elements,
       select soup ".detailed-address.location_element" = Ret location_elements
       /\ length l <= length location_elements.
Proof.
  unfold locations_step.
  destruct (select soup ".detailed-address.location_element") as [els|x];
    [|discriminate]. cbn [bind].
  destruct els as [|e els]; [discriminate|].
  destruct (read_locations (firstn 3 (e :: els)) []) as [result|x] eqn:R;
    [|discriminate]. cbn [bind].
  destruct result as [|r result]; [discriminate|]. intros H. inversion H; subst l.
  assert (WF0 : well_formed []) by (split; [constructor | intros x []]).
  destruct (read_locations_well_formed _ _ _ WF0 R) as [[ND SH] LEN].
  pose proof (firstn_le_length 3 (e :: els)) as F1.
  pose proof (length_firstn 3 (e :: els)) as F2.
  change (length (@nil string)) with 0 in LEN.
  split; [discriminate|]. split; [lia|]. split; [exact ND|].
  split; [exact SH|]. exists (e :: els). split; [reflexivity | lia].
Qed.

(** The name step stores no locations. *)
Lemma name_step_locations (soup : Soup) (info : company_info) :
  name_step soup = Ret info -> locations info = None.
Proof.
  unfold name_step.
  destruct (find_name_element soup) as [[e|]|x]; cbn [bind]; try discriminate;
    try (intros H; now inversion H).
  destruct (truthy_tag e); [|intros H; now inversion H].
  destruct (DataCleaner.clean_text (Some (get_text e))); cbn [bind];
    [|discriminate]. intros H. now inversion H.
Qed.

Lemma stored_locations_bound (soup : Soup) (l : list string) :
  locations (_extract_detailed_company_info soup) = Some l -> length l <= 3.
Proof.
  unfold _extract_detailed_company_info.
  destruct (name_step soup) as [info|x] eqn:N; [|discriminate].
  destruct (locations_step soup) as [[l'|]|x] eqn:L.
  - cbn [locations]. intros E. inversion E; subst l'.
    now apply locations_step_stored in L.
  - rewrite (name_step_locations _ _ N). discriminate.
  - rewrite (name_step_locations _ _ N). discriminate.
Qed.

(** X13. When [_extract_detailed_company_info] stores a list of locations, the
    list is not empty, has at most three entries and no more than the page has
    location elements, and no entry twice; each entry is a non-empty city, or a
    non-empty city, a comma and a blank, and a state of two characters. A name
    that is stored is [None] or a non-empty text. *)
Theorem detailed_info_locations (soup : Soup) :
  let info := _extract_detailed_company_info soup in
  (forall l, locations info = Some l ->
     l <> [] /\ length l <= 3 /\ NoDup l
     /\ (forall x, In x l -> location_shape x)
     /\ exists location_elements,
          select soup ".detailed-address.location_element" = Ret location_elements
          /\ length l <= length location_elements)
  /\ (forall n, name info = Some (Some n) -> n <> EmptyString).
Proof.
  cbv zeta. unfold _extract_detailed_company_info.
  assert (NAME : forall info n, name_step soup = Ret info ->
                   name info = Some (Some n) -> n <> EmptyString).
  { unfold name_step. intros info n.
    destruct (find_name_element soup) as [[e|]|x]; cbn [bind]; try discriminate;
      try (intros H; inversion H; discriminate).
    destruct (truthy_tag e); [|intros H; inversion H; discriminate].
    destruct (DataCleaner.clean_text_returns (Some (get_text e))) as [o C].
    rewrite C. cbn [bind]. intros H. inversion H. cbn [name]. intros E.
    inversion E; subst o. unfold DataCleaner.clean_text in C.
    destruct (get_text e) as [|a t]; [discriminate|].
    destruct (truthy_str (Re.sub DataCleaner.whitespace_run " " (strip (String a t))))
      eqn:T; [|discriminate].
    inversion C as [E']. intros Z. rewrite Z in T. discriminate. }
  destruct (name_step soup) as [info|x] eqn:N.
  2:{ split; discriminate. }
  destruct (locations_step soup) as [[l|]|x] eqn:L.
  - split.
    + cbn [locations]. intros l' E. inversion E; subst l'.
      now apply locations_step_stored.
    + cbn [name]. intros n. now apply NAME.
  - split; [|intros n; now apply NAME].
    rewrite (name_step_locations _ _ N). discriminate.
  - split; [|intros n; now apply NAME].
    rewrite (name_step_locations _ _ N). discriminate.
Qed.

(** *** [scrape_company_details] *)

(** [validate_url(company_url)], which never raises. *)
Variable validate_url : string -> bool.

(** The page behind an address during the call of iteration [attempt] of the
    retry wrapper: [session_manager.get] followed by the parser. [Ret None]
    stands for no response, [Raise] for an exception of either. *)
Variable load : Z -> string -> result (option Soup).

(** [_extract_reviews(soup)], which never raises. *)
Variable _extract_reviews : Soup -> list ReviewerInfo.t.

(** [datetime.now().isoformat()] when a record is built. *)
Variable now : string.

Definition _scrape_reviews_from_page (attempt : Z) (reviews_url : string)
  : result (list ReviewerInfo.t) :=
  bind (load attempt reviews_url) (fun response =>
  match response with
  | Some soup => Ret (_extract_reviews soup)
  | None => Ret []
  end).

(** The record of a company page. *)
Definition detailed_record (info : company_info) (reviewers : list ReviewerInfo.t)
    (company_url subcategory_name : string) : ScrapedData.t :=
  ScrapedData.init now (Some subcategory_name)
    (Some (CompetitorInfo.mk (get_name info) (get_locations info)))
    (Some reviewers) (Some company_url) (Some (company_url ++ "#reviews")%string).

(** The function under the decorator, in the call of iteration [attempt]. *)
Definition scrape_company_details_body (company_url subcategory_name : string)
    (attempt : Z) : result (list ScrapedData.t) :=
  if negb (validate_url company_url) then Ret []
  else
    bind (load attempt company_url) (fun response =>
    match response with
    | None => Ret []
    | Some soup =>
        let info := _extract_detailed_company_info soup in
        bind (_scrape_reviews_from_page attempt (company_url ++ "#reviews")%string)
          (fun reviewers =>
        Ret [detailed_record info reviewers company_url subcategory_name])
    end).

(** [scrape_company_details], decorated with [@retry(max_attempts=3, delay=2.0)]. *)
Definition scrape_company_details (company_url subcategory_name : string)
  : result (option (list ScrapedData.t)) * list Retry.event :=
  Retry.wrapper 3 2%float (scrape_company_details_body company_url subcategory_name).

Lemma body_returns (company_url subcategory_name : string) (attempt : Z)
    (records : list ScrapedData.t) :
  scrape_company_details_body company_url subcategory_name attempt = Ret records ->
  records = []
  \/ exists soup reviewers,
       validate_url company_url = true
       /\ load attempt company_url = Ret (Some soup)
       /\ records = [detailed_record (_extract_detailed_company_info soup) reviewers
                       company_url subcategory_name].
Proof.
  unfold scrape_company_details_body.
  destruct (validate_url company_url); cbn [negb]; [|intros H; inversion H; now left].
  destruct (load attempt company_url) as [[soup|]|x]; cbn [bind];
    [| intros H; inversion H; now left | discriminate].
  destruct (_scrape_reviews_from_page attempt (company_url ++ "#reviews"))
    as [reviewers|x]; cbn [bind]; [|discriminate].
  intros H. inversion H. right. now exists soup, reviewers.
Qed.

(** A list the decorated function returns is one its body returned. *)
Lemma scrape_company_details_some (company_url subcategory_name : string)
    (records : list ScrapedData.t) :
  fst (scrape_company_details company_url subcategory_name) = Ret (Some records) ->
  exists attempt,
    scrape_company_details_body company_url subcategory_name attempt = Ret records.
Proof.
  unfold scrape_company_details, Retry.wrapper.
  change (Retry.range 3) with [0; 1; 2]%Z.
  set (body := scrape_company_details_body company_url subcategory_name).
  cbn [Retry.loop].
  destruct (body 0%Z) as [r0|x0] eqn:B0.
  { intros H. inversion H; subst. now exists 0%Z. }
  cbn. destruct (body 1%Z) as [r1|x1] eqn:B1.
  { intros H. inversion H; subst. now exists 1%Z. }
  cbn. destruct (body 2%Z) as [r2|x2] eqn:B2; [|discriminate].
  intros H. inversion H; subst. now exists 2%Z.
Qed.

(** X14. The decorated [scrape_company_details] returns a list or raises; it never
    returns [None]. A list it returns is empty or holds the one record of the
    company page, whose [source_url] is the address asked for, whose
    [source_url_review] is that address followed by "#reviews", and whose
    competitor has at most three locations. An address that [validate_url]
    rejects gives the empty list at the first call, without any request. Three
    calls are made at most, and a third failure is raised to the caller. *)
Theorem scrape_company_details_records (company_url subcategory_name : string) :
  let outcome := scrape_company_details company_url subcategory_name in
  fst outcome <> Ret None
  /\ (forall records, fst outcome = Ret (Some records) ->
        records = []
        \/ exists record,
             records = [record]
             /\ ScrapedData.source_url record = Some company_url
             /\ ScrapedData.source_url_review record
                = Some (company_url ++ "#reviews")%string
             /\ ScrapedData.subcategory record = Some subcategory_name
             /\ exists c, ScrapedData.competitor record = Some c
                          /\ length (CompetitorInfo.locations c) <= 3)
  /\ (validate_url company_url = false ->
      outcome = (Ret (Some []), [Retry.Call 0]))
  /\ (forall e,
        (forall attempt,
           scrape_company_details_body company_url subcategory_name attempt = Raise e) ->
        outcome
        = (Raise e,
           [Retry.Call 0; Retry.Sleep 2%float; Retry.Call 1; Retry.Sleep 4%float;
            Retry.Call 2])).
Proof.
  cbv zeta. unfold scrape_company_details, Retry.wrapper.
  change (Retry.range 3) with [0; 1; 2]%Z.
  set (body := scrape_company_details_body company_url subcategory_name).
  assert (REC : forall attempt records, body attempt = Ret records ->
            records = []
            \/ exists record,
                 records = [record]
                 /\ ScrapedData.source_url record = Some company_url
                 /\ ScrapedData.source_url_review record
                    = Some (company_url ++ "#reviews")%string
                 /\ ScrapedData.subcategory record = Some subcategory_name
                 /\ exists c, ScrapedData.competitor record = Some c
                              /\ length (CompetitorInfo.locations c) <= 3).
  { intros attempt records B. apply body_returns in B.
    destruct B as [->|[soup [reviewers [_ [_ ->]]]]]; [now left|]. right.
    eexists. split; [reflexivity|]. split; [reflexivity|]. split.
    - unfold detailed_record, ScrapedData.init. cbn [ScrapedData.source_url_review].
      destruct company_url; reflexivity.
    - split; [reflexivity|]. eexists. split; [reflexivity|].
      cbn [CompetitorInfo.locations]. unfold get_locations.
      destruct (locations (_extract_detailed_company_info soup)) as [l|] eqn:L;
        [|simpl; lia].
      pose proof (stored_locations_bound soup l L). lia. }
  split; [|split; [|split]].
  - cbn [Retry.loop]. destruct (body 0%Z); [discriminate|]. cbn.
    destruct (body 1%Z); [discriminate|]. cbn.
    destruct (body 2%Z); discriminate.
  - intros records H.
    destruct (scrape_company_details_some company_url subcategory_name records H)
      as [attempt B].
    now apply REC with attempt.
  - intros V. cbn [Retry.loop]. subst body. unfold scrape_company_details_body.
    rewrite V. reflexivity.
  - intros e ALL. cbn [Retry.loop]. rewrite !ALL. reflexivity.
Qed.

End Page.

Arguments _extract_detailed_company_info {Soup Tag}.
Arguments scrape_company_details {Soup Tag}.

End Details.

Module DetailsExamples.
Import Py Details.

(** A company page as far as the extractor looks at it: its heading and the
    span texts of its address blocks. *)
Record page : Type := mk_page {
  heading : option string;
  addresses : list (list string)
}.

Inductive tag : Type :=
| Heading (text : string)
| Address (spans : list string)
| Span (text : string).

Definition find (soup : page) (name : string) : result (option tag) :=
  if String.eqb name "h1" then Ret (option_map Heading (heading soup)) else Ret None.

Definition select (soup : page) (selector : string) : result (list tag) :=
  Ret (map Address (addresses soup)).

Definition find_all (element : tag) (name : string) : result (list tag) :=
  match element with
  | Address spans => Ret (map Span spans)
  | _ => Ret []
  end.

Definition get_text (element : tag) : string :=
  match element with
  | Heading text => text
  | Span text => text
  | Address spans => String.concat " " spans
  end.

Definition info_of (soup : page) : company_info :=
  _extract_detailed_company_info (fun _ => true) find select find_all get_text soup.

Definition acme : page :=
  mk_page (Some "  Acme   Labs ")
    [["Austin"; ", TX"; "78701"];
     ["Suite 500"; "New York"; "New York, NY"];
     ["Austin"; ", TX"];
     ["Berlin"]].

Example acme_detailed_info :
  info_of acme = mk_info (Some (Some "Acme Labs")) (Some ["Austin, TX"; "New York, NY"]).
Proof. vm_compute. reflexivity. Qed.

Lemma detailed_info_locations_witness :
  length ["Austin, TX"; "New York, NY"] <= 3 /\ NoDup ["Austin, TX"; "New York, NY"].
Proof.
  destruct (proj1 (detailed_info_locations page tag (fun _ => true) find select
                     find_all get_text acme)
              ["Austin, TX"; "New York, NY"] eq_refl) as [_ [L [N _]]].
  split; [exact L | exact N].
Defined.

(** A site with the one company page, which has no review page. *)
Definition load (attempt : Z) (url : string) : result (option page) :=
  if String.eqb url "https://clutch.co/profile/acme" then Ret (Some acme)
  else Ret None.

Definition validate_url (url : string) : bool :=
  Details.contains "clutch.co" url.

Definition scrape (company_url : string)
  : result (option (list ScrapedData.t)) * list Retry.event :=
  scrape_company_details (fun _ => true) find select find_all get_text
    validate_url load (fun _ => []) "2024-01-01T00:00:00" company_url "Web Developers".

Example scrape_acme :
  fst (scrape "https://clutch.co/profile/acme")
  = Ret (Some [ScrapedData.mk "Development" (Some "Web Developers")
                 (Some (CompetitorInfo.mk (Some "Acme Labs")
                          ["Austin, TX"; "New York, NY"]))
                 [] (Some "2024-01-01T00:00:00")
                 (Some "https://clutch.co/profile/acme")
                 (Some "https://clutch.co/profile/acme#reviews")]).
Proof. vm_compute. reflexivity. Qed.

Lemma scrape_company_details_records_witness :
  scrape "https://example.com/profile/acme" = (Ret (Some []), [Retry.Call 0%Z]).
Proof.
  apply (proj1 (proj2 (proj2
           (scrape_company_details_records page tag (fun _ => true) find select
              find_all get_text validate_url load (fun _ => [])
              "2024-01-01T00:00:00" "https://example.com/profile/acme"
              "Web Developers")))).
  reflexivity.
Defined.

End DetailsExamples.

(* ================================================================= *)
(** ** scraper.py: how many records a listing page gives *)

Module PageLimits.
Import Py BasicInfo.
Local Open Scope Z_scope.

(** The call [self.scrape_company_details(...)] as [extract_companies_from_page]
    sees it: extending a list by [None] raises a [TypeError]. *)
Definition called {A : Type} (outcome : result (option (list A))) : result (list A) :=
  match outcome with
  | Ret (Some l) => Ret l
  | Ret None => Raise (OtherError "TypeError")
  | Raise e => Raise e
  end.

Lemma flat_map_bounded {A B : Type} (f : A -> list B) (l : list A) :
  (forall x, (length (f x) <= 1)%nat) -> (length (flat_map f l) <= length l)%nat.
Proof.
  intros F. induction l as [|x l IH]; simpl; [lia|].
  rewrite length_app. pose proof (F x). lia.
Qed.

Lemma slice_to_length {A : Type} (n : Z) (l : list A) :
  (length (slice_to n l) <= length l)%nat
  /\ (0 <= n -> (length (slice_to n l) <= Z.to_nat n)%nat)
  /\ (n < 0 -> (length (slice_to n l) <= length l - Z.to_nat (- n))%nat).
Proof.
  unfold slice_to. destruct (Z.ltb_spec n 0) as [NEG|POS].
  - pose proof (firstn_le_length (length l - Z.to_nat (- n)) l).
    rewrite length_firstn. repeat split; lia.
  - pose proof (firstn_le_length (Z.to_nat n) l).
    rewrite length_firstn. repeat split; lia.
Qed.

(** The decorated [scrape_company_details] of a site gives at most one record. *)
Lemma details_at_most_one (Soup Tag : Type) (truthy_tag : Tag -> bool)
    (find : Soup -> string -> result (option Tag))
    (select : Soup -> string -> result (list Tag))
    (find_all : Tag -> string -> result (list Tag)) (get_text : Tag -> string)
    (validate_url : string -> bool) (load : Z -> string -> result (option Soup))
    (_extract_reviews : Soup -> list ReviewerInfo.t) (now : string)
    (company_url subcategory_name : string) (records : list ScrapedData.t) :
  called (fst (Details.scrape_company_details truthy_tag find select find_all
                 get_text validate_url load _extract_reviews now company_url
                 subcategory_name)) = Ret records ->
  (length records <= 1)%nat.
Proof.
  unfold called.
  destruct (fst (Details.scrape_company_details truthy_tag find select find_all
                   get_text validate_url load _extract_reviews now company_url
                   subcategory_name)) as [[l|]|x] eqn:E; try discriminate.
  intros H. inversion H; subst l.
  apply Details.scrape_company_details_some in E. destruct E as [attempt B].
  apply Details.body_returns in B.
  destruct B as [->|[soup [reviewers [_ [_ ->]]]]]; simpl; lia.
Qed.

Section Page.

Variable Tag : Type.
Variable truthy_tag : Tag -> bool.
Variable select_one : Tag -> string -> option Tag.
Variable get_text : Tag -> string.
Variable get : Tag -> string -> option string.
Variable find_string : Tag -> Re.regex -> option string.
Variable urljoin : string -> string -> result string.
Variable scrape_company_details : string -> string -> result (list ScrapedData.t).
Variable now : string.
Variable max_companies_per_page : Z.

(** X15. When [scrape_company_details] gives at most one record for a company,
    [extract_companies_from_page] returns no more records than the page has
    company elements and, for a limit that is not negative, no more than
    [max_companies_per_page]; a negative limit does not switch the limit off
    but leaves out that many elements from the end of the page. *)
Theorem extract_companies_from_page_at_most (company_elements : list Tag)
    (subcategory_name page_url : string) :
  (forall company_url subcategory records,
     scrape_company_details company_url subcategory = Ret records ->
     (length records <= 1)%nat) ->
  let companies :=
    extract_companies_from_page Tag truthy_tag select_one get_text get find_string
      urljoin scrape_company_details now max_companies_per_page company_elements
      subcategory_name page_url in
  (length companies <= length company_elements)%nat
  /\ (0 <= max_companies_per_page ->
      (length companies <= Z.to_nat max_companies_per_page)%nat)
  /\ (max_companies_per_page < 0 ->
      (length companies
       <= length company_elements - Z.to_nat (- max_companies_per_page))%nat).
Proof.
  intros ONE. cbv zeta. unfold extract_companies_from_page.
  assert (B : forall l,
            (length (flat_map
                       (process_element Tag truthy_tag select_one get_text get
                          find_string urljoin scrape_company_details now
                          subcategory_name page_url) l) <= length l)%nat).
  { intros l. apply flat_map_bounded. intros element. unfold process_element.
    destruct (_extract_company_basic_info _ _ _ _ _ _ _ element) as [info|];
      [|simpl; lia].
    destruct (truthy_info info); [|simpl; lia].
    destruct (get_url info) as [[|a u]|]; try (simpl; lia).
    destruct (scrape_company_details (String a u) subcategory_name) as [l'|x] eqn:S;
      [|simpl; lia].
    now apply ONE in S. }
  pose proof (B (slice_to max_companies_per_page company_elements)) as L.
  destruct (slice_to_length max_companies_per_page company_elements) as [S1 [S2 S3]].
  split; [lia|]. split; intros H; [specialize (S2 H) | specialize (S3 H)]; lia.
Qed.

End Page.

End PageLimits.

Module PageLimitsExamples.
Import Py BasicInfo BasicInfoExamples PageLimits.
Local Open Scope Z_scope.

(** The company pages of the listing, through the decorated function. *)
Definition details (company_url subcategory_name : string)
  : result (list ScrapedData.t) :=
  called (fst (DetailsExamples.scrape company_url)).

Definition listing (max_companies_per_page : Z) (cards : list card)
  : list ScrapedData.t :=
  extract_companies_from_page card (fun _ => true) select_one card_text get
    (fun _ _ => None) urljoin details "2024-01-01T00:00:00" max_companies_per_page
    cards "Web Developers" "https://clutch.co/developers".

Example listing_ex :
  map ScrapedData.source_url (listing 20 [acme; no_link; no_href; acme])
  = [Some "https://clutch.co/profile/acme"; Some "https://clutch.co/profile/acme"].
Proof. vm_compute. reflexivity. Qed.

Lemma extract_companies_from_page_at_most_witness :
  (length (listing 1 [acme; no_link; no_href; acme]) <= 1)%nat
  /\ (length (listing (-3) [acme; no_link; no_href; acme]) <= 4 - 3)%nat.
Proof.
  assert (ONE : forall company_url subcategory records,
            details company_url subcategory = Ret records ->
            (length records <= 1)%nat).
  { intros company_url subcategory records. apply details_at_most_one. }
  split.
  - apply (proj1 (proj2
             (extract_companies_from_page_at_most card (fun _ => true) select_one
                card_text get (fun _ _ => None) urljoin details
                "2024-01-01T00:00:00" 1 [acme; no_link; no_href; acme]
                "Web Developers" "https://clutch.co/developers" ONE))). lia.
  - apply (proj2 (proj2
             (extract_companies_from_page_at_most card (fun _ => true) select_one
                card_text get (fun _ _ => None) urljoin details
                "2024-01-01T00:00:00" (-3) [acme; no_link; no_href; acme]
                "Web Developers" "https://clutch.co/developers" ONE))). lia.
Defined.

End PageLimitsExamples.

(* ================================================================= *)
(** ** scraper.py: [_find_company_elements] *)

Module CompanyElements.
Import Py.

Definition selectors : list string :=
  [("li[itemtype=" ++ BasicInfo.quote ++ "https://schema.org/Organization"
      ++ BasicInfo.quote ++ "]")%string;
   ".providers__list li";
   ("li[class*=" ++ BasicInfo.quote ++ "provider" ++ BasicInfo.quote ++ "]")%string;
   ("div[class*=" ++ BasicInfo.quote ++ "provider" ++ BasicInfo.quote ++ "]")%string;
   "li[itemscope]";
   ".company-tile";
   ".provider-card"].

Definition company_indicators : list string :=
  ["reviews"; "rating"; "stars"; "location"; "employees"; "founded"; "services"].

(** [sum(1 for indicator in company_indicators if indicator in text)] *)
Definition indicator_count (text : string) : nat :=
  length (filter (fun indicator => Details.contains indicator text) company_indicators).

Section Page.

(** The page library: [soup.select(selector)], [soup.find_all('div')], the
    text of an element with [get_text(strip=True)], and whether it has a link
    whose [href] contains "/profile/". *)
Variable Soup : Type.
Variable Tag : Type.
Variable select : Soup -> string -> list Tag.
Variable find_all_div : Soup -> list Tag.
Variable get_text : Tag -> string.
Variable has_profile_link : Tag -> bool.

Definition _looks_like_company_element (element : Tag) : bool :=
  (2 <=? indicator_count (lower (get_text element)))%nat || has_profile_link element.

(** The loop over the selectors, which stops at the first that selects
    something. *)
Fixpoint first_selected (soup : Soup) (selectors : list string) : list Tag :=
  match selectors with
  | [] => []
  | selector :: selectors' =>
      match select soup selector with
      | [] => first_selected soup selectors'
      | elements => elements
      end
  end.

Definition _find_company_elements (soup : Soup) : list Tag :=
  match first_selected soup selectors with
  | [] => filter _looks_like_company_element (find_all_div soup)
  | company_elements => company_elements
  end.

Lemma first_selected_cases (soup : Soup) (l : list string) :
  (first_selected soup l = [] /\ forall selector, In selector l -> select soup selector = [])
  \/ exists before selector after,
       l = before ++ selector :: after
       /\ (forall s, In s before -> select soup s = [])
       /\ select soup selector <> []
       /\ first_selected soup l = select soup selector.
Proof.
  induction l as [|selector l IH]; [left; split; [reflexivity | intros s []]|].
  simpl. destruct (select soup selector) as [|e elements] eqn:S.
  - destruct IH as [[E NONE]|[before [sel [after [-> [B [NE E]]]]]]].
    + left. split; [exact E|]. intros s [<-|IN]; [exact S | now apply NONE].
    + right. exists (selector :: before), sel, after. split; [reflexivity|].
      split; [|now split]. intros s [<-|IN]; [exact S | now apply B].
  - right. exists [], selector, l. split; [reflexivity|]. split; [intros s []|].
    rewrite S. split; [discriminate | reflexivity].
Qed.

(** X11. [_find_company_elements] returns what the first selector of its list
    that selects anything selects, all of it and in page order, whatever the later
    selectors would select; the [div]s of the page are looked at only when all
    seven selectors select nothing, and then the result is the [div]s that name
    two of the indicator words in their lower-cased text or hold a profile
    link. *)
Theorem _find_company_elements_first (soup : Soup) :
  (exists before selector after,
     selectors = before ++ selector :: after
     /\ (forall s, In s before -> select soup s = [])
     /\ select soup selector <> []
     /\ _find_company_elements soup = select soup selector)
  \/ ((forall selector, In selector selectors -> select soup selector = [])
      /\ _find_company_elements soup
         = filter _looks_like_company_element (find_all_div soup)
      /\ forall element, In element (_find_company_elements soup) ->
           In element (find_all_div soup)
           /\ ((2 <= indicator_count (lower (get_text element)))%nat
               \/ has_profile_link element = true)).
Proof.
  unfold _find_company_elements.
  destruct (first_selected_cases soup selectors)
    as [[E NONE]|[before [sel [after [L [B [NE E]]]]]]].
  - right. rewrite E. split; [exact NONE|]. split; [reflexivity|].
    intros element IN. apply filter_In in IN. destruct IN as [IN LOOKS].
    split; [exact IN|]. unfold _looks_like_company_element in LOOKS.
    apply orb_true_iff in LOOKS. destruct LOOKS as [C|P]; [left | now right].
    now apply Nat.leb_le in C.
  - left. exists before, sel, after. split; [exact L|]. split; [exact B|].
    split; [exact NE|]. rewrite E.
    destruct (select soup sel); [congruence | reflexivity].
Qed.

End Page.

End CompanyElements.

Module CompanyElementsExamples.
Import Py CompanyElements.

(** A page as far as the function looks at it: what two of the selectors select,
    and its [div]s; an element is known by its text. *)
Record page : Type := mk_page {
  provider_items : list string;
  tiles : list string;
  divs : list string
}.

Definition select (soup : page) (selector : string) : list string :=
  if String.eqb selector ".providers__list li" then provider_items soup
  else if String.eqb selector ".company-tile" then tiles soup
  else [].

Definition find (soup : page) : list string :=
  _find_company_elements page string select divs (fun text => text)
    (fun text => Details.contains "/profile/" text) soup.

Example providers_win :
  find (mk_page ["Acme"; "Globex"] ["Initech"] ["a div"]) = ["Acme"; "Globex"].
Proof. vm_compute. reflexivity. Qed.

Example fallback_divs :
  find (mk_page [] []
          ["Sign in"; "Acme 12 REVIEWS Location Austin"; "Services";
           "see /profile/globex"])
  = ["Acme 12 REVIEWS Location Austin"; "see /profile/globex"].
Proof. vm_compute. reflexivity. Qed.

End CompanyElementsExamples.

(* ================================================================= *)
(** ** The two text cleaners: [DataCleaner.clean_text] and [ClutchScraper._clean_text] *)

Module Cleaning.
Import Py Re.

(** Every run of white space replaced by one blank. *)
Fixpoint collapse (s : string) : string :=
  match s with
  | EmptyString => EmptyString
  | String a s' =>
      if isspace a then
        match s' with
        | EmptyString => " "
        | String b _ => if isspace b then collapse s' else String " " (collapse s')
        end
      else String a (collapse s')
  end.

(** A text in the form the cleaners give: it neither starts nor ends with white
    space, and its only white space is single blanks. *)
Fixpoint single_spaced (s : string) : bool :=
  match s with
  | EmptyString => true
  | String a s' =>
      if isspace a
      then Ascii.eqb a " "
           && match s' with
              | EmptyString => false
              | String b _ => negb (isspace b)
              end
           && single_spaced s'
      else single_spaced s'
  end.

Definition clean (s : string) : bool := stops isspace s && single_spaced s.

Lemma collapse_cons (a b : ascii) (s : string) :
  collapse (String a (String b s))
  = if isspace a
    then if isspace b then collapse (String b s)
         else String " " (collapse (String b s))
    else String a (collapse (String b s)).
Proof. reflexivity. Qed.

Lemma collapse_space (s : string) (a : ascii) :
  isspace a = true -> collapse (String a s) = String " " (collapse (lstrip s)).
Proof.
  intros A. revert a A. induction s as [|b s IH]; intros a A.
  - simpl. now rewrite A.
  - rewrite collapse_cons, A. cbn [lstrip]. destruct (isspace b) eqn:B.
    + now apply IH.
    + reflexivity.
Qed.

Lemma lstrip_length (s : string) : String.length (lstrip s) <= String.length s.
Proof.
  induction s as [|a s IH]; simpl; [lia|]. destruct (isspace a); simpl; lia.
Qed.

(** Greedy repetition before a continuation that always succeeds takes the
    whole run. *)
Lemma star_all {R : Type} (f : string -> R) (s : string) :
  star isspace (fun rest => Some (f rest)) s = Some (f (lstrip s)).
Proof.
  induction s as [|a s IH]; simpl; [reflexivity|].
  destruct (isspace a); [now rewrite IH | reflexivity].
Qed.

Lemma whitespace_run_match (a : ascii) (s : string) :
  match_at DataCleaner.whitespace_run (String a s)
  = if isspace a then Some (lstrip s, []) else None.
Proof.
  unfold match_at, DataCleaner.whitespace_run, Plus. rewrite run_seq. cbn [run].
  destruct (isspace a); [|reflexivity].
  apply (star_all (fun rest => (rest, @nil (nat * string)))).
Qed.

Lemma sub_from_skip (r : regex) (repl s : string) :
  sub_from r repl (String.length s - String.length (lstrip s)) s
  = sub_from r repl 0 (lstrip s).
Proof.
  induction s as [|b s IH]; [reflexivity|]. cbn [lstrip].
  destruct (isspace b).
  - pose proof (lstrip_length s).
    replace (String.length (String b s) - String.length (lstrip s))
      with (S (String.length s - String.length (lstrip s)))
      by (change (String.length (String b s)) with (S (String.length s)); lia).
    cbn [sub_from]. exact IH.
  - now rewrite Nat.sub_diag.
Qed.

(** The substitution of [clean_text] collapses the white space. *)
Lemma sub_whitespace_collapse (s : string) :
  sub DataCleaner.whitespace_run " " s = collapse s.
Proof.
  unfold sub. remember (String.length s) as n eqn:N. revert s N.
  induction n as [n IH] using lt_wf_ind. intros s N.
  destruct s as [|a s]; [reflexivity|]. cbn [sub_from].
  rewrite whitespace_run_match. destruct (isspace a) eqn:A.
  - pose proof (lstrip_length s) as L.
    replace (String.length (String a s) - String.length (lstrip s))
      with (S (String.length s - String.length (lstrip s)))
      by (change (String.length (String a s)) with (S (String.length s)); lia).
    rewrite sub_from_skip, collapse_space by exact A.
    rewrite (IH (String.length (lstrip s))); [reflexivity | | reflexivity].
    subst n. simpl. lia.
  - simpl. rewrite A. f_equal. apply (IH (String.length s)); [|reflexivity].
    subst n. simpl. lia.
Qed.

(** A substitution for a pattern whose class occurs nowhere changes nothing. *)
Lemma sub_absent (p : ascii -> bool) (repl s : string) :
  all_of (fun c => negb (p c)) s = true -> sub (Plus p) repl s = s.
Proof.
  unfold sub. induction s as [|a s IH]; [reflexivity|]. cbn [all_of sub_from].
  intros A. apply andb_true_iff in A. destruct A as [PA A].
  apply negb_true_iff in PA.
  assert (M : match_at (Plus p) (String a s) = None).
  { unfold match_at, Plus. rewrite run_seq. cbn [run]. now rewrite PA. }
  rewrite M. now rewrite IH.
Qed.

Lemma is_tab_space (c : ascii) : Reviews.is_tab c = true -> isspace c = true.
Proof.
  unfold Reviews.is_tab, isspace, in_range. intros T. apply N.eqb_eq in T.
  rewrite T. reflexivity.
Qed.

Lemma collapse_no_tab (s : string) :
  all_of (fun c => negb (Reviews.is_tab c)) (collapse s) = true.
Proof.
  assert (NS : forall a, isspace a = false -> negb (Reviews.is_tab a) = true).
  { intros a A. destruct (Reviews.is_tab a) eqn:T; [|reflexivity].
    apply is_tab_space in T. congruence. }
  induction s as [|a s IH]; [reflexivity|]. cbn [collapse].
  destruct (isspace a) eqn:A.
  - destruct s as [|b s]; [reflexivity|].
    destruct (isspace b); [exact IH|]. cbn [all_of]. now rewrite IH.
  - cbn [all_of]. now rewrite (NS a A), IH.
Qed.

(** *** Stripping and collapsing commute *)

Lemma lstrip_stops (s : string) : stops isspace (lstrip s) = true.
Proof.
  induction s as [|a s IH]; [reflexivity|]. cbn [lstrip].
  destruct (isspace a) eqn:A; [exact IH|]. simpl. now rewrite A.
Qed.

Lemma lstrip_id (s : string) : stops isspace s = true -> lstrip s = s.
Proof.
  destruct s as [|a s]; [reflexivity|]. simpl. intros A.
  apply negb_true_iff in A. now rewrite A.
Qed.

Lemma collapse_stops (s : string) :
  stops isspace s = true -> stops isspace (collapse s) = true.
Proof.
  destruct s as [|a s]; [reflexivity|]. cbn [stops]. intros A.
  assert (A' := A). apply negb_true_iff in A'. cbn [collapse]. rewrite A'. exact A.
Qed.

Lemma collapse_lstrip (s : string) : collapse (lstrip s) = lstrip (collapse s).
Proof.
  induction s as [|a s IH]; [reflexivity|]. cbn [lstrip].
  destruct (isspace a) eqn:A.
  - rewrite (collapse_space s a A). cbn [lstrip].
    change (isspace " ") with true. cbv iota.
    symmetry. apply lstrip_id, collapse_stops, lstrip_stops.
  - cbn [collapse]. rewrite A. cbn [lstrip]. now rewrite A.
Qed.

Lemma rstrip_nonspace (a : ascii) (s : string) :
  isspace a = false -> rstrip (String a s) = String a (rstrip s).
Proof. intros A. cbn [rstrip]. rewrite A. now destruct (rstrip s). Qed.

Lemma rstrip_space (a : ascii) (s : string) :
  isspace a = true ->
  rstrip (String a s) = match rstrip s with
                        | EmptyString => EmptyString
                        | t => String a t
                        end.
Proof. intros A. cbn [rstrip]. rewrite A. reflexivity. Qed.

Lemma lstrip_rstrip (s : string) : lstrip (rstrip s) = rstrip (lstrip s).
Proof.
  induction s as [|a s IH]; [reflexivity|]. destruct (isspace a) eqn:A.
  - rewrite (rstrip_space a s A). cbn [lstrip]. rewrite A. rewrite <- IH.
    destruct (rstrip s) as [|b t]; [reflexivity|].
    change (lstrip (String a (String b t)))
      with (if isspace a then lstrip (String b t) else String a (String b t)).
    now rewrite A.
  - rewrite (rstrip_nonspace a s A). cbn [lstrip]. rewrite A.
    now rewrite (rstrip_nonspace a s A).
Qed.

Lemma lstrip_empty_rstrip (s : string) :
  lstrip s = EmptyString -> rstrip s = EmptyString.
Proof.
  induction s as [|a s IH]; [reflexivity|]. cbn [lstrip].
  destruct (isspace a) eqn:A; [|discriminate].
  intros L. rewrite (rstrip_space a s A). now rewrite (IH L).
Qed.

Lemma rstrip_idem (s : string) : rstrip (rstrip s) = rstrip s.
Proof.
  induction s as [|a s IH]; [reflexivity|]. destruct (isspace a) eqn:A.
  - rewrite (rstrip_space a s A). destruct (rstrip s) as [|b t] eqn:R; [reflexivity|].
    rewrite (rstrip_space a (String b t) A). now rewrite IH.
  - rewrite (rstrip_nonspace a s A), (rstrip_nonspace a (rstrip s) A). now rewrite IH.
Qed.

Lemma lstrip_idem (s : string) : lstrip (lstrip s) = lstrip s.
Proof. apply lstrip_id, lstrip_stops. Qed.

Lemma strip_idem (s : string) : strip (strip s) = strip s.
Proof.
  unfold strip. rewrite <- (lstrip_rstrip (rstrip s)), rstrip_idem.
  apply lstrip_idem.
Qed.

Lemma collapse_empty (s : string) : collapse s = EmptyString -> s = EmptyString.
Proof.
  destruct s as [|a s]; [reflexivity|]. destruct (isspace a) eqn:A.
  - now rewrite (collapse_space s a A).
  - cbn [collapse]. now rewrite A.
Qed.

Lemma collapse_rstrip (s : string) : collapse (rstrip s) = rstrip (collapse s).
Proof.
  remember (String.length s) as n eqn:N. revert s N.
  induction n as [n IH] using lt_wf_ind. intros s N.
  destruct s as [|a s]; [reflexivity|]. destruct (isspace a) eqn:A.
  - rewrite (collapse_space s a A), (rstrip_space a s A).
    rewrite (rstrip_space " " _ eq_refl).
    pose proof (lstrip_length s) as L.
    rewrite <- (IH (String.length (lstrip s))); [| subst n; simpl; lia | reflexivity].
    rewrite <- lstrip_rstrip.
    destruct (rstrip s) as [|b t] eqn:R; [reflexivity|].
    rewrite (collapse_space (String b t) a A).
    destruct (collapse (lstrip (String b t))) as [|c u] eqn:C; [|reflexivity].
    apply collapse_empty, lstrip_empty_rstrip in C.
    rewrite <- R, rstrip_idem, R in C. discriminate.
  - rewrite (rstrip_nonspace a s A). cbn [collapse]. rewrite A.
    rewrite (rstrip_nonspace a _ A). f_equal.
    apply (IH (String.length s)); [subst n; simpl; lia | reflexivity].
Qed.

Lemma collapse_strip (s : string) : collapse (strip s) = strip (collapse s).
Proof. unfold strip. now rewrite collapse_lstrip, collapse_rstrip. Qed.

Lemma collapse_idem (s : string) : collapse (collapse s) = collapse s.
Proof.
  remember (String.length s) as n eqn:N. revert s N.
  induction n as [n IH] using lt_wf_ind. intros s N.
  destruct s as [|a s]; [reflexivity|]. destruct (isspace a) eqn:A.
  - rewrite (collapse_space s a A), (collapse_space _ " " eq_refl).
    rewrite <- collapse_lstrip, lstrip_idem. f_equal.
    pose proof (lstrip_length s) as L.
    apply (IH (String.length (lstrip s))); [subst n; simpl; lia | reflexivity].
  - cbn [collapse]. rewrite A. cbn [collapse]. rewrite A. f_equal.
    apply (IH (String.length s)); [subst n; simpl; lia | reflexivity].
Qed.

(** *** The form of a cleaned text *)

Lemma collapse_length (s : string) : String.length (collapse s) <= String.length s.
Proof.
  induction s as [|a s IH]; [simpl; lia|]. cbn [collapse].
  destruct (isspace a).
  - destruct s as [|b s]; [simpl; lia|].
    destruct (isspace b); cbn [String.length] in *; lia.
  - cbn [String.length]. lia.
Qed.

Lemma fixed_single_spaced (s : string) :
  collapse s = s -> rstrip s = s -> single_spaced s = true.
Proof.
  induction s as [|a s IH]; [reflexivity|]. intros C R. cbn [single_spaced].
  destruct (isspace a) eqn:A.
  - assert (RS : rstrip s = s /\ s <> EmptyString).
    { rewrite (rstrip_space a s A) in R.
      destruct (rstrip s) as [|b t]; [discriminate|]. injection R as R.
      split; [exact R | now rewrite <- R]. }
    destruct RS as [RS NE]. destruct s as [|b s]; [congruence|].
    rewrite collapse_cons, A in C. destruct (isspace b) eqn:B.
    + pose proof (collapse_length (String b s)) as L. rewrite C in L.
      cbn [String.length] in L. lia.
    + injection C as E C. subst a. cbn [negb andb].
      change (Ascii.eqb " " " ") with true. cbn [andb]. now apply IH.
  - cbn [collapse] in C. rewrite A in C. injection C as C.
    rewrite (rstrip_nonspace a s A) in R. injection R as R.
    now apply IH.
Qed.

Lemma single_spaced_fixed (s : string) :
  single_spaced s = true -> collapse s = s /\ rstrip s = s.
Proof.
  induction s as [|a s IH]; [now split|]. cbn [single_spaced].
  destruct (isspace a) eqn:A.
  - intros H. apply andb_true_iff in H. destruct H as [H S].
    apply andb_true_iff in H. destruct H as [E B].
    apply Ascii.eqb_eq in E. subst a. destruct s as [|b s]; [discriminate|].
    apply negb_true_iff in B. destruct (IH S) as [C R]. split.
    + rewrite collapse_cons, A, B. now rewrite C.
    + rewrite (rstrip_space " " _ A), R. reflexivity.
  - intros S. destruct (IH S) as [C R]. split.
    + cbn [collapse]. rewrite A. now rewrite C.
    + rewrite (rstrip_nonspace a s A). now rewrite R.
Qed.

Lemma clean_fixed (s : string) :
  clean s = true <-> strip (collapse s) = s.
Proof.
  unfold clean. split.
  - intros H. apply andb_true_iff in H. destruct H as [ST S].
    destruct (single_spaced_fixed s S) as [C R].
    rewrite C. unfold strip. rewrite R. now apply lstrip_id.
  - intros F. apply andb_true_iff.
    assert (C : collapse s = s).
    { transitivity (collapse (strip (collapse s))); [now rewrite F|].
      rewrite collapse_strip, collapse_idem. exact F. }
    assert (R : rstrip s = s).
    { transitivity (rstrip (strip (collapse s))); [now rewrite F|].
      unfold strip. rewrite <- lstrip_rstrip, rstrip_idem. exact F. }
    split.
    + rewrite <- F. unfold strip. apply lstrip_stops.
    + now apply fixed_single_spaced.
Qed.

(** [_clean_text] strips the collapsed text; its second substitution finds no
    tab to replace. *)
Lemma _clean_text_collapse (text : string) :
  Reviews._clean_text text = strip (collapse text).
Proof.
  unfold Reviews._clean_text. destruct text as [|a t]; [reflexivity|].
  change (Re.sub (Re.Plus isspace) " " (String a t))
    with (sub DataCleaner.whitespace_run " " (String a t)).
  rewrite sub_whitespace_collapse. now rewrite sub_absent by apply collapse_no_tab.
Qed.

(** X16. The two cleaners agree: [DataCleaner.clean_text] returns what
    [ClutchScraper._clean_text] returns, with [None] in place of the empty
    string, although one strips before it collapses the white space and the
    other after. In [_clean_text] the substitution for runs of tabs never changes
    the text, the substitution before it having left no tab. *)
Theorem cleaners_agree (text : string) :
  DataCleaner.clean_text (Some text)
  = Ret (if truthy_str (Reviews._clean_text text)
         then Some (Reviews._clean_text text)
         else None)
  /\ sub (Plus Reviews.is_tab) " " (sub DataCleaner.whitespace_run " " text)
     = sub DataCleaner.whitespace_run " " text.
Proof.
  split.
  - rewrite _clean_text_collapse. unfold DataCleaner.clean_text.
    destruct text as [|a t]; [reflexivity|]. cbv zeta.
    rewrite sub_whitespace_collapse, collapse_strip.
    destruct (truthy_str (strip (collapse (String a t)))); reflexivity.
  - rewrite sub_whitespace_collapse. apply sub_absent, collapse_no_tab.
Qed.

(** X17. A cleaned text neither starts nor ends with white space and its only
    white space is single blanks; the texts of this form are exactly the texts
    [_clean_text] leaves as they are, so cleaning twice is cleaning once, for
    [_clean_text] and for [clean_text]. *)
Theorem cleaned_text_form (text : string) :
  clean (Reviews._clean_text text) = true
  /\ (clean text = true <-> Reviews._clean_text text = text)
  /\ Reviews._clean_text (Reviews._clean_text text) = Reviews._clean_text text
  /\ (forall cleaned,
        DataCleaner.clean_text (Some text) = Ret (Some cleaned) ->
        clean cleaned = true
        /\ DataCleaner.clean_text (Some cleaned) = Ret (Some cleaned)).
Proof.
  assert (IDEM : forall t, strip (collapse (strip (collapse t))) = strip (collapse t)).
  { intros t. now rewrite collapse_strip, collapse_idem, strip_idem. }
  assert (CLEAN : forall t, clean (strip (collapse t)) = true).
  { intros t. apply clean_fixed. apply IDEM. }
  split; [|split; [|split]].
  - rewrite _clean_text_collapse. apply CLEAN.
  - rewrite _clean_text_collapse. apply clean_fixed.
  - rewrite !_clean_text_collapse. apply IDEM.
  - intros cleaned C.
    assert (E : cleaned = strip (collapse text) /\ cleaned <> EmptyString).
    { unfold DataCleaner.clean_text in C. destruct text as [|a t]; [discriminate|].
      cbv zeta in C. rewrite sub_whitespace_collapse, collapse_strip in C.
      destruct (strip (collapse (String a t))) as [|b u]; [discriminate|].
      inversion C. now split. }
    destruct E as [-> NE]. split; [apply CLEAN|].
    unfold DataCleaner.clean_text.
    destruct (strip (collapse text)) as [|b u] eqn:S; [congruence|]. cbv zeta.
    rewrite sub_whitespace_collapse, collapse_strip, <- S, IDEM, S. reflexivity.
Qed.

End Cleaning.

Module CleaningExamples.
Import Py Cleaning.

Example collapse_ex : collapse "  two   words  " = " two words ".
Proof. reflexivity. Qed.

Example clean_ex :
  clean "two words" = true /\ clean "two  words" = false /\ clean "two words " = false.
Proof. repeat split. Qed.

Lemma cleaned_text_form_witness :
  clean "Acme Inc" = true
  /\ DataCleaner.clean_text (Some "Acme Inc") = Ret (Some "Acme Inc").
Proof.
  apply (proj2 (proj2 (proj2 (cleaned_text_form "  Acme   Inc ")))). reflexivity.
Defined.

End CleaningExamples.

(* ================================================================= *)
(** ** exceptions.py: the recovery strategies and [ErrorHandler.handle_error] *)

Module Errors.
Import Py.
Local Open Scope Z_scope.

(** An exception as far as the strategies look at it: its class, and the
    attribute the class carries. [ConnectionError], [TimeoutError] and
    [OtherException] stand for the built-in classes, their subclasses included,
    with the name of the class of the exception. *)
Inductive error : Type :=
| NetworkError (status_code : option Z)
| ParsingError
| RateLimitError (retry_after : option Z)
| ConfigurationError
| DataValidationError
| ExportError
| ScrapingLimitError
| ConnectionError (class_name : string)
| TimeoutError (class_name : string)
| OtherException (class_name : string).

(** [type(error).__name__] *)
Definition type_name (e : error) : string :=
  match e with
  | NetworkError _ => "NetworkError"
  | ParsingError => "ParsingError"
  | RateLimitError _ => "RateLimitError"
  | ConfigurationError => "ConfigurationError"
  | DataValidationError => "DataValidationError"
  | ExportError => "ExportError"
  | ScrapingLimitError => "ScrapingLimitError"
  | ConnectionError n => n
  | TimeoutError n => n
  | OtherException n => n
  end.

(** [isinstance(error, ClutchScraperError)] *)
Definition is_scraper_error (e : error) : bool :=
  match e with
  | ConnectionError _ | TimeoutError _ | OtherException _ => false
  | _ => true
  end.

(** [isinstance(error, (NetworkError, ConnectionError, TimeoutError))] *)
Definition is_network_like (e : error) : bool :=
  match e with
  | NetworkError _ | ConnectionError _ | TimeoutError _ => true
  | _ => false
  end.

Definition is_rate_limit (e : error) : bool :=
  match e with
  | RateLimitError _ => true
  | _ => false
  end.

(** A delay: the methods return a [float], or the [int] of [retry_after]. *)
Inductive number : Type :=
| Float (f : float)
| Int (n : Z).

(** The three strategy classes, with the attributes of an instance. *)
Inductive strategy : Type :=
| NetworkErrorRecovery (max_retries : Z) (base_delay : float)
| ParsingErrorRecovery
| RateLimitRecovery.

(** [strategy.__class__.__name__] *)
Definition class_name (s : strategy) : string :=
  match s with
  | NetworkErrorRecovery _ _ => "NetworkErrorRecovery"
  | ParsingErrorRecovery => "ParsingErrorRecovery"
  | RateLimitRecovery => "RateLimitRecovery"
  end.

Definition retry_status_codes : list Z := [429; 500; 502; 503; 504].

(** Truthiness of an [Optional[int]]. *)
Definition truthy_int (o : option Z) : bool :=
  match o with
  | Some n => negb (n =? 0)
  | None => false
  end.

Definition can_recover (s : strategy) (e : error) : bool :=
  match s with
  | NetworkErrorRecovery _ _ => is_network_like e
  | ParsingErrorRecovery => false
  | RateLimitRecovery => is_rate_limit e
  end.

Definition should_retry (s : strategy) (e : error) (attempt : Z) : bool :=
  match s with
  | NetworkErrorRecovery max_retries _ =>
      if max_retries <=? attempt then false
      else
        match e with
        | NetworkError status_code =>
            if match status_code with
               | Some c => existsb (Z.eqb c) retry_status_codes
               | None => false
               end
            then true
            else if truthy_int status_code
                    && match status_code with
                       | Some c => (400 <=? c) && (c <? 500)
                       | None => false
                       end
            then false
            else is_network_like e
        | _ => is_network_like e
        end
  | ParsingErrorRecovery => false
  | RateLimitRecovery => is_rate_limit e && (attempt <? 3)
  end.

(** [2 ** attempt] as the factor of a [float]: a negative exponent gives a
    [float], and an [int] too large for a [float] raises [OverflowError]. *)
Definition power_of_two (attempt : Z) : result float :=
  if attempt <? 0 then Ret (Z.ldexp 1%float attempt)
  else if attempt <? 1024 then Ret (Retry.float_of_int (2 ^ attempt))
  else Raise (OtherError "OverflowError").

Section Handler.

(** The module-level name [error], which [RateLimitRecovery.get_retry_delay]
    reads: the module binds it only when it is run as a script. *)
Variable global_error : option error.

Definition get_retry_delay (s : strategy) (attempt : Z) : result number :=
  match s with
  | NetworkErrorRecovery _ base_delay =>
      bind (power_of_two attempt) (fun p => Ret (Float (PrimFloat.mul base_delay p)))
  | ParsingErrorRecovery => Ret (Float 0%float)
  | RateLimitRecovery =>
      match global_error with
      | None => Raise (OtherError "NameError")
      | Some (RateLimitError (Some retry_after)) =>
          if negb (retry_after =? 0) then Ret (Int retry_after)
          else Ret (Float (PrimFloat.mul 30%float (Retry.float_of_int (attempt + 1))))
      | Some _ => Ret (Float (PrimFloat.mul 30%float (Retry.float_of_int (attempt + 1))))
      end
  end.

(** [self.strategies] of a new handler. *)
Definition strategies : list strategy :=
  [NetworkErrorRecovery 3 1%float; ParsingErrorRecovery; RateLimitRecovery].

(** The dict [self.error_counts], in insertion order. *)
Definition counts : Type := list (string * Z).

(** [error_counts.get(error_type, 0)] *)
Fixpoint count_of (error_counts : counts) (error_type : string) : Z :=
  match error_counts with
  | [] => 0
  | (k, n) :: rest => if String.eqb k error_type then n else count_of rest error_type
  end.

(** [error_counts[error_type] = n] *)
Fixpoint set_count (error_counts : counts) (error_type : string) (n : Z) : counts :=
  match error_counts with
  | [] => [(error_type, n)]
  | (k, m) :: rest =>
      if String.eqb k error_type then (k, n) :: rest
      else (k, m) :: set_count rest error_type n
  end.

(** The dict [recovery_info]. *)
Record recovery_info : Type := mk_recovery {
  can_retry : bool;
  retry : bool;                   (* ['should_retry'] *)
  delay : number;
  chosen : option string;         (* ['strategy'] *)
  attempt : Z
}.

(** The loop over the strategies, which stops at the first that can recover. *)
Fixpoint choose (l : list strategy) (e : error) (info : recovery_info)
  : result recovery_info :=
  match l with
  | [] => Ret info
  | s :: l' =>
      if can_recover s e then
        bind (get_retry_delay s (attempt info)) (fun d =>
        Ret (mk_recovery true (should_retry s e (attempt info)) d
               (Some (class_name s)) (attempt info)))
      else choose l' e info
  end.

(** [handle_error]: the counts after the call, and what it returns or raises. *)
Definition handle_error (error_counts : counts) (e : error)
  : counts * result recovery_info :=
  let error_type := type_name e in
  let error_counts := set_count error_counts error_type (count_of error_counts error_type + 1) in
  (error_counts,
   choose strategies e
     (mk_recovery false false (Float 0%float) None (count_of error_counts error_type))).

Lemma count_of_set_count (error_counts : counts) (k k' : string) (n : Z) :
  count_of (set_count error_counts k n) k'
  = if String.eqb k k' then n else count_of error_counts k'.
Proof.
  induction error_counts as [|[j m] rest IH]; simpl.
  - reflexivity.
  - destruct (String.eqb_spec j k) as [->|NE]; simpl.
    + destruct (String.eqb k k'); reflexivity.
    + rewrite IH. destruct (String.eqb_spec j k') as [->|NE'];
        [|reflexivity].
      destruct (String.eqb_spec k k') as [->|]; [congruence | reflexivity].
Qed.

(** X18. [handle_error] counts the error under the name of its class before
    anything else, and the number it reports as the attempt is that count: the
    errors of a class since the handler was made, not the tries of one
    operation. When it returns, a retry is advised only for an error it can
    recover from and only while the count is below 3; the strategy named is
    never [ParsingErrorRecovery], and an error that is neither network-like nor
    a rate limit gets the initial answer. *)
Theorem handle_error_attempt (error_counts : counts) (e : error) :
  let outcome := handle_error error_counts e in
  (forall error_type,
     count_of (fst outcome) error_type
     = if String.eqb (type_name e) error_type
       then count_of error_counts error_type + 1
       else count_of error_counts error_type)
  /\ (forall info, snd outcome = Ret info ->
        attempt info = count_of error_counts (type_name e) + 1
        /\ (retry info = true -> can_retry info = true /\ attempt info < 3)
        /\ (can_retry info = true <-> is_network_like e || is_rate_limit e = true)
        /\ chosen info <> Some "ParsingErrorRecovery"
        /\ (is_network_like e || is_rate_limit e = false ->
            info = mk_recovery false false (Float 0%float) None (attempt info))).
Proof.
  cbv zeta. unfold handle_error. cbn [fst snd]. split.
  - intros error_type. rewrite count_of_set_count.
    destruct (String.eqb_spec (type_name e) error_type) as [<-|]; reflexivity.
  - intros info. rewrite count_of_set_count, String.eqb_refl.
    set (n := count_of error_counts (type_name e) + 1).
    unfold strategies. cbn [choose can_recover attempt].
    destruct (is_network_like e) eqn:N.
    + cbn [get_retry_delay].
      destruct (power_of_two n) as [p|x]; cbn [bind]; [|discriminate].
      intros H. inversion H. cbn [attempt retry can_retry chosen class_name orb].
      split; [reflexivity|]. split; [|split; [tauto|split; discriminate]].
      unfold should_retry. destruct (Z.leb_spec 3 n); [discriminate|].
      intros _. split; [reflexivity | lia].
    + cbn [orb]. destruct (is_rate_limit e) eqn:R.
      * destruct (get_retry_delay RateLimitRecovery n) as [d|x]; cbn [bind];
          [|discriminate].
        intros H. inversion H. cbn [attempt retry can_retry chosen class_name].
        split; [reflexivity|]. split; [|split; [tauto|split; discriminate]].
        unfold should_retry. rewrite R. cbn [andb]. intros T.
        apply Z.ltb_lt in T. now split.
      * intros H. inversion H. cbn [attempt retry can_retry chosen].
        split; [reflexivity|]. split; [discriminate|].
        split; [split; discriminate|]. split; [discriminate | reflexivity].
Qed.

(** X19. While the module-level name [error] is unbound, [handle_error] cannot
    answer for a rate limit: the delay method of [RateLimitRecovery] reads that
    name, not an argument, so the call raises [NameError], the error having been
    counted already. *)
Theorem handle_rate_limit_raises (error_counts : counts) (retry_after : option Z) :
  global_error = None ->
  handle_error error_counts (RateLimitError retry_after)
  = (set_count error_counts "RateLimitError"
       (count_of error_counts "RateLimitError" + 1),
     Raise (OtherError "NameError")).
Proof.
  intros G. unfold handle_error. cbn [type_name]. f_equal.
  unfold strategies. cbn [choose can_recover is_network_like is_rate_limit].
  cbn [get_retry_delay]. rewrite G. reflexivity.
Qed.

End Handler.

End Errors.

Module ErrorsExamples.
Import Py Errors.
Local Open Scope Z_scope.

(** The handler of an imported module, on one server error after another. *)
Definition next (error_counts : counts) : counts * result recovery_info :=
  handle_error None error_counts (NetworkError (Some 503)).

Example first_server_error :
  next []
  = ([("NetworkError", 1)],
     Ret (mk_recovery true true (Float 2%float) (Some "NetworkErrorRecovery") 1)).
Proof. vm_compute. reflexivity. Qed.

Example third_server_error :
  next [("NetworkError", 2)]
  = ([("NetworkError", 3)],
     Ret (mk_recovery true false (Float 8%float) (Some "NetworkErrorRecovery") 3)).
Proof. vm_compute. reflexivity. Qed.

Example not_found :
  snd (handle_error None [] (NetworkError (Some 404)))
  = Ret (mk_recovery true false (Float 2%float) (Some "NetworkErrorRecovery") 1).
Proof. vm_compute. reflexivity. Qed.

Lemma handle_error_attempt_witness :
  attempt (mk_recovery true true (Float 4%float) (Some "NetworkErrorRecovery") 2) = 1 + 1.
Proof.
  apply (proj2 (handle_error_attempt None [("NetworkError", 1)]
                  (NetworkError (Some 503)))).
  vm_compute. reflexivity.
Defined.

Lemma handle_rate_limit_raises_witness :
  handle_error None [("NetworkError", 2)] (RateLimitError (Some 60))
  = ([("NetworkError", 2); ("RateLimitError", 1)], Raise (OtherError "NameError")).
Proof.
  apply (handle_rate_limit_raises None [("NetworkError", 2)] (Some 60)). reflexivity.
Defined.

End ErrorsExamples.

(* ================================================================= *)
(** ** main.py: [ClutchScrapingManager._scrape_categories] *)

Module Manager.
Import Py.
Local Open Scope Z_scope.

(** What a call of [scraper.scrape_category] does: it returns its records, or
    raises. *)
Inductive outcome : Type :=
| Scraped (category_data : list ScrapedData.t)
| Failed (e : Errors.error).

(** The manager during the loop: its attributes [scraped_data] and the counts
    of its error handler, the two local variables, and the categories the loop
    has called [scrape_category] for. *)
Record state : Type := mk_state {
  scraped_data : list ScrapedData.t;
  error_counts : Errors.counts;
  consecutive_failures : Z;
  total_success : bool;
  attempted : list (string * string)
}.

Definition start (scraped_data : list ScrapedData.t) (error_counts : Errors.counts)
  : state :=
  mk_state scraped_data error_counts 0 false [].

Section Loop.

Variable global_error : option Errors.error.

(** [self.scraper.scrape_category(category_url, category_name)] *)
Variable scrape_category : string -> string -> outcome.

(** [self.interrupted] at the start of the iteration for the category at a
    position in the dict: a signal can set it between two iterations. *)
Variable interrupted : nat -> bool.

(** The body of the [try] after the call returned. *)
Definition record_result (st : state) (category : string * string)
    (category_data : list ScrapedData.t) : state :=
  match category_data with
  | [] =>
      mk_state (scraped_data st) (error_counts st) (consecutive_failures st + 1)
        (total_success st) (attempted st ++ [category])
  | _ =>
      mk_state (scraped_data st ++ category_data) (error_counts st) 0 true
        (attempted st ++ [category])
  end.

(** The loop over [categories.items()], from the category at position [i];
    with the final state, the exception that ended the loop, if any. *)
Fixpoint loop (categories : list (string * string)) (i : nat) (st : state)
  : state * option exn :=
  match categories with
  | [] => (st, None)
  | category :: rest =>
      if interrupted i then (st, None)
      else
        match scrape_category (fst category) (snd category) with
        | Scraped category_data =>
            let st := record_result st category category_data in
            if 3 <=? consecutive_failures st then (st, None)
            else loop rest (S i) st
        | Failed e =>
            if Errors.is_scraper_error e then
              let handled := Errors.handle_error global_error (error_counts st) e in
              match snd handled with
              | Ret recovery =>
                  loop rest (S i)
                    (mk_state (scraped_data st) (fst handled)
                       (if Errors.retry recovery then consecutive_failures st
                        else consecutive_failures st + 1)
                       (total_success st) (attempted st ++ [category]))
              | Raise x =>
                  (mk_state (scraped_data st) (fst handled) (consecutive_failures st)
                     (total_success st) (attempted st ++ [category]),
                   Some x)
              end
            else
              loop rest (S i)
                (mk_state (scraped_data st) (error_counts st)
                   (consecutive_failures st + 1) (total_success st)
                   (attempted st ++ [category]))
        end
  end.

(** [_scrape_categories(categories)]: the state after the call, and [Ret
    total_success] or the exception raised. *)
Definition _scrape_categories (categories : list (string * string))
    (scraped_data : list ScrapedData.t) (error_counts : Errors.counts)
  : state * result bool :=
  let (st, raised) := loop categories 0 (start scraped_data error_counts) in
  (st, match raised with
       | None => Ret (total_success st)
       | Some x => Raise x
       end).

(** The records a category gave. *)
Definition data_of (category : string * string) : list ScrapedData.t :=
  match scrape_category (fst category) (snd category) with
  | Scraped category_data => category_data
  | Failed _ => []
  end.

(** [bool(category_data)] *)
Definition gave_data (category : string * string) : bool :=
  match data_of category with
  | [] => false
  | _ => true
  end.

Lemma record_result_fields (st : state) (category : string * string)
    (category_data : list ScrapedData.t) :
  let st' := record_result st category category_data in
  scraped_data st' = scraped_data st ++ category_data
  /\ attempted st' = attempted st ++ [category]
  /\ total_success st'
     = total_success st || match category_data with [] => false | _ => true end
  /\ (category_data <> [] -> consecutive_failures st' = 0)
  /\ (category_data = [] -> consecutive_failures st' = consecutive_failures st + 1).
Proof.
  destruct category_data as [|d l]; cbn.
  - rewrite app_nil_r, orb_false_r. repeat split; congruence.
  - rewrite orb_true_r. repeat split; congruence.
Qed.

(** What the loop does to the state, whatever ends it. *)
Lemma loop_spec (categories : list (string * string)) (i : nat) (st : state) :
  let st' := fst (loop categories i st) in
  exists called rest,
    categories = called ++ rest
    /\ attempted st' = attempted st ++ called
    /\ scraped_data st' = scraped_data st ++ flat_map data_of called
    /\ total_success st' = total_success st || existsb gave_data called.
Proof.
  revert i st. induction categories as [|category categories IH]; intros i st.
  - exists [], []. cbn. now rewrite !app_nil_r, orb_false_r.
  - assert (STOP : exists called rest,
              category :: categories = called ++ rest
              /\ attempted st = attempted st ++ called
              /\ scraped_data st = scraped_data st ++ flat_map data_of called
              /\ total_success st = total_success st || existsb gave_data called).
    { exists [], (category :: categories). cbn.
      now rewrite !app_nil_r, orb_false_r. }
    assert (STEP : forall st1 data,
              attempted st1 = attempted st ++ [category] ->
              scraped_data st1 = scraped_data st ++ data ->
              total_success st1
              = total_success st || match data with [] => false | _ => true end ->
              data_of category = data ->
              (exists called rest,
                 category :: categories = called ++ rest
                 /\ attempted st1 = attempted st ++ called
                 /\ scraped_data st1 = scraped_data st ++ flat_map data_of called
                 /\ total_success st1 = total_success st || existsb gave_data called)
              /\ forall st2,
                   (exists called rest,
                      categories = called ++ rest
                      /\ attempted st2 = attempted st1 ++ called
                      /\ scraped_data st2 = scraped_data st1 ++ flat_map data_of called
                      /\ total_success st2 = total_success st1 || existsb gave_data called) ->
                   exists called rest,
                     category :: categories = called ++ rest
                     /\ attempted st2 = attempted st ++ called
                     /\ scraped_data st2 = scraped_data st ++ flat_map data_of called
                     /\ total_success st2 = total_success st || existsb gave_data called).
    { intros st1 data A D T DO. split.
      - exists [category], categories. cbn [app flat_map existsb].
        unfold gave_data. rewrite DO, app_nil_r, orb_false_r. now repeat split.
      - intros st2 [called [rest [C [A2 [D2 T2]]]]].
        exists (category :: called), rest. cbn [app flat_map existsb].
        unfold gave_data at 1. rewrite DO. split; [now rewrite C|].
        split; [now rewrite A2, A, <- app_assoc|].
        split; [now rewrite D2, D, <- app_assoc|].
        now rewrite T2, T, orb_assoc. }
    cbv zeta. cbn [loop]. destruct (interrupted i); [exact STOP|].
    destruct (scrape_category (fst category) (snd category)) as [data|e] eqn:S.
    + destruct (record_result_fields st category data) as [D [A [T _]]].
      assert (DO : data_of category = data) by (unfold data_of; now rewrite S).
      destruct (STEP _ data A D T DO) as [ONE MORE].
      destruct (3 <=? consecutive_failures (record_result st category data));
        [exact ONE|]. apply MORE, IH.
    + assert (DO : data_of category = []) by (unfold data_of; now rewrite S).
      destruct (Errors.is_scraper_error e).
      * destruct (snd (Errors.handle_error global_error (error_counts st) e))
          as [recovery|x].
        -- refine (proj2 (STEP _ [] _ _ _ DO) _ (IH _ _)); cbn;
             now rewrite ?app_nil_r, ?orb_false_r.
        -- refine (proj1 (STEP _ [] _ _ _ DO)); cbn;
             now rewrite ?app_nil_r, ?orb_false_r.
      * refine (proj2 (STEP _ [] _ _ _ DO) _ (IH _ _)); cbn;
          now rewrite ?app_nil_r, ?orb_false_r.
Qed.

(** X20. [_scrape_categories] calls [scrape_category] for the categories in the
    order of the dict, once each, up to the one where it stops: a retry the error
    handler advises is logged, never made. The records it adds to
    [scraped_data] are those of the categories called, in that order, and the
    [bool] it returns tells whether one of them gave a record. *)
Theorem _scrape_categories_once (categories : list (string * string))
    (scraped : list ScrapedData.t) (counts : Errors.counts) :
  let st := fst (_scrape_categories categories scraped counts) in
  (exists rest, categories = attempted st ++ rest)
  /\ scraped_data st = scraped ++ flat_map data_of (attempted st)
  /\ (forall b, snd (_scrape_categories categories scraped counts) = Ret b ->
        b = existsb gave_data (attempted st)).
Proof.
  cbv zeta. unfold _scrape_categories.
  pose proof (loop_spec categories 0 (start scraped counts)) as H. cbv zeta in H.
  destruct (loop categories 0 (start scraped counts)) as [st raised].
  cbn [fst snd] in *. destruct H as [called [rest [C [A [D T]]]]].
  cbn [start attempted scraped_data total_success app orb] in A, D, T.
  rewrite A. split; [now exists rest|]. split; [exact D|].
  intros b. destruct raised; [discriminate|]. intros H. inversion H. exact T.
Qed.

(** Exceptions that are no scraper errors are counted and passed over. *)
Lemma loop_unexpected (categories : list (string * string)) (i : nat) (st : state) :
  (forall j, interrupted j = false) ->
  (forall c, In c categories ->
     exists e, scrape_category (fst c) (snd c) = Failed e
               /\ Errors.is_scraper_error e = false) ->
  loop categories i st
  = (mk_state (scraped_data st) (error_counts st)
       (consecutive_failures st + Z.of_nat (length categories))
       (total_success st) (attempted st ++ categories), None).
Proof.
  intros RUN. revert i st. induction categories as [|c categories IH]; intros i st ALL.
  - cbn. rewrite Z.add_0_r, app_nil_r. now destruct st.
  - cbn [loop]. rewrite RUN.
    destruct (ALL c (or_introl eq_refl)) as [e [SC U]]. rewrite SC, U.
    rewrite IH by (intros c' IN; apply ALL; now right).
    cbn [scraped_data error_counts consecutive_failures total_success attempted].
    rewrite <- app_assoc. cbn [app]. f_equal. f_equal.
    change (length (c :: categories)) with (S (length categories)). lia.
Qed.

(** Short of an interruption and of an exception, the loop ends early only on
    a third failure in a row, and on a call that returned no record. *)
Lemma loop_early (categories : list (string * string)) (i : nat) (st st' : state) :
  (forall j, interrupted j = false) ->
  loop categories i st = (st', None) ->
  attempted st' <> attempted st ++ categories ->
  3 <= consecutive_failures st'
  /\ exists called last,
       attempted st' = called ++ [last]
       /\ scrape_category (fst last) (snd last) = Scraped [].
Proof.
  intros RUN. revert i st. induction categories as [|c categories IH]; intros i st L NE.
  - cbn in L. inversion L; subst st'. now rewrite app_nil_r in NE.
  - cbn [loop] in L. rewrite RUN in L.
    assert (NEXT : forall st1, attempted st1 = attempted st ++ [c] ->
              attempted st' <> attempted st1 ++ categories).
    { intros st1 A. rewrite A, <- app_assoc. exact NE. }
    destruct (scrape_category (fst c) (snd c)) as [data|e] eqn:S.
    + destruct (record_result_fields st c data) as [_ [A [_ [F0 _]]]].
      destruct (Z.leb_spec 3 (consecutive_failures (record_result st c data)))
        as [GE|LT].
      * inversion L; subst st'. split; [exact GE|].
        exists (attempted st), c. split; [exact A|].
        destruct data as [|d data]; [exact S|].
        rewrite F0 in GE by discriminate. lia.
      * apply (IH _ _ L). now apply NEXT.
    + destruct (Errors.is_scraper_error e).
      * destruct (snd (Errors.handle_error global_error (error_counts st) e))
          as [recovery|x]; [|discriminate].
        apply (IH _ _ L). now apply NEXT.
      * apply (IH _ _ L). now apply NEXT.
Qed.

(** X21. While the manager is not interrupted, [_scrape_categories] returns
    before the last category only after three failures in a row, and only at a
    call that returned no record: the count is checked on that path alone. An
    exception adds to the count and never ends the loop: when every call raises
    an exception that is no scraper error, every category is still called, and
    the count grows past 3 to the number of categories. *)
Theorem _scrape_categories_stops (categories : list (string * string))
    (scraped : list ScrapedData.t) (counts : Errors.counts) :
  (forall j, interrupted j = false) ->
  let st := fst (_scrape_categories categories scraped counts) in
  (forall b, snd (_scrape_categories categories scraped counts) = Ret b ->
     attempted st <> categories ->
     3 <= consecutive_failures st
     /\ exists called last,
          attempted st = called ++ [last]
          /\ scrape_category (fst last) (snd last) = Scraped [])
  /\ ((forall c, In c categories ->
         exists e, scrape_category (fst c) (snd c) = Failed e
                   /\ Errors.is_scraper_error e = false) ->
      attempted st = categories
      /\ consecutive_failures st = Z.of_nat (length categories)
      /\ snd (_scrape_categories categories scraped counts) = Ret false).
Proof.
  intros RUN. cbv zeta. unfold _scrape_categories. split.
  - destruct (loop categories 0 (start scraped counts)) as [st raised] eqn:L.
    cbn [fst snd]. intros b R NE. destruct raised; [discriminate|].
    apply (loop_early categories 0 (start scraped counts) st RUN L). exact NE.
  - intros ALL. rewrite (loop_unexpected categories 0 _ RUN ALL). cbn.
    now repeat split.
Qed.

End Loop.

End Manager.

Module ManagerExamples.
Import Py Manager.
Local Open Scope Z_scope.

Definition company (name : string) : ScrapedData.t :=
  ScrapedData.init "2024-01-01T00:00:00" (Some "Web Developers")
    (Some (CompetitorInfo.mk (Some name) [])) None None None.

(** Five categories: one with a company, then three that give nothing. *)
Definition categories : list (string * string) :=
  [("https://clutch.co/web-developers", "Web Developers");
   ("https://clutch.co/developers/php", "PHP");
   ("https://clutch.co/developers/java", "Java");
   ("https://clutch.co/developers/drupal", "Drupal");
   ("https://clutch.co/developers/laravel", "Laravel")].

Definition scrape_category (category_url category_name : string) : outcome :=
  if String.eqb category_name "Web Developers" then Scraped [company "Acme"]
  else if String.eqb category_name "Laravel" then Scraped [company "Globex"]
  else Scraped [].

Definition run : state * result bool :=
  _scrape_categories None scrape_category (fun _ => false) categories [] [].

Example run_stops_after_three_empty :
  map snd (attempted (fst run)) = ["Web Developers"; "PHP"; "Java"; "Drupal"]
  /\ scraped_data (fst run) = [company "Acme"]
  /\ snd run = Ret true.
Proof. repeat split. Qed.

(** Every call raises an exception that is no scraper error. *)
Definition broken_call (category_url category_name : string) : outcome :=
  Failed (Errors.OtherException "KeyError").

Lemma _scrape_categories_once_witness : true = existsb (gave_data scrape_category)
                                                  (attempted (fst run)).
Proof.
  apply (proj2 (proj2 (_scrape_categories_once None scrape_category (fun _ => false)
                         categories [] []))).
  reflexivity.
Defined.

Lemma _scrape_categories_stops_witness :
  (3 <= consecutive_failures (fst run)
   /\ exists called last,
        attempted (fst run) = called ++ [last]
        /\ scrape_category (fst last) (snd last) = Scraped [])
  /\ consecutive_failures
       (fst (_scrape_categories None broken_call (fun _ => false)
               categories [] [])) = 5.
Proof.
  split.
  - apply (proj1 (_scrape_categories_stops None scrape_category (fun _ => false)
                    categories [] [] (fun _ => eq_refl)) true);
      [reflexivity | discriminate].
  - apply (proj2 (_scrape_categories_stops None broken_call (fun _ => false)
                    categories [] [] (fun _ => eq_refl))).
    intros c _. exists (Errors.OtherException "KeyError"). now split.
Defined.

End ManagerExamples.

(* ================================================================= *)
(** ** main.py: [ClutchScrapingManager._get_categories_to_scrape] *)

Module Targets.
Import Py.

(** A dict from addresses to category names, in insertion order. *)
Definition dict : Type := list (string * string).

(** [d[url] = name] *)
Fixpoint assign (d : dict) (url name : string) : dict :=
  match d with
  | [] => [(url, name)]
  | (k, v) :: rest =>
      if String.eqb k url then (k, name) :: rest
      else (k, v) :: assign rest url name
  end.

(** [x in l] for a list of strings. *)
Definition listed (x : string) (l : list string) : bool := existsb (String.eqb x) l.

Lemma distinct_keys_value (d : dict) (k v v' : string) :
  NoDup (map fst d) -> In (k, v) d -> In (k, v') d -> v = v'.
Proof.
  induction d as [|[k0 v0] rest IH]; [intros _ []|]. cbn [map fst].
  intros ND IN IN'. inversion ND as [|x l NI ND']; subst.
  destruct IN as [E|IN], IN' as [E'|IN'].
  - congruence.
  - inversion E; subst. destruct NI. apply (in_map fst) in IN'. exact IN'.
  - inversion E'; subst. destruct NI. apply (in_map fst) in IN. exact IN.
  - now apply IH.
Qed.

Lemma assign_fresh (d : dict) (url name : string) :
  ~ In url (map fst d) -> assign d url name = d ++ [(url, name)].
Proof.
  induction d as [|[k v] rest IH]; [reflexivity|]. cbn [assign map fst In app].
  intros NI. destruct (String.eqb_spec k url) as [->|NE]; [tauto|].
  rewrite IH; [reflexivity | tauto].
Qed.

Lemma assign_keys (d : dict) (url name : string) :
  map fst (assign d url name)
  = if listed url (map fst d) then map fst d else map fst d ++ [url].
Proof.
  induction d as [|[k v] rest IH]; [reflexivity|]. cbn [assign map fst listed existsb].
  rewrite (String.eqb_sym url k).
  destruct (String.eqb_spec k url) as [->|NE]; [reflexivity|].
  cbn [map fst orb]. rewrite IH. unfold listed.
  now destruct (existsb (String.eqb url) (map fst rest)).
Qed.

Lemma skip_listed_In (x : string) (l : list string) : listed x l = true <-> In x l.
Proof.
  unfold listed. rewrite existsb_exists. split.
  - intros [y [IN E]]. apply String.eqb_eq in E. now subst.
  - intros IN. exists x. split; [exact IN | apply String.eqb_refl].
Qed.

Lemma assign_distinct (d : dict) (url name : string) :
  NoDup (map fst d) -> NoDup (map fst (assign d url name)).
Proof.
  intros ND. rewrite assign_keys. destruct (listed url (map fst d)) eqn:L; [exact ND|].
  apply NoDup_app; [exact ND | repeat constructor; intros [] |].
  intros k IN [<-|[]]. apply skip_listed_In in IN. congruence.
Qed.

Section Categories.

(** [DEVELOPMENT_SUBCATEGORIES.items()] *)
Variable all_categories : dict.

(** The inner loop for one target: the first category whose name is the target
    up to case, or none (the [else] of the [for]). *)
Definition named (target : string) : option (string * string) :=
  find (fun category => String.eqb (lower target) (lower (snd category)))
    all_categories.

Definition targeted (target_categories : list string) : dict :=
  fold_left
    (fun categories target =>
       match named target with
       | Some (url, name) => assign categories url name
       | None => categories
       end)
    target_categories [].

Definition unskipped (skip_categories : list string) : dict :=
  fold_left
    (fun categories category =>
       if negb (listed (snd category) skip_categories)
       then assign categories (fst category) (snd category)
       else categories)
    all_categories [].

Definition _get_categories_to_scrape (target_categories skip_categories : list string)
  : dict :=
  match target_categories with
  | [] => unskipped skip_categories
  | _ => targeted target_categories
  end.

(** The keys of a dict are distinct. *)
Hypothesis distinct_keys : NoDup (map fst all_categories).

Lemma assign_In (d : dict) (url name : string) (entry : string * string) :
  In entry (assign d url name) ->
  entry = (url, name) \/ In entry d.
Proof.
  induction d as [|[k v] rest IH]; cbn [assign].
  - intros [<-|[]]. now left.
  - destruct (String.eqb_spec k url) as [->|NE].
    + intros [<-|IN]; [now left | right; now right].
    + intros [<-|IN]; [right; now left|].
      destruct (IH IN) as [E|IN']; [now left | right; now right].
Qed.

Lemma In_assign (d : dict) (url name : string) : In (url, name) (assign d url name).
Proof.
  induction d as [|[k v] rest IH]; cbn [assign]; [now left|].
  destruct (String.eqb_spec k url) as [->|NE]; [now left | now right].
Qed.

(** Assigning the value a key has among [all_categories] keeps the entries
    taken from there. *)
Lemma assign_keeps (d : dict) (url name : string) (entry : string * string) :
  (forall e, In e d -> In e all_categories) -> In (url, name) all_categories ->
  In entry d -> In entry (assign d url name).
Proof.
  intros SUB ALL. induction d as [|[k v] rest IH]; [intros []|]. cbn [assign].
  destruct (String.eqb_spec k url) as [->|NE].
  - intros [<-|IN]; [|now right]. left.
    assert (V : v = name).
    { apply (distinct_keys_value all_categories url); auto. apply SUB. now left. }
    now rewrite V.
  - intros [<-|IN]; [now left|]. right. apply IH; [|exact IN].
    intros e E. apply SUB. now right.
Qed.

Lemma named_In (target : string) (entry : string * string) :
  named target = Some entry -> In entry all_categories.
Proof. intros N. now apply find_some in N. Qed.

(** The entries after the loop over the targets, from a dict of entries of
    [all_categories]. *)
Lemma targeted_entries (targets : list string) (d : dict) (entry : string * string) :
  (forall e, In e d -> In e all_categories) ->
  In entry
    (fold_left
       (fun categories target =>
          match named target with
          | Some (url, name) => assign categories url name
          | None => categories
          end)
       targets d)
  <-> In entry d \/ exists target, In target targets /\ named target = Some entry.
Proof.
  revert d. induction targets as [|target targets IH]; intros d SUB.
  - cbn. split; [now left | intros [IN|[t [[] _]]]; exact IN].
  - cbn [fold_left]. destruct (named target) as [[url name]|] eqn:N.
    + rewrite IH.
      * split.
        -- intros [IN|[t [IN E]]].
           ++ apply assign_In in IN. destruct IN as [->|IN]; [|now left].
              right. exists target. split; [now left | exact N].
           ++ right. exists t. split; [now right | exact E].
        -- intros [IN|[t [[<-|IN] E]]].
           ++ left. apply assign_keeps; auto. now apply named_In with target.
           ++ left. rewrite N in E. inversion E. apply In_assign.
           ++ right. now exists t.
      * intros e IN. apply assign_In in IN. destruct IN as [->|IN]; [|now apply SUB].
        now apply named_In with target.
    + rewrite IH by exact SUB. split.
      * intros [IN|[t [IN E]]]; [now left|]. right. exists t. split; [now right | exact E].
      * intros [IN|[t [[<-|IN] E]]]; [now left | congruence |]. right. now exists t.
Qed.

Lemma targeted_distinct (targets : list string) (d : dict) :
  NoDup (map fst d) ->
  NoDup (map fst
           (fold_left
              (fun categories target =>
                 match named target with
                 | Some (url, name) => assign categories url name
                 | None => categories
                 end)
              targets d)).
Proof.
  revert d. induction targets as [|target targets IH]; intros d ND; [exact ND|].
  cbn [fold_left]. apply IH. destruct (named target) as [[url name]|]; [|exact ND].
  now apply assign_distinct.
Qed.

(** With distinct keys every assignment of the loop over all categories adds
    an entry at the end. *)
Lemma unskipped_filter (skip : list string) (l : dict) (d : dict) :
  NoDup (map fst (d ++ l)) ->
  fold_left
    (fun categories category =>
       if negb (listed (snd category) skip)
       then assign categories (fst category) (snd category)
       else categories)
    l d
  = d ++ filter (fun category => negb (listed (snd category) skip)) l.
Proof.
  revert d. induction l as [|[url name] l IH]; intros d ND.
  - cbn. now rewrite app_nil_r.
  - cbn [fold_left filter fst snd].
    assert (ND1 : NoDup (map fst ((d ++ [(url, name)]) ++ l)))
      by (now rewrite <- app_assoc).
    assert (FRESH : ~ In url (map fst d)).
    { rewrite map_app in ND. cbn [map fst] in ND.
      apply NoDup_remove_2 in ND. intros IN. apply ND. apply in_or_app. now left. }
    destruct (negb (listed name skip)).
    + rewrite assign_fresh by exact FRESH. rewrite IH by exact ND1.
      now rewrite <- app_assoc.
    + apply IH. rewrite map_app in *. cbn [map fst] in ND.
      now apply NoDup_remove_1 in ND.
Qed.

(** X22. [_get_categories_to_scrape] returns entries of
    [DEVELOPMENT_SUBCATEGORIES] only, each address once. With targets, the
    entries are, for each target, the first category whose name is the target up
    to case, and the skip list is not looked at; without targets, they are the
    categories whose name, in its exact case, is not in the skip list, in the
    order of the dict. *)
Theorem _get_categories_to_scrape_entries (target_categories skip_categories : list string) :
  let categories := _get_categories_to_scrape target_categories skip_categories in
  (forall entry, In entry categories -> In entry all_categories)
  /\ NoDup (map fst categories)
  /\ (target_categories <> [] ->
      (forall entry,
         In entry categories
         <-> exists target, In target target_categories /\ named target = Some entry)
      /\ forall skip, _get_categories_to_scrape target_categories skip = categories)
  /\ (target_categories = [] ->
      categories
      = filter (fun category => negb (listed (snd category) skip_categories))
          all_categories).
Proof.
  cbv zeta. unfold _get_categories_to_scrape.
  destruct target_categories as [|target targets].
  - unfold unskipped. rewrite (unskipped_filter skip_categories all_categories [])
      by exact distinct_keys. cbn [app].
    split; [|split; [|split]].
    + intros entry IN. now apply filter_In in IN.
    + clear - distinct_keys. induction all_categories as [|[k v] l IH]; [constructor|].
      cbn [map fst] in distinct_keys. inversion distinct_keys as [|x y NI ND]; subst.
      cbn [filter snd]. destruct (negb (listed v skip_categories)); [|now apply IH].
      cbn [map fst]. constructor; [|now apply IH].
      intros IN. apply NI. apply in_map_iff in IN. destruct IN as [e [E IN]].
      apply filter_In in IN. destruct IN as [IN _]. rewrite <- E. now apply in_map.
    + congruence.
    + reflexivity.
  - unfold targeted.
    pose proof (fun entry => targeted_entries (target :: targets) [] entry
                               (fun e (IN : In e []) => match IN with end)) as T.
    split; [|split; [|split]].
    + intros entry IN. apply T in IN. destruct IN as [[]|[t [_ N]]].
      now apply named_In with t.
    + apply targeted_distinct. constructor.
    + intros _. split; [|reflexivity]. intros entry. rewrite T. split.
      * intros [[]|H]; exact H.
      * intros H. now right.
    + discriminate.
Qed.

End Categories.

End Targets.

Module TargetsExamples.
Import Py Targets.

Definition some_categories : dict :=
  [("https://clutch.co/developers", "Software Developers");
   ("https://clutch.co/web-developers", "Web Developers");
   ("https://clutch.co/web-developers/php", "PHP");
   ("https://clutch.co/developers/dot-net", "DOTNET")].

Example targets_ex :
  _get_categories_to_scrape some_categories ["php"; "Java"; "Web developers"; "PHP"]
    ["PHP"]
  = [("https://clutch.co/web-developers/php", "PHP");
     ("https://clutch.co/web-developers", "Web Developers")].
Proof. reflexivity. Qed.

Example skip_ex :
  map snd (_get_categories_to_scrape some_categories [] ["php"; "DOTNET"])
  = ["Software Developers"; "Web Developers"; "PHP"].
Proof. reflexivity. Qed.

Lemma some_categories_distinct : NoDup (map fst some_categories).
Proof.
  repeat constructor; cbn; intros H;
    repeat (destruct H as [H|H]; [discriminate|]); exact H.
Defined.

Lemma _get_categories_to_scrape_entries_witness :
  _get_categories_to_scrape some_categories [] ["php"; "DOTNET"]
  = filter (fun category => negb (listed (snd category) ["php"; "DOTNET"]))
      some_categories.
Proof.
  apply (proj2 (proj2 (proj2
           (_get_categories_to_scrape_entries some_categories
              some_categories_distinct [] ["php"; "DOTNET"])))).
  reflexivity.
Defined.

End TargetsExamples.

(* ================================================================= *)
(** ** utils.py: what [parse_project_size] and [parse_date_range] return *)

Module CleanerShapes.
Import Py Re DataCleaner.
Local Open Scope regex_scope.

(** A match is a piece of the text that was searched. *)
Lemma search_whole (r : regex) (s : string) (m : match_obj) :
  search r s = Some m ->
  exists before after,
    s = (before ++ whole m ++ after)%string
    /\ match_at r (whole m ++ after) = Some (after, caps m).
Proof.
  intros S. apply search_from_match_at in S.
  destruct S as [s1 [s2 [rest [E [M [W _]]]]]].
  assert (M' := M). unfold match_at in M'. apply run_suffix in M'.
  destruct M' as [x [s2' [c' [E2 K]]]]. inversion K; subst s2' c'.
  rewrite E2, consumed_app in W. exists s1, rest.
  rewrite W. split; [now rewrite E, E2 | now rewrite <- E2].
Qed.

Lemma occurs_lstrip (ch : ascii) (s : string) :
  occurs ch s = false -> occurs ch (lstrip s) = false.
Proof.
  induction s as [|a s IH]; [reflexivity|]. cbn [occurs lstrip]. intros O.
  apply orb_false_iff in O. destruct O as [A O].
  destruct (isspace a); [now apply IH|]. cbn [occurs]. now rewrite A, O.
Qed.

Lemma occurs_rstrip (ch : ascii) (s : string) :
  occurs ch s = false -> occurs ch (rstrip s) = false.
Proof.
  induction s as [|a s IH]; [reflexivity|]. cbn [occurs]. intros O.
  apply orb_false_iff in O. destruct O as [A O]. specialize (IH O).
  destruct (isspace a) eqn:SP.
  - rewrite (Cleaning.rstrip_space a s SP).
    destruct (rstrip s) as [|b t]; [reflexivity|]. cbn [occurs] in *.
    now rewrite A, IH.
  - rewrite (Cleaning.rstrip_nonspace a s SP). cbn [occurs]. now rewrite A, IH.
Qed.

(** [clean_text] in terms of collapsing and stripping. *)
Lemma clean_text_collapse (text : string) :
  clean_text (Some text)
  = Ret (if truthy_str (strip (Cleaning.collapse text))
         then Some (strip (Cleaning.collapse text))
         else None).
Proof.
  unfold clean_text. destruct text as [|a t]; [reflexivity|]. cbv zeta.
  rewrite Cleaning.sub_whitespace_collapse, Cleaning.collapse_strip.
  now destruct (truthy_str (strip (Cleaning.collapse (String a t)))).
Qed.

Lemma clean_text_strip (text : string) :
  clean_text (Some (strip text)) = clean_text (Some text).
Proof.
  rewrite !clean_text_collapse.
  now rewrite Cleaning.collapse_strip, Cleaning.strip_idem.
Qed.

Lemma run_chr_inv {R : Type} (p : ascii -> bool) (k : string -> captures -> option R)
    (s : string) (c : captures) (x : R) :
  run (Chr p) k s c = Some x ->
  exists a s', s = String a s' /\ p a = true /\ k s' c = Some x.
Proof.
  cbn [run]. destruct s as [|a s']; [discriminate|].
  destruct (p a) eqn:P; [|discriminate]. intros K. now exists a, s'.
Qed.

(** A match of the money pattern starts with a dollar sign and a digit or a
    comma. *)
Lemma money_match (s rest : string) (c : captures) :
  match_at money_pattern s = Some (rest, c) ->
  exists d tail, consumed s rest = String "$" (String d tail)
                 /\ is_digit_or_comma d = true.
Proof.
  unfold match_at, money_pattern. rewrite run_seq. intros H.
  apply CompanyUrl.run_lit_inv in H. destruct H as [s' [-> H]].
  unfold Plus in H. rewrite !run_seq in H.
  apply run_chr_inv in H. destruct H as [d [s'' [-> [D H]]]].
  apply run_suffix in H. destruct H as [tail [s2 [c' [-> K]]]].
  apply run_suffix in K. destruct K as [tail' [s3 [c'' [-> K]]]].
  inversion K; subst s3. exists d, (tail ++ tail')%string. split; [|exact D].
  change ("$" ++ String d (tail ++ tail' ++ rest))%string
    with (String "$" (String d (tail ++ tail' ++ rest))).
  replace (String "$" (String d (tail ++ tail' ++ rest)))
    with ((String "$" (String d (tail ++ tail'))) ++ rest)%string.
  - apply consumed_app.
  - cbn [append]. do 2 f_equal. induction tail as [|t tail IH]; [reflexivity|].
    cbn [append]. now rewrite IH.
Qed.

(** X23. For a text that is not empty, [parse_project_size] returns the first
    piece of the stripped text that matches the money pattern, which starts with
    a dollar sign followed by a digit or a comma; when there is none, and so
    whenever the text has no dollar sign, it returns what [clean_text] returns for
    the text. *)
Theorem parse_project_size_amount (a : ascii) (s : string) :
  let text := String a s in
  ((exists w before after d tail,
      parse_project_size (Some text) = Ret (Some w)
      /\ strip text = (before ++ w ++ after)%string
      /\ w = String "$" (String d tail) /\ is_digit_or_comma d = true)
   \/ (search money_pattern (strip text) = None
       /\ parse_project_size (Some text) = clean_text (Some text)))
  /\ (occurs "$" text = false ->
      parse_project_size (Some text) = clean_text (Some text)).
Proof.
  cbv zeta. unfold parse_project_size. cbv zeta.
  assert (NONE : search money_pattern (strip (String a s)) = None ->
                 clean_text (Some (strip (String a s))) = clean_text (Some (String a s)))
    by (intros _; apply clean_text_strip).
  split.
  - destruct (search money_pattern (strip (String a s))) as [m|] eqn:S.
    + left. destruct (search_whole _ _ _ S) as [before [after [E M]]].
      destruct (money_match _ _ _ M) as [d [tail [W D]]].
      rewrite consumed_app in W.
      exists (whole m), before, after, d, tail. now repeat split.
    + right. split; [reflexivity | now apply NONE].
  - intros O.
    assert (S : search money_pattern (strip (String a s)) = None).
    { apply (search_requires "$").
      - unfold money_pattern. apply requires_seq_l. apply (requires_lit "$" "" "").
      - unfold strip. now apply occurs_lstrip, occurs_rstrip. }
    rewrite S. now apply NONE.
Qed.

(** A month and a year as the date patterns read them: letters, a blank, four
    digits. *)
Definition month_year_shape (w : string) : Prop :=
  exists letters year,
    w = (letters ++ " " ++ year)%string
    /\ letters <> EmptyString /\ all_of is_alpha letters = true
    /\ String.length year = 4 /\ all_of isdigit year = true.

Lemma append_assoc (s t u : string) : ((s ++ t) ++ u = s ++ t ++ u)%string.
Proof. induction s as [|a s IH]; [reflexivity|]. cbn [append]. now rewrite IH. Qed.

Lemma run_star {R : Type} (p : ascii -> bool) (k : string -> captures -> option R)
    (s : string) (c : captures) :
  run (Star p) k s c = star p (fun s' => k s' c) s.
Proof. reflexivity. Qed.

Lemma run_group {R : Type} (n : nat) (r : regex) (k : string -> captures -> option R)
    (s : string) (c : captures) :
  run (Group n r) k s c = run r (fun s' c' => k s' ((n, consumed s s') :: c')) s c.
Proof. reflexivity. Qed.

(** What a group around the month-and-year pattern captures. *)
Lemma run_group_month_year {R : Type} (n : nat) (k : string -> captures -> option R)
    (s : string) (c : captures) (x : R) :
  run (Group n month_year) k s c = Some x ->
  exists w rest, s = (w ++ rest)%string /\ month_year_shape w
                 /\ k rest ((n, w) :: c) = Some x.
Proof.
  rewrite run_group. unfold month_year, Plus. rewrite !run_seq. intros H.
  apply run_chr_inv in H. destruct H as [l0 [s1 [E0 [L0 H]]]].
  rewrite run_star in H. apply star_run_of_class in H.
  destruct H as [l [s2 [E1 [L H]]]].
  rewrite run_seq in H.
  apply CompanyUrl.run_lit_inv in H. destruct H as [s3 [E2 H]].
  cbn [Rep] in H. rewrite run_seq in H.
  apply run_chr_inv in H. destruct H as [d1 [s4 [E3 [D1 H]]]].
  rewrite run_seq in H.
  apply run_chr_inv in H. destruct H as [d2 [s5 [E4 [D2 H]]]].
  rewrite run_seq in H.
  apply run_chr_inv in H. destruct H as [d3 [s6 [E5 [D3 H]]]].
  rewrite run_seq in H.
  apply run_chr_inv in H. destruct H as [d4 [rest [E6 [D4 H]]]].
  cbn [run] in H.
  set (year := String d1 (String d2 (String d3 (String d4 EmptyString)))).
  assert (E : s = ((String l0 l ++ " " ++ year) ++ rest)%string).
  { subst s s1 s2 s3 s4 s5 s6. rewrite append_assoc. reflexivity. }
  exists (String l0 l ++ " " ++ year)%string, rest. split; [exact E|]. split.
  - exists (String l0 l), year. split; [reflexivity|]. split; [discriminate|].
    split; [cbn [all_of]; now rewrite L0, L|]. split; [reflexivity|].
    cbn [all_of year]. now rewrite D1, D2, D3, D4.
  - rewrite E, consumed_app in H. exact H.
Qed.

Lemma date_pattern_captures (s rest : string) (c : captures) :
  match_at date_pattern s = Some (rest, c) ->
  exists x y, c = [(2, y); (1, x)] /\ month_year_shape x /\ month_year_shape y.
Proof.
  unfold match_at, date_pattern. rewrite run_seq. intros H.
  apply run_group_month_year in H. destruct H as [x [s1 [_ [X H]]]].
  rewrite run_seq, run_star in H. apply star_run_of_class in H.
  destruct H as [_ [s2 [_ [_ H]]]]. rewrite run_seq in H.
  apply CompanyUrl.run_lit_inv in H. destruct H as [s3 [_ H]].
  rewrite run_seq, run_star in H. apply star_run_of_class in H.
  destruct H as [_ [s4 [_ [_ H]]]].
  apply run_group_month_year in H. destruct H as [y [s5 [_ [Y H]]]].
  inversion H. now exists x, y.
Qed.

Lemma single_date_pattern_captures (s rest : string) (c : captures) :
  match_at single_date_pattern s = Some (rest, c) ->
  exists x, c = [(1, x)] /\ month_year_shape x.
Proof.
  unfold match_at, single_date_pattern. intros H.
  apply run_group_month_year in H. destruct H as [x [s1 [_ [X H]]]].
  inversion H. now exists x.
Qed.

(** X24. For a text that is not empty, [parse_date_range] returns a pair of two
    dates, of a first date alone, or of nothing: never an end without a start.
    Each date it returns is made of letters, one blank and four digits, and a
    text in which the single pattern finds nothing gives the empty pair. *)
Theorem parse_date_range_shapes (a : ascii) (s : string) :
  let text := String a s in
  (exists x y, parse_date_range (Some text) = Ret (Some x, Some y)
               /\ month_year_shape x /\ month_year_shape y)
  \/ (exists x, parse_date_range (Some text) = Ret (Some x, None)
                /\ month_year_shape x
                /\ search date_pattern text = None)
  \/ (parse_date_range (Some text) = Ret (None, None)
      /\ search single_date_pattern text = None).
Proof.
  cbv zeta. unfold parse_date_range.
  destruct (search date_pattern (String a s)) as [m|] eqn:S.
  - left. pose proof (search_groups_len _ _ _ S) as G.
    destruct (search_whole _ _ _ S) as [_ [after [_ M]]].
    apply date_pattern_captures in M. destruct M as [x [y [C [X Y]]]].
    exists x, y. split; [|now split].
    unfold group. rewrite G, C. reflexivity.
  - right. destruct (search single_date_pattern (String a s)) as [m|] eqn:S1.
    + left. pose proof (search_groups_len _ _ _ S1) as G.
      destruct (search_whole _ _ _ S1) as [_ [after [_ M]]].
      apply single_date_pattern_captures in M. destruct M as [x [C X]].
      exists x. split; [|now split].
      unfold group. rewrite G, C. reflexivity.
    + right. now split.
Qed.

End CleanerShapes.

Module CleanerShapesExamples.
Import Py Re DataCleaner CleanerShapes.

Example size_amount :
  parse_project_size (Some "  Budget: $10,000 - $49,999 per year ")
  = Ret (Some "$10,000 - $49,999").
Proof. vm_compute. reflexivity. Qed.

Example date_first_only :
  parse_date_range (Some "from Jan 2023 to Jun 2023") = Ret (Some "Jan 2023", None).
Proof. vm_compute. reflexivity. Qed.

Lemma parse_project_size_amount_witness :
  parse_project_size (Some "  less   than 10k ") = clean_text (Some "  less   than 10k ").
Proof.
  apply (proj2 (parse_project_size_amount " " " less   than 10k ")). reflexivity.
Defined.

End CleanerShapesExamples.

(* ================================================================= *)
(** ** exporter.py: [AdvancedDataExporter.export_filtered_data] *)

Module Filtered.
Import Py.

(** A value of the dict [filters]. *)
Inductive value : Type :=
| Str (s : string)
| Num (f : float)
| NoneValue.

(** [field != value] for an [Optional[str]] field. *)
Definition differs (field : option string) (v : value) : bool :=
  match field, v with
  | Some s, Str t => negb (String.eqb s t)
  | None, NoneValue => false
  | _, _ => true
  end.

(** The loop over [filters.items()] for one record: whether the record is
    included. A record has no attribute [project], so the test for
    ['min_score'] raises [AttributeError]. *)
Fixpoint include (item : ScrapedData.t) (filters : list (string * value))
  : result bool :=
  match filters with
  | [] => Ret true
  | (field, v) :: rest =>
      if String.eqb field "subcategory" then
        if differs (ScrapedData.subcategory item) v then Ret false
        else include item rest
      else if String.eqb field "company_name" then
        if match ScrapedData.competitor item with
           | Some c => differs (CompetitorInfo.name c) v
           | None => true
           end
        then Ret false
        else include item rest
      else if String.eqb field "min_score" then Raise (OtherError "AttributeError")
      else include item rest
  end.

(** The loop over the records. *)
Fixpoint select (data : list ScrapedData.t) (filters : list (string * value))
  : result (list ScrapedData.t) :=
  match data with
  | [] => Ret []
  | item :: data' =>
      bind (include item filters) (fun keep =>
      bind (select data' filters) (fun filtered_data =>
      Ret (if keep then item :: filtered_data else filtered_data)))
  end.

(** [export_filtered_data], up to the call of [export_to_csv]: the records that
    call is given, or the [ExportError] raised in place of an exception. *)
Definition export_filtered_data (data : list ScrapedData.t)
    (filters : list (string * value)) : result (list ScrapedData.t) :=
  try_except (select data filters) (fun _ => Raise (OtherError "ExportError")).

(** The tests the loop makes on a record, the one for ['min_score'] left out. *)
Definition check (item : ScrapedData.t) (entry : string * value) : bool :=
  if String.eqb (fst entry) "subcategory"
  then negb (differs (ScrapedData.subcategory item) (snd entry))
  else if String.eqb (fst entry) "company_name"
  then match ScrapedData.competitor item with
       | Some c => negb (differs (CompetitorInfo.name c) (snd entry))
       | None => false
       end
  else true.

Definition passes (filters : list (string * value)) (item : ScrapedData.t) : bool :=
  forallb (check item) filters.

Definition has_min_score (filters : list (string * value)) : bool :=
  existsb (fun entry => String.eqb (fst entry) "min_score") filters.

Lemma include_without_min_score (item : ScrapedData.t) (filters : list (string * value)) :
  has_min_score filters = false -> include item filters = Ret (passes filters item).
Proof.
  induction filters as [|[field v] rest IH]; [reflexivity|].
  cbn [has_min_score existsb fst]. intros H. apply orb_false_iff in H.
  destruct H as [M H]. cbn [include].
  change (passes ((field, v) :: rest) item)
    with (check item (field, v) && passes rest item).
  unfold check at 1. cbn [fst snd].
  destruct (String.eqb field "subcategory").
  - destruct (differs (ScrapedData.subcategory item) v); [reflexivity|].
    now apply IH.
  - destruct (String.eqb field "company_name").
    + destruct (ScrapedData.competitor item) as [c|]; [|reflexivity].
      destruct (differs (CompetitorInfo.name c) v); [reflexivity|]. now apply IH.
    + rewrite M. now apply IH.
Qed.

Lemma include_with_min_score (item : ScrapedData.t) (filters : list (string * value)) :
  has_min_score filters = true -> include item filters <> Ret true.
Proof.
  induction filters as [|[field v] rest IH]; [discriminate|].
  cbn [has_min_score existsb fst include]. intros H.
  destruct (String.eqb field "subcategory") eqn:S.
  { apply String.eqb_eq in S. subst field. cbn in H.
    destruct (differs (ScrapedData.subcategory item) v); [discriminate|].
    now apply IH. }
  destruct (String.eqb field "company_name") eqn:C.
  { apply String.eqb_eq in C. subst field. cbn in H.
    destruct (match ScrapedData.competitor item with
              | Some c => differs (CompetitorInfo.name c) v
              | None => true
              end); [discriminate|]. now apply IH. }
  destruct (String.eqb field "min_score"); [discriminate|].
  cbn [orb] in H. now apply IH.
Qed.

(** X25. Without a ['min_score'] entry, [export_filtered_data] exports the
    records that pass every ['subcategory'] and ['company_name'] test, in
    order, and ignores any other entry. With a ['min_score'] entry it never
    exports a record: the test reads an attribute the records do not have, so
    the call raises [ExportError] as soon as a record gets as far as that entry,
    and otherwise every record has been turned down before. *)
Theorem export_filtered_data_min_score (data : list ScrapedData.t)
    (filters : list (string * value)) :
  (has_min_score filters = false ->
   export_filtered_data data filters = Ret (filter (passes filters) data))
  /\ (has_min_score filters = true ->
      export_filtered_data data filters = Ret []
      \/ export_filtered_data data filters = Raise (OtherError "ExportError"))
  /\ (forall v rest item data',
        filters = ("min_score", v) :: rest -> data = item :: data' ->
        export_filtered_data data filters = Raise (OtherError "ExportError")).
Proof.
  unfold export_filtered_data. split; [|split].
  - intros H. induction data as [|item data IH]; [reflexivity|].
    cbn [select filter]. rewrite (include_without_min_score item filters H).
    cbn [bind]. destruct (select data filters) as [l|x]; [|discriminate].
    cbn [try_except bind] in *. inversion IH. reflexivity.
  - intros H. induction data as [|item data IH]; [now left|].
    cbn [select]. pose proof (include_with_min_score item filters H) as NT.
    destruct (include item filters) as [[|]|x]; [congruence | | now right].
    cbn [bind]. destruct (select data filters) as [l|x]; [|now right].
    cbn [bind try_except] in *. destruct IH as [IH|IH]; [|discriminate].
    left. exact IH.
  - intros v rest item data' -> ->. reflexivity.
Qed.

End Filtered.

Module FilteredExamples.
Import Py Filtered.

Definition company (subcategory name : string) : ScrapedData.t :=
  ScrapedData.init "2024-01-01T00:00:00" (Some subcategory)
    (Some (CompetitorInfo.mk (Some name) [])) None None None.

Definition records : list ScrapedData.t :=
  [company "Web Developers" "Acme"; company "PHP" "Globex"; company "Web Developers" "Initech"].

Example by_subcategory :
  export_filtered_data records [("subcategory", Str "Web Developers"); ("region", Str "EU")]
  = Ret [company "Web Developers" "Acme"; company "Web Developers" "Initech"].
Proof. reflexivity. Qed.

Example min_score_after_a_miss :
  export_filtered_data records [("subcategory", Str "Java"); ("min_score", Num 4%float)]
  = Ret [].
Proof. reflexivity. Qed.

Lemma export_filtered_data_min_score_witness :
  export_filtered_data records [("min_score", Num 4%float)]
  = Raise (OtherError "ExportError").
Proof.
  apply (proj2 (proj2 (export_filtered_data_min_score records
                         [("min_score", Num 4%float)]))
           (Num 4%float) [] (company "Web Developers" "Acme")
           [company "PHP" "Globex"; company "Web Developers" "Initech"]); reflexivity.
Defined.

End FilteredExamples.

(* ================================================================= *)
(** ** scraper.py: [scrape_all_development_categories] *)

Module AllCategories.
Import Py ScrapedData Dedup.

Section Run.

(** [DEVELOPMENT_SUBCATEGORIES.items()] *)
Variable subcategories : list (string * string).

(** [self.scrape_category(category_url, subcategory_name)] *)
Variable scrape_category : string -> string -> Manager.outcome.

(** The loop over the categories: [self.scraped_data] after it; a category
    whose call raises adds nothing. *)
Definition collect (scraped_data : list t) : list t :=
  fold_left
    (fun scraped_data category =>
       match scrape_category (fst category) (snd category) with
       | Manager.Scraped category_data => scraped_data ++ category_data
       | Manager.Failed _ => scraped_data
       end)
    subcategories scraped_data.

(** [scrape_all_development_categories], from the value of
    [self.scraped_data] before the call: the list it returns, which is also
    the value of [self.scraped_data] after it. *)
Definition scrape_all_development_categories (scraped_data : list t) : list t :=
  _deduplicate_companies (collect scraped_data).

Lemma collect_flat_map (scraped_data : list t) :
  collect scraped_data
  = scraped_data ++ flat_map (Manager.data_of scrape_category) subcategories.
Proof.
  unfold collect. revert scraped_data.
  induction subcategories as [|c l IH]; intros scraped_data; cbn [fold_left flat_map].
  - now rewrite app_nil_r.
  - rewrite IH. unfold Manager.data_of at 2.
    destruct (scrape_category (fst c) (snd c)); [now rewrite app_assoc | reflexivity].
Qed.

(** X26. [scrape_all_development_categories] returns the deduplicated list of
    the records the scraper already held followed by those of the categories
    in the order of the dict, a category whose call raises giving nothing.
    In what it returns every record has a company name and no two records have
    the same name once the names are put in lower case and stripped of the
    white space around them; when no category gives a record, a list it returned
    before is returned again as it is. *)
Theorem scrape_all_development_categories_unique (scraped_data : list t) :
  let result := scrape_all_development_categories scraped_data in
  result
  = _deduplicate_companies
      (scraped_data ++ flat_map (Manager.data_of scrape_category) subcategories)
  /\ NoDup (map (fun record =>
                   option_map (fun n => Py.strip (Py.lower n)) (competitor_name record))
              result)
  /\ (forall record, In record result ->
        exists n, competitor_name record = Some n /\ n <> EmptyString)
  /\ (flat_map (Manager.data_of scrape_category) subcategories = [] ->
      scrape_all_development_categories result = result).
Proof.
  cbv zeta. unfold scrape_all_development_categories. rewrite !collect_flat_map.
  set (all := scraped_data ++ flat_map (Manager.data_of scrape_category) subcategories).
  split; [reflexivity|]. split; [|split].
  - rewrite deduplicated_lower_stripped.
    apply NoDup_map_Some, first_appearances_NoDup.
  - intros record IN. apply deduplicated_have_names in IN.
    destruct IN as [n [N [T _]]]. exists n. split; [exact N|].
    intros ->. discriminate.
  - intros NONE. rewrite NONE, app_nil_r.
    apply _deduplicate_companies_fixed
      with (ks := first_appearances (input_keys all)).
    + apply deduplicated_keys.
    + apply first_appearances_NoDup.
Qed.

End Run.

End AllCategories.

Module AllCategoriesExamples.
Import Py ScrapedData Dedup AllCategories.

Definition company (name : string) (reviewers : list ReviewerInfo.t) : t :=
  init "2024-01-01T00:00:00" (Some "Web Developers")
    (Some (CompetitorInfo.mk (Some name) [])) (Some reviewers) None None.

Definition two_categories : list (string * string) :=
  [("https://clutch.co/web-developers", "Web Developers");
   ("https://clutch.co/web-developers/php", "PHP")].

Definition scrape_category (category_url category_name : string) : Manager.outcome :=
  if String.eqb category_name "PHP"
  then Manager.Scraped [company "ACME " [ReviewerInfo.default]; company "Globex" []]
  else Manager.Scraped [company "Acme" []].

Example listed_twice :
  map competitor_name
    (scrape_all_development_categories two_categories scrape_category [])
  = [Some "ACME "; Some "Globex"].
Proof. reflexivity. Qed.

Lemma scrape_all_development_categories_unique_witness :
  scrape_all_development_categories two_categories (fun _ _ => Manager.Scraped [])
    (scrape_all_development_categories two_categories (fun _ _ => Manager.Scraped [])
       [company "Acme" []; company "acme" []])
  = scrape_all_development_categories two_categories (fun _ _ => Manager.Scraped [])
      [company "Acme" []; company "acme" []]
  /\ NoDup (map (fun record =>
                   option_map (fun n => Py.strip (Py.lower n)) (competitor_name record))
              (scrape_all_development_categories two_categories scrape_category
                 [company "acme" []])).
Proof.
  split.
  - apply (proj2 (proj2 (proj2
             (scrape_all_development_categories_unique two_categories
                (fun _ _ => Manager.Scraped []) [company "Acme" []; company "acme" []])))).
    reflexivity.
  - apply (proj1 (proj2
             (scrape_all_development_categories_unique two_categories scrape_category
                [company "acme" []]))).
Defined.

End AllCategoriesExamples.
